(** * decon_board: the action-list builder and executor of the Exynos 7885
    display driver (drivers/video/fbdev/exynos/dpu_7885/decon_board.c)

    The development embeds [decide_type], [decide_subinfo], [find_timer],
    [make_list], [do_list], [find_list] and [run_list] as functions over an
    explicit world (the global [dt_nodes] table, the heap of [timer_info]
    objects and the log of calls made to the kernel), and proves properties
    of the builder, the executor and the named timers.

    Conventions.
    - C integers are [Z] with their wrap-around written out ([to_u32],
      [to_s32], [to_u64], [to_s64]); the model is the LP64 (arm64) build,
      where [long] is 64 bits wide.
    - Pointers to [timer_info] are indices into the heap [timers]; a NULL
      pointer is [None].  Dereferencing NULL ends the run in [Oops].
    - [BUG()] and [BUG_ON] end the run in [Bug]; both outcomes keep the world
      as it was at that point.
    - Memory allocation is assumed to succeed.
    - Logging ([dbg_info], [dbg_warn], [print_action], [print_timer],
      [dump_list]) has no effect on the state and is left out. *)

From Stdlib Require Import ZArith Lia String Ascii List Bool.
From stdpp Require Import base list.
Import ListNotations.

Local Open Scope string_scope.
Local Open Scope list_scope.
Local Open Scope Z_scope.

(** ** Machine integers *)

Module Int.

(** Conversion to [unsigned int], [u64], [int] and [s64]. *)
Definition to_u32 (x : Z) : Z := x mod 2 ^ 32.
Definition to_u64 (x : Z) : Z := x mod 2 ^ 64.
Definition to_s32 (x : Z) : Z :=
  let y := x mod 2 ^ 32 in if y <? 2 ^ 31 then y else y - 2 ^ 32.
Definition to_s64 (x : Z) : Z :=
  let y := x mod 2 ^ 64 in if y <? 2 ^ 63 then y else y - 2 ^ 64.

(** Modelled from the spec: the constants of the kernel headers
    (include/linux/kernel.h, errno-base.h, time.h), which are outside the
    driver's two files; the spec's 20 ms threshold and its millisecond,
    microsecond and nanosecond units rest on them. *)
Definition UINT_MAX : Z := 2 ^ 32 - 1.
Definition EINVAL : Z := 22.
Definition ERANGE : Z := 34.
Definition USEC_PER_MSEC : Z := 1000.
Definition NSEC_PER_MSEC : Z := 1000000.
Definition NSEC_PER_USEC : Z := 1000.

End Int.
Export Int.

(** ** Kernel helpers

    [isdigit], [isspace], [skip_spaces], [simple_strtol], [vsscanf],
    [kstrtouint] and [ktime_us_delta] live in lib/ctype.c, lib/string.c,
    lib/vsprintf.c, lib/kstrtox.c and include/linux/ktime.h, which are not
    among the driver's two files.  The spec gives the parameters they parse
    (one integer, [lo [hi]], [<name> <delay_ms>]) and the quantity the await
    computes (the remaining duration); the definitions of this module
    follow the kernel's rules for the arguments the driver passes. *)

Module Klib.

Definition code (c : ascii) : Z := Z.of_nat (nat_of_ascii c).

(** Modelled from the spec: [isdigit] of lib/ctype.c, the test behind the
    spec's "non-digit-leading string". *)
Definition isdigit (c : ascii) : bool := (48 <=? code c) && (code c <=? 57).

(** Modelled from the spec: [isspace] of lib/ctype.c, the separator of the
    tokens of a parameter: the [_S] class of the kernel's [_ctype] table,
    TAB..CR, space and 0xa0. *)
Definition isspace (c : ascii) : bool :=
  ((9 <=? code c) && (code c <=? 13)) || (code c =? 32) || (code c =? 160).

(** Modelled from the spec: [_tolower] and [isxdigit] of lib/ctype.c, used
    by the integer parser. *)
Definition _tolower (c : ascii) : Z := Z.lor (code c) 32.

Definition isxdigit (c : ascii) : bool :=
  isdigit c || ((97 <=? _tolower c) && (_tolower c <=? 102)).

(** Modelled from the spec: [skip_spaces] of lib/string.c. *)
Fixpoint skip_spaces (s : string) : string :=
  match s with
  | String c r => if isspace c then skip_spaces r else s
  | EmptyString => s
  end.

Fixpoint drop_chars (n : nat) (s : string) : string :=
  match n, s with
  | O, _ => s
  | S n', String _ r => drop_chars n' r
  | S _, EmptyString => EmptyString
  end.

Definition first_char (s : string) : option ascii :=
  match s with String c _ => Some c | EmptyString => None end.

(** Modelled from the spec: the value of a character as a digit in
    [_parse_integer] of lib/kstrtox.c, if any. *)
Definition digit_val (c : ascii) : option Z :=
  if isdigit c then Some (code c - 48)
  else if (97 <=? _tolower c) && (_tolower c <=? 102) then Some (_tolower c - 97 + 10)
  else None.

(** Modelled from the spec: [_parse_integer(s, base, &res)] of
    lib/kstrtox.c, the parser of the integers of a parameter: accumulates
    digits below [base] in an unsigned 64-bit result (wrapping), counts the
    characters consumed and records whether the value overflowed. *)
Fixpoint _parse_integer (base : Z) (s : string) (res : Z) (rv : nat) (overflow : bool)
  : Z * nat * bool :=
  match s with
  | String c r =>
      match digit_val c with
      | Some val =>
          if base <=? val then (res, rv, overflow)
          else
            let overflow' :=
              if (2 ^ 60 <=? res) && ((2 ^ 64 - 1 - val) / base <? res)
              then true else overflow in
            _parse_integer base r (to_u64 (res * base + val)) (S rv) overflow'
      | None => (res, rv, overflow)
      end
  | EmptyString => (res, rv, overflow)
  end.

(** Modelled from the spec: [simple_strtol(cp, &next, 10)] of
    lib/vsprintf.c: the value as a [long] and the number of characters
    between [cp] and [next]. *)
Definition simple_strtol (cp : string) : Z * nat :=
  match cp with
  | String "-" r =>
      let '(v, n, _) := _parse_integer 10 r 0 0 false in (to_s64 (- v), S n)
  | _ =>
      let '(v, n, _) := _parse_integer 10 cp 0 0 false in (to_s64 v, n)
  end.

(** Modelled from the spec: the field-width loop of [vsscanf] of
    lib/vsprintf.c: while more than [width] characters were consumed, drop
    the last one and divide the value by the base. *)
Fixpoint width_fixup (fuel : nat) (width : nat) (val : Z) (len : nat) : Z * nat :=
  match fuel with
  | O => (val, len)
  | S fuel' =>
      if (width <? len)%nat then width_fixup fuel' width (Z.quot val 10) (Nat.pred len)
      else (val, len)
  end.

(** Modelled from the spec: one ["%8d"] conversion of [vsscanf] of
    lib/vsprintf.c at input [str], which reads one integer of a parameter:
    [None] when the conversion stops the scan, else the [int] stored and
    the rest of the input. *)
Definition scan_8d (str : string) : option (Z * string) :=
  match str with
  | EmptyString => None
  | _ =>
      let str := skip_spaces str in
      let digit :=
        match str with
        | String "-" r => first_char r
        | _ => first_char str
        end in
      match digit with
      | None => None
      | Some d =>
          if isdigit d then
            let '(val, len) := simple_strtol str in
            let '(val, len) := width_fixup len 8 val len in
            Some (to_s32 val, drop_chars len str)
          else None
      end
  end.

(** Modelled from the spec: the copy loop of a ["%s"] conversion of
    [vsscanf], which reads the name token of a timer: up to the next white
    space, at most [width] characters. *)
Fixpoint take_word (s : string) (width : Z) : string * string :=
  match s with
  | String c r =>
      if isspace c || (width =? 0) then (EmptyString, s)
      else let '(w, rest) := take_word r (width - 1) in (String c w, rest)
  | EmptyString => (EmptyString, s)
  end.

Definition SHRT_MAX : Z := 32767.

(** Modelled from the spec: one ["%s"] conversion of [vsscanf]. *)
Definition scan_s (str : string) : option (string * string) :=
  match str with
  | EmptyString => None
  | _ => Some (take_word (skip_spaces str) SHRT_MAX)
  end.

(** Modelled from the spec: [sscanf(buf, "%8d %8d", &a, &b)] (lib/vsprintf.c),
    the parse of the ranged-sleep parameter [lo [hi]]: the return value and
    what was stored through [a] and [b]. *)
Definition sscanf_8d_8d (buf : string) : Z * option Z * option Z :=
  match scan_8d buf with
  | None => (0, None, None)
  | Some (a, rest) =>
      match scan_8d (skip_spaces rest) with
      | None => (1, Some a, None)
      | Some (b, _) => (2, Some a, Some b)
      end
  end.

(** Modelled from the spec: [sscanf(buf, "%s %8d\n", name, &delay)]
    (lib/vsprintf.c), the parse of the timer-start parameter
    [<name> <delay_ms>]: the return value and what was stored. *)
Definition sscanf_s_8d (buf : string) : Z * option string * option Z :=
  match scan_s buf with
  | None => (0, None, None)
  | Some (name, rest) =>
      match scan_8d (skip_spaces rest) with
      | None => (1, Some name, None)
      | Some (d, _) => (2, Some name, Some d)
      end
  end.

(** Modelled from the spec: [_parse_integer_fixup_radix] of lib/kstrtox.c
    for [base == 0]: the base chosen and the string after an accepted
    ["0x"] prefix. *)
Definition _parse_integer_fixup_radix (s : string) : Z * string :=
  match s with
  | String "0" (String x (String h r)) =>
      if (_tolower x =? 120) && isxdigit h then (16, String h r) else (8, s)
  | String "0" _ => (8, s)
  | _ => (10, s)
  end.

(** Modelled from the spec: [kstrtouint(s, 0, &res)] of lib/kstrtox.c, the
    parse of the one integer of a busy-wait or coarse-sleep parameter: the
    return value and what was stored. *)
Definition kstrtouint (s : string) : Z * option Z :=
  let s := match s with String "+" r => r | _ => s end in
  let '(base, s) := _parse_integer_fixup_radix s in
  let '(res, rv, overflow) := _parse_integer base s 0 0 false in
  if overflow then (- ERANGE, None)
  else if (rv =? 0)%nat then (- EINVAL, None)
  else
    let rest := drop_chars rv s in
    let rest := match rest with String "010" r => r | _ => rest end in
    match rest with
    | String _ _ => (- EINVAL, None)
    | EmptyString => if UINT_MAX <? res then (- ERANGE, None) else (0, Some res)
    end.

(** Modelled from the spec: [ns_to_ktime] of include/linux/ktime.h: a
    [ktime_t] is a signed 64-bit count of nanoseconds. *)
Definition ns_to_ktime (ns : Z) : Z := to_s64 ns.

(** Modelled from the spec: [ktime_us_delta] of include/linux/ktime.h, the
    spec's remaining duration: the difference of two [ktime_t] divided by
    [NSEC_PER_USEC] as a signed 64-bit integer. *)
Definition ktime_us_delta (later earlier : Z) : Z :=
  Z.quot (to_s64 (later - earlier)) NSEC_PER_USEC.

End Klib.
Export Klib.

(** ** The macros of decon_board.c *)

(** [STRNEQ(a, b)] is [strncmp(a, b, strlen(a)) == 0]: [a] is a prefix of
    [b].  [STREQ(a, b)] is [*a == *b && strcmp(a, b) == 0]: the two strings
    are equal. *)
Definition STRNEQ (a b : string) : bool := String.prefix a b.
Definition STREQ (a b : string) : bool := String.eqb a b.

Definition SMALL_MSECS : Z := 20.
Definition MSEC_TO_USEC (ms : Z) : Z := ms * USEC_PER_MSEC.
Definition USEC_TO_MSEC (us : Z) : Z := us / USEC_PER_MSEC.

(** ** Data model *)

(** A kernel object pointer as returned by the pinctrl and regulator
    frameworks: NULL, an [ERR_PTR] or a live object. *)
Inductive kptr := KNull | KErr (errno : Z) | KObj (id : nat).

(** Modelled from the spec: [IS_ERR] of include/linux/err.h, the test of a
    failed resolution. *)
Definition IS_ERR (p : kptr) : bool :=
  match p with KErr _ => true | _ => false end.

Record timer_info := mk_timer {
  t_name : string;
  t_start : Z;   (* u64, ns *)
  t_end : Z;     (* u64, ns; zero when never started or cleared *)
  t_now : Z;     (* u64, ns *)
  t_delay : Z    (* unsigned int, ms *)
}.

Record regulator_bulk_data := mk_supply {
  supply : string;
  consumer : kptr
}.

Record action_info := mk_action {
  a_type : option string;
  a_subinfo : option string;
  a_desc : option string;
  a_idx : Z;                              (* unsigned int *)
  a_gpio : Z;                             (* int *)
  a_delay0 : Z;                           (* delay[0], unsigned int *)
  a_delay1 : Z;                           (* delay[1], unsigned int *)
  a_supply : option regulator_bulk_data;
  a_pins : kptr;
  a_state : kptr;
  a_timer : option nat                    (* pointer into the timer heap *)
}.

(** What [kzalloc(sizeof(struct action_info))] returns. *)
Definition zero_action : action_info :=
  mk_action None None None 0 0 0 0 None KNull KNull None.

Definition set_idx (a : action_info) (v : Z) : action_info :=
  mk_action (a_type a) (a_subinfo a) (a_desc a) v (a_gpio a) (a_delay0 a) (a_delay1 a)
            (a_supply a) (a_pins a) (a_state a) (a_timer a).
Definition set_gpio (a : action_info) (v : Z) : action_info :=
  mk_action (a_type a) (a_subinfo a) (a_desc a) (a_idx a) v (a_delay0 a) (a_delay1 a)
            (a_supply a) (a_pins a) (a_state a) (a_timer a).
Definition set_delay0 (a : action_info) (v : Z) : action_info :=
  mk_action (a_type a) (a_subinfo a) (a_desc a) (a_idx a) (a_gpio a) v (a_delay1 a)
            (a_supply a) (a_pins a) (a_state a) (a_timer a).
Definition set_delay1 (a : action_info) (v : Z) : action_info :=
  mk_action (a_type a) (a_subinfo a) (a_desc a) (a_idx a) (a_gpio a) (a_delay0 a) v
            (a_supply a) (a_pins a) (a_state a) (a_timer a).
Definition set_supply (a : action_info) (v : option regulator_bulk_data) : action_info :=
  mk_action (a_type a) (a_subinfo a) (a_desc a) (a_idx a) (a_gpio a) (a_delay0 a) (a_delay1 a)
            v (a_pins a) (a_state a) (a_timer a).
Definition set_pins (a : action_info) (v : kptr) : action_info :=
  mk_action (a_type a) (a_subinfo a) (a_desc a) (a_idx a) (a_gpio a) (a_delay0 a) (a_delay1 a)
            (a_supply a) v (a_state a) (a_timer a).
Definition set_state (a : action_info) (v : kptr) : action_info :=
  mk_action (a_type a) (a_subinfo a) (a_desc a) (a_idx a) (a_gpio a) (a_delay0 a) (a_delay1 a)
            (a_supply a) (a_pins a) v (a_timer a).
Definition set_timer (a : action_info) (v : option nat) : action_info :=
  mk_action (a_type a) (a_subinfo a) (a_desc a) (a_idx a) (a_gpio a) (a_delay0 a) (a_delay1 a)
            (a_supply a) (a_pins a) (a_state a) v.
Definition set_desc (a : action_info) (v : option string) : action_info :=
  mk_action (a_type a) (a_subinfo a) v (a_idx a) (a_gpio a) (a_delay0 a) (a_delay1 a)
            (a_supply a) (a_pins a) (a_state a) (a_timer a).

(** The anonymous enum of action kinds; [a_idx] holds [idx_of] of one. *)
Inductive action_kind :=
| ACTION_DUMMY
| ACTION_GPIO_HIGH
| ACTION_GPIO_LOW
| ACTION_REGULATOR_ENABLE
| ACTION_REGULATOR_DISABLE
| ACTION_DELAY_MDELAY
| ACTION_DELAY_MSLEEP
| ACTION_DELAY_USLEEP
| ACTION_PINCTRL
| ACTION_TIMER_START
| ACTION_TIMER_DELAY
| ACTION_TIMER_CLEAR
| ACTION_MAX.

Definition idx_of (k : action_kind) : Z :=
  match k with
  | ACTION_DUMMY => 0
  | ACTION_GPIO_HIGH => 1
  | ACTION_GPIO_LOW => 2
  | ACTION_REGULATOR_ENABLE => 3
  | ACTION_REGULATOR_DISABLE => 4
  | ACTION_DELAY_MDELAY => 5
  | ACTION_DELAY_MSLEEP => 6
  | ACTION_DELAY_USLEEP => 7
  | ACTION_PINCTRL => 8
  | ACTION_TIMER_START => 9
  | ACTION_TIMER_DELAY => 10
  | ACTION_TIMER_CLEAR => 11
  | ACTION_MAX => 12
  end.

Definition all_kinds : list action_kind :=
  [ACTION_DUMMY; ACTION_GPIO_HIGH; ACTION_GPIO_LOW; ACTION_REGULATOR_ENABLE;
   ACTION_REGULATOR_DISABLE; ACTION_DELAY_MDELAY; ACTION_DELAY_MSLEEP;
   ACTION_DELAY_USLEEP; ACTION_PINCTRL; ACTION_TIMER_START; ACTION_TIMER_DELAY;
   ACTION_TIMER_CLEAR; ACTION_MAX].

(** The enumerator a [switch (action->idx)] selects, if any. *)
Definition kind_of (idx : Z) : option action_kind :=
  List.find (fun k => idx_of k =? idx) all_kinds.

(** [action_list[ACTION_MAX]]: the type string of each kind from
    [ACTION_GPIO_HIGH] on, in enum order. *)
Definition action_list : list (action_kind * string) :=
  [(ACTION_GPIO_HIGH, "gpio,high");
   (ACTION_GPIO_LOW, "gpio,low");
   (ACTION_REGULATOR_ENABLE, "regulator,enable");
   (ACTION_REGULATOR_DISABLE, "regulator,disable");
   (ACTION_DELAY_MDELAY, "delay,mdelay");
   (ACTION_DELAY_MSLEEP, "delay,msleep");
   (ACTION_DELAY_USLEEP, "delay,usleep");
   (ACTION_PINCTRL, "pinctrl");
   (ACTION_TIMER_START, "timer,start");
   (ACTION_TIMER_DELAY, "timer,delay");
   (ACTION_TIMER_CLEAR, "timer,clear")].

Record dt_node_info := mk_node {
  n_name : string;
  n_node : list action_info
}.

(** ** Calls to the kernel

    Every call the driver makes to a collaborator is logged, most recent
    first.  [EvMakeList] and [EvDoList] mark the entry of [make_list] and
    [do_list]. *)
Inductive event :=
| EvMakeList (name : string)
| EvDoList
| EvKzallocAction
| EvKfreeAction
| EvFindNodeByName (name : string)
| EvCountStrings (prop : string)
| EvReadStringIndex (prop : string) (index : Z)
| EvGetNamedGpio (name : string)
| EvRegulatorBulkGet (name : string)
| EvFindDeviceByNode
| EvPinctrlGet
| EvPinctrlLookupState (name : string)
| EvGpioRequestOne (gpio : Z) (high : bool)
| EvGpioFree (gpio : Z)
| EvRegulatorEnable (c : kptr)
| EvRegulatorDisable (c : kptr)
| EvMdelay (ms : Z)
| EvMsleep (ms : Z)
| EvUsleepRange (lo hi : Z)
| EvPinctrlSelectState (pins state : kptr)
| EvLocalClock.

(** The hardware resolvers: named GPIO, regulator and pinctrl lookups. *)
Definition is_resolver (e : event) : bool :=
  match e with
  | EvGetNamedGpio _ | EvRegulatorBulkGet _ | EvFindDeviceByNode
  | EvPinctrlGet | EvPinctrlLookupState _ => true
  | _ => false
  end.

(** The reads of the declarative source (the device tree). *)
Definition is_source (e : event) : bool :=
  match e with
  | EvFindNodeByName _ | EvCountStrings _ | EvReadStringIndex _ _ => true
  | _ => false
  end.

(** The hardware actuators: pin, regulator and pinctrl drives, the three
    sleeps and the clock. *)
Definition is_actuator (e : event) : bool :=
  match e with
  | EvGpioRequestOne _ _ | EvGpioFree _ | EvRegulatorEnable _
  | EvRegulatorDisable _ | EvMdelay _ | EvMsleep _ | EvUsleepRange _ _
  | EvPinctrlSelectState _ _ | EvLocalClock => true
  | _ => false
  end.

Definition is_sleep (e : event) : bool :=
  match e with
  | EvMdelay _ | EvMsleep _ | EvUsleepRange _ _ => true
  | _ => false
  end.

Definition is_make_list (e : event) : bool :=
  match e with EvMakeList _ => true | _ => false end.

Definition is_do_list (e : event) : bool :=
  match e with EvDoList => true | _ => false end.

Definition count_events (f : event -> bool) (tr : list event) : nat :=
  length (List.filter f tr).

(** A device-tree node of a sequence: its ["type"] and ["desc"] string
    lists, when the property exists. *)
Record device_node := mk_np {
  prop_type : option (list string);
  prop_desc : option (list string)
}.

(** The collaborators whose code is outside the driver.  The device tree,
    the resolvers and [lcdtype] are fixed; what the actuators and the clock
    return may depend on everything done so far. *)
Record platform := mk_platform {
  lcdtype : Z;
  ARCH_NR_GPIOS : Z;
  decon_board_np : bool;
  of_find_node_by_name : string -> option device_node;
  of_get_named_gpio : string -> Z;
  regulator_bulk_get : string -> Z * kptr;
  of_find_device_by_node : bool;
  devm_pinctrl_get : kptr;
  pinctrl_lookup_state : kptr -> string -> kptr;
  gpio_request_one : list event -> Z -> bool -> Z;
  regulator_enable : list event -> kptr -> Z;
  regulator_disable : list event -> kptr -> Z;
  local_clock : list event -> Z
}.

(** Modelled from the spec: [of_property_count_strings] of drivers/of, the
    spec's count of declared strings: the number of strings, or [-EINVAL]
    when the property does not exist. *)
Definition of_property_count_strings (prop : option (list string)) : Z :=
  match prop with
  | Some l => Z.of_nat (length l)
  | None => - EINVAL
  end.

(** Modelled from the spec: [of_property_read_string_index(np, prop, index,
    &out)] of drivers/of, the read of one declared string: on success the
    string stored in [out]; on failure [out] keeps its value. *)
Definition of_property_read_string_index
  (prop : option (list string)) (index : nat) (out : option string) : option string :=
  match prop with
  | Some l => match l !! index with Some s => Some s | None => out end
  | None => out
  end.

(** ** The world and the monad of the driver *)

Record world := mk_world {
  dt_nodes : list dt_node_info;   (* the non-NULL prefix of [dt_nodes[10]] *)
  timers : list timer_info;       (* every [timer_info] allocated so far *)
  trace : list event              (* most recent first *)
}.

Inductive outcome (A : Type) :=
| Done (a : A) (w : world)
| Bug (w : world)
| Oops (w : world).
Arguments Done {A} a w.
Arguments Bug {A} w.
Arguments Oops {A} w.

Definition M (A : Type) : Type := world -> outcome A.

Definition ret {A} (a : A) : M A := fun w => Done a w.

Definition bind {A B} (m : M A) (k : A -> M B) : M B :=
  fun w =>
    match m w with
    | Done a w' => k a w'
    | Bug w' => Bug w'
    | Oops w' => Oops w'
    end.

Notation "'let*' x ':=' m 'in' k" := (bind m (fun x => k))
  (at level 10, x pattern, m at level 100, k at level 200).

Definition BUG {A} : M A := fun w => Bug w.
Definition oops {A} : M A := fun w => Oops w.

Definition emit (e : event) : M unit :=
  fun w => Done tt (mk_world (dt_nodes w) (timers w) (e :: trace w)).

Definition get_world : M world := fun w => Done w w.

(** The world an outcome ends in. *)
Definition world_of {A} (o : outcome A) : world :=
  match o with Done _ w | Bug w | Oops w => w end.

(** The action list of the [li]-th node of [dt_nodes]. *)
Definition list_at (li : nat) (w : world) : list action_info :=
  match dt_nodes w !! li with
  | Some n => n_node n
  | None => []
  end.

(** [list_add_tail(&action->node, lh)] on the list of node [li]. *)
Definition list_add_tail (li : nat) (a : action_info) : M unit :=
  fun w =>
    Done tt (mk_world
               (alter (fun n => mk_node (n_name n) (n_node n ++ [a])) li (dt_nodes w))
               (timers w) (trace w)).

(** Reading and writing through a [timer_info] pointer. *)
Definition timer_load (p : option nat) : M timer_info :=
  fun w =>
    match p with
    | Some i => match timers w !! i with Some t => Done t w | None => Oops w end
    | None => Oops w
    end.

Definition timer_store (p : option nat) (t : timer_info) : M unit :=
  fun w =>
    match p with
    | Some i =>
        if (i <? length (timers w))%nat
        then Done tt (mk_world (dt_nodes w) (<[i := t]> (timers w)) (trace w))
        else Oops w
    | None => Oops w
    end.

(** ** The driver *)

Section Driver.

Variable P : platform.

(** *** find_timer *)

Inductive scan_result := Found (p : nat) | NotFound | ScanFault | ScanBug.

(** The [list_for_each_entry] of [find_timer] over one action list. *)
Fixpoint find_timer_in_list (tm : list timer_info) (l : list action_info) (name : string)
  : scan_result :=
  match l with
  | [] => NotFound
  | action :: rest =>
      match a_type action with
      | None => ScanFault                 (* strncmp on a NULL type *)
      | Some ty =>
          if STRNEQ "timer" ty then
            match a_timer action with
            | None => find_timer_in_list tm rest name
            | Some p =>
                match tm !! p with
                | None => ScanFault
                | Some t =>
                    if STREQ (t_name t) name then Found p
                    else find_timer_in_list tm rest name
                end
            end
          else find_timer_in_list tm rest name
      end
  end.

(** The [while (!IS_ERR_OR_NULL(dt_nodes[idx]))] loop of [find_timer]. *)
Fixpoint find_timer_in_nodes (tm : list timer_info) (nodes : list dt_node_info)
  (idx : nat) (name : string) : scan_result :=
  match nodes with
  | [] => NotFound
  | dt_node :: rest =>
      match find_timer_in_list tm (n_node dt_node) name with
      | NotFound =>
          if (S idx =? 10)%nat then ScanBug      (* BUG_ON(idx == ARRAY_SIZE(dt_nodes)) *)
          else find_timer_in_nodes tm rest (S idx) name
      | r => r
      end
  end.

Definition find_timer (name : string) : M nat :=
  fun w =>
    match find_timer_in_nodes (timers w) (dt_nodes w) 0 name with
    | Found p => Done p w
    | NotFound =>
        Done (length (timers w))
             (mk_world (dt_nodes w) (timers w ++ [mk_timer name 0 0 0 0]) (trace w))
    | ScanFault => Oops w
    | ScanBug => Bug w
    end.

(** *** decide_type *)

(** The [for (i = ACTION_GPIO_HIGH; i < ACTION_MAX; i++)] search. *)
Fixpoint match_action_list (l : list (action_kind * string)) (type : string) : Z :=
  match l with
  | [] => idx_of ACTION_DUMMY
  | (k, s) :: rest => if STRNEQ s type then idx_of k else match_action_list rest type
  end.

Definition decide_type (action : action_info) : Z * action_info :=
  match a_type action with
  | None => (0, action)
  | Some EmptyString => (0, action)
  | Some type =>
      let idx :=
        if STRNEQ "pinctrl" type then idx_of ACTION_PINCTRL
        else match_action_list action_list type in
      if (idx =? idx_of ACTION_DUMMY) || (idx =? idx_of ACTION_MAX)
      then (- EINVAL, set_idx action (idx_of ACTION_DUMMY))
      else (0, set_idx action idx)
  end.

(** *** decide_subinfo *)

(** Modelled from the spec: [gpio_is_valid] of include/asm-generic/gpio.h,
    the spec's "invalid handle" test. *)
Definition gpio_is_valid (number : Z) : bool :=
  (0 <=? number) && (number <? ARCH_NR_GPIOS P).

Definition store_opt (v : option Z) (old : Z) : Z :=
  match v with Some x => to_u32 x | None => old end.

(** The body of [case ACTION_DELAY_USLEEP]. *)
Definition delay_usleep (action : action_info) (subinfo : string) : Z * action_info :=
  match first_char subinfo with
  | Some c =>
      if isdigit c then
        let '(r, v0, v1) := sscanf_8d_8d subinfo in
        let action := set_delay0 action (store_opt v0 (a_delay0 action)) in
        let action := set_delay1 action (store_opt v1 (a_delay1 action)) in
        let '(r, action) :=
          if r <? 0 then (- EINVAL, action)
          else if r <? 2 then
            let d1 := to_u32 (a_delay0 action + Z.shiftr (a_delay0 action) 1) in
            let d1 := if a_delay0 action =? d1 then to_u32 (d1 + 1) else d1 in
            (r, set_delay1 action d1)
          else if 2 <? r then (- EINVAL, action)
          else (r, action) in
        let r :=
          if (a_delay0 action =? 0) || (a_delay1 action =? 0) then - EINVAL
          else if a_delay1 action <? a_delay0 action then - EINVAL
          else if MSEC_TO_USEC SMALL_MSECS <=? a_delay0 action then - EINVAL
          else r in
        (r, action)
      else (- EINVAL, action)
  | None => (- EINVAL, action)
  end.

Definition decide_subinfo (action : action_info) : M (Z * action_info) :=
  match a_subinfo action with
  | None => ret (- EINVAL, action)
  | Some EmptyString => ret (- EINVAL, action)
  | Some subinfo =>
      match kind_of (a_idx action) with
      | Some ACTION_GPIO_HIGH | Some ACTION_GPIO_LOW =>
          let* _ := emit (EvGetNamedGpio subinfo) in
          let action := set_gpio action (to_s32 (of_get_named_gpio P subinfo)) in
          ret (if gpio_is_valid (a_gpio action) then 0 else - EINVAL, action)
      | Some ACTION_REGULATOR_ENABLE | Some ACTION_REGULATOR_DISABLE =>
          let* _ := emit (EvRegulatorBulkGet subinfo) in
          let '(r, c) := regulator_bulk_get P subinfo in
          ret (to_s32 r, set_supply action (Some (mk_supply subinfo c)))
      | Some ACTION_DELAY_MDELAY | Some ACTION_DELAY_MSLEEP =>
          match first_char subinfo with
          | Some c =>
              if isdigit c then
                let '(r, v) := kstrtouint subinfo in
                ret (r, set_delay0 action (store_opt v (a_delay0 action)))
              else ret (- EINVAL, action)
          | None => ret (- EINVAL, action)
          end
      | Some ACTION_DELAY_USLEEP => ret (delay_usleep action subinfo)
      | Some ACTION_PINCTRL =>
          let* _ := emit EvFindDeviceByNode in
          if of_find_device_by_node P then
            let* _ := emit EvPinctrlGet in
            let action := set_pins action (devm_pinctrl_get P) in
            let r := if IS_ERR (a_pins action) then - EINVAL else 0 in
            let* _ := emit (EvPinctrlLookupState subinfo) in
            let action := set_state action (pinctrl_lookup_state P (a_pins action) subinfo) in
            let r := if IS_ERR (a_state action) then - EINVAL else r in
            ret (r, action)
          else ret (- EINVAL, action)
      | Some ACTION_TIMER_START =>
          let '(r, name, d) := sscanf_s_8d subinfo in
          let timer_name := default EmptyString name in   (* the buffer is kzalloc'ed *)
          let delay := store_opt d 0 in
          let* (r, action) :=
            if negb (r =? 2) then ret (- EINVAL, action)
            else
              let* p := find_timer timer_name in
              let action := set_timer action (Some p) in
              let* t := timer_load (a_timer action) in
              let* _ := timer_store (a_timer action)
                          (mk_timer (t_name t) (t_start t) (t_end t) (t_now t) delay) in
              ret (r, action) in
          let* t := timer_load (a_timer action) in
          let r := if t_delay t <? SMALL_MSECS then - EINVAL else r in
          ret (r, action)
      | Some ACTION_TIMER_DELAY | Some ACTION_TIMER_CLEAR =>
          let* p := find_timer subinfo in
          ret (0, set_timer action (Some p))
      | _ => ret (- EINVAL, action)
      end
  end.

(** *** make_list *)

(** [!lcdtype && !STRNEQ("delay", type) && !STRNEQ("timer", type)]. *)
Definition skip_pair (type : option string) : M bool :=
  if lcdtype P =? 0 then
    match type with
    | None => oops
    | Some ty => ret (negb (STRNEQ "delay" ty) && negb (STRNEQ "timer" ty))
    end
  else ret false.

(** The action of one pair: [kzalloc], then [action->type = type] and
    [action->subinfo = subinfo]. *)
Definition new_action (type subinfo : option string) : action_info :=
  mk_action type subinfo None 0 0 0 0 None KNull KNull None.

(** How one turn of the [for] loop ends: [continue] or the end of the body,
    with the locals [type], [subinfo] and [ret]; or [break], with [ret]. *)
Inductive turn :=
| Continue (type subinfo : option string) (r : Z)
| Break (r : Z).

(** [if (of_property_count_strings(np, "desc") == count)
    of_property_read_string_index(np, "desc", i, &action->desc);] *)
Definition attach_desc (np : device_node) (count : Z) (i : nat) (action : action_info)
  : M action_info :=
  let* _ := emit (EvCountStrings "desc") in
  if of_property_count_strings (prop_desc np) =? count then
    let* _ := emit (EvReadStringIndex "desc" (Z.of_nat i)) in
    ret (set_desc action
           (of_property_read_string_index (prop_desc np) i (a_desc action)))
  else ret action.

(** The body of the [for (i = 0; i < count; i++)] loop at index [i];
    [type], [subinfo] and [r] are the locals of [make_list]. *)
Definition make_list_turn (np : device_node) (li : nat) (count : Z) (i : nat)
  (type subinfo : option string) (r : Z) : M turn :=
  let* _ := emit (EvReadStringIndex "type" (Z.of_nat i * 2)) in
  let type := of_property_read_string_index (prop_type np) (i * 2) type in
  let* _ := emit (EvReadStringIndex "type" (Z.of_nat i * 2 + 1)) in
  let subinfo := of_property_read_string_index (prop_type np) (i * 2 + 1) subinfo in
  let* skip := skip_pair type in
  if skip then ret (Continue type subinfo r)
  else
    let* _ := emit EvKzallocAction in
    let action := new_action type subinfo in
    let '(r, action) := decide_type action in
    if r <? 0 then ret (Break r)
    else
      let* (r, action) := decide_subinfo action in
      if r <? 0 then ret (Break r)
      else
        let* action := attach_desc np count i action in
        let* _ := list_add_tail li action in
        ret (Continue type subinfo r).

(** The [for] loop, [fuel] turns from index [i] on; the result is [ret]
    when the loop is left. *)
Fixpoint make_list_loop (np : device_node) (li : nat) (count : Z) (fuel i : nat)
  (type subinfo : option string) (r : Z) : M Z :=
  match fuel with
  | O => ret r
  | S fuel' =>
      let* t := make_list_turn np li count i type subinfo r in
      match t with
      | Continue type subinfo r => make_list_loop np li count fuel' (S i) type subinfo r
      | Break r => ret r
      end
  end.

(** The dummy of a build that cannot start. *)
Definition add_dummy (li : nat) : M Z :=
  let* _ := emit EvKzallocAction in
  let* _ := list_add_tail li zero_action in
  ret (- EINVAL).

Definition make_list (li : nat) (name : string) : M Z :=
  let* _ := emit (EvMakeList name) in
  if decon_board_np P then
    let* _ := emit (EvFindNodeByName name) in
    match of_find_node_by_name P name with
    | None => add_dummy li
    | Some np =>
        let* _ := emit (EvCountStrings "type") in
        let count := of_property_count_strings (prop_type np) in
        if (count <? 0) || (count =? 0) || negb (Z.rem count 2 =? 0)
        then add_dummy li
        else
          let count := Z.quot count 2 in
          let* r := make_list_loop np li count (Z.to_nat count) 0 None None 0 in
          if r <? 0 then
            let* _ := emit EvKfreeAction in
            BUG
          else ret r
    end
  else add_dummy li.

(** *** do_list *)

Definition clock : M Z :=
  fun w =>
    Done (to_u64 (local_clock P (trace w)))
         (mk_world (dt_nodes w) (timers w) (EvLocalClock :: trace w)).

Definition msleep (msecs : Z) : M unit := emit (EvMsleep msecs).
Definition mdelay (msecs : Z) : M unit := emit (EvMdelay msecs).
Definition usleep_range (lo hi : Z) : M unit := emit (EvUsleepRange lo hi).

(** [action->timer->end = 0], the body of [case ACTION_TIMER_CLEAR]. *)
Definition timer_clear (action : action_info) : M unit :=
  let* t := timer_load (a_timer action) in
  timer_store (a_timer action)
    (mk_timer (t_name t) (t_start t) 0 (t_now t) (t_delay t)).

(** [case ACTION_TIMER_DELAY], up to where control either leaves the
    switch ([false]) or falls through into [case ACTION_TIMER_CLEAR]
    ([true]). *)
Definition timer_delay (action : action_info) : M bool :=
  let* now := clock in
  let* t := timer_load (a_timer action) in
  let t := mk_timer (t_name t) (t_start t) (t_end t) now (t_delay t) in
  let* _ := timer_store (a_timer action) t in
  if t_end t =? 0 then
    let* _ := msleep (t_delay t) in ret true
  else if t_now t <? t_end t then
    let us_delta :=
      to_u64 (ktime_us_delta (ns_to_ktime (t_end t)) (ns_to_ktime (t_now t))) in
    if (us_delta =? 0) || (UINT_MAX <? us_delta) then ret false
    else if us_delta <? MSEC_TO_USEC SMALL_MSECS then
      let* _ := usleep_range us_delta (to_u64 (us_delta + Z.shiftr us_delta 1)) in
      ret true
    else
      let* _ := msleep (to_u32 (USEC_TO_MSEC us_delta)) in ret true
  else ret true.

(** One turn of the [switch (action->idx)]; [r] is [ret] before it and the
    result is [ret] after it. *)
Definition do_action (r : Z) (action : action_info) : M Z :=
  match kind_of (a_idx action) with
  | Some ACTION_GPIO_HIGH =>
      let* w := get_world in
      let* _ := emit (EvGpioRequestOne (a_gpio action) true) in
      let* _ := emit (EvGpioFree (a_gpio action)) in
      ret (to_s32 (gpio_request_one P (trace w) (a_gpio action) true))
  | Some ACTION_GPIO_LOW =>
      let* w := get_world in
      let* _ := emit (EvGpioRequestOne (a_gpio action) false) in
      let* _ := emit (EvGpioFree (a_gpio action)) in
      ret (to_s32 (gpio_request_one P (trace w) (a_gpio action) false))
  | Some ACTION_REGULATOR_ENABLE =>
      match a_supply action with
      | None => oops
      | Some s =>
          let* w := get_world in
          let* _ := emit (EvRegulatorEnable (consumer s)) in
          ret (to_s32 (regulator_enable P (trace w) (consumer s)))
      end
  | Some ACTION_REGULATOR_DISABLE =>
      match a_supply action with
      | None => oops
      | Some s =>
          let* w := get_world in
          let* _ := emit (EvRegulatorDisable (consumer s)) in
          ret (to_s32 (regulator_disable P (trace w) (consumer s)))
      end
  | Some ACTION_DELAY_MDELAY =>
      let* _ := mdelay (a_delay0 action) in ret r
  | Some ACTION_DELAY_MSLEEP =>
      let* _ := msleep (a_delay0 action) in ret r
  | Some ACTION_DELAY_USLEEP =>
      let* _ := usleep_range (a_delay0 action) (a_delay1 action) in ret r
  | Some ACTION_PINCTRL =>
      let* _ := emit (EvPinctrlSelectState (a_pins action) (a_state action)) in ret r
  | Some ACTION_TIMER_START =>
      let* start := clock in
      let* t := timer_load (a_timer action) in
      let* _ := timer_store (a_timer action)
                  (mk_timer (t_name t) start
                            (to_u64 (start + t_delay t * NSEC_PER_MSEC))
                            (t_now t) (t_delay t)) in
      ret r
  | Some ACTION_TIMER_DELAY =>
      let* fall := timer_delay action in
      if fall then let* _ := timer_clear action in ret r
      else ret r
  | Some ACTION_TIMER_CLEAR =>
      let* _ := timer_clear action in ret r
  | Some ACTION_DUMMY => ret r
  | _ => ret (- EINVAL)
  end.

(** The [list_for_each_entry] of [do_list]. *)
Fixpoint do_list_loop (l : list action_info) (r : Z) : M Z :=
  match l with
  | [] => ret r
  | action :: rest =>
      let* r := do_action r action in
      do_list_loop rest r
  end.

Definition do_list (li : nat) : M Z :=
  let* _ := emit EvDoList in
  let* w := get_world in
  let* r := do_list_loop (list_at li w) 0 in
  if r <? 0 then BUG else ret r.

(** *** find_list and run_list *)

Fixpoint find_list_in (nodes : list dt_node_info) (idx : nat) (name : string)
  : scan_result :=
  match nodes with
  | [] => NotFound
  | dt_node :: rest =>
      if STREQ (n_name dt_node) name then Found idx
      else if (S idx =? 10)%nat then ScanBug    (* BUG_ON(idx == ARRAY_SIZE(dt_nodes)) *)
      else find_list_in rest (S idx) name
  end.

Definition find_list (name : string) : M nat :=
  fun w =>
    match find_list_in (dt_nodes w) 0 name with
    | Found idx => Done idx w
    | NotFound =>
        Done (length (dt_nodes w))
             (mk_world (dt_nodes w ++ [mk_node name []]) (timers w) (trace w))
    | ScanBug => Bug w
    | ScanFault => Oops w
    end.

Definition list_empty (l : list action_info) : bool :=
  match l with [] => true | _ => false end.

Definition run_list (name : string) : M unit :=
  let* lh := find_list name in
  let* w := get_world in
  let* _ :=
    if list_empty (list_at lh w) then
      let* _ := make_list lh name in ret tt
    else ret tt in
  let* _ := do_list lh in
  ret tt.

End Driver.

(** [n] calls of [run_list] for the same name. *)
Fixpoint run_list_n (P : platform) (name : string) (n : nat) : M unit :=
  match n with
  | O => ret tt
  | S n' => let* _ := run_list P name in run_list_n P name n'
  end.

(** [run_list] for each name of a list, in order. *)
Fixpoint run_lists (P : platform) (names : list string) : M unit :=
  match names with
  | [] => ret tt
  | name :: rest => let* _ := run_list P name in run_lists P rest
  end.

(** The world at boot: no sequence, no timer, nothing done. *)
Definition boot : world := mk_world [] [] [].

(** The cached list of a sequence name, when the name is registered. *)
Definition cached_list (name : string) (w : world) : option (list action_info) :=
  match find_list_in (dt_nodes w) 0 name with
  | Found li => Some (list_at li w)
  | _ => None
  end.

(** What a computation added to the log. *)
Definition emits (ok : event -> bool) {A} (m : M A) : Prop :=
  forall w, exists new,
    trace (world_of (m w)) = new ++ trace w /\ forallb ok new = true.

(** A computation that leaves [dt_nodes] alone. *)
Definition keeps_nodes {A} (m : M A) : Prop :=
  forall w, dt_nodes (world_of (m w)) = dt_nodes w.

(** A computation that only appends actions to the list of node [li]. *)
Definition append_to (li : nat) (added : list action_info) (nodes : list dt_node_info)
  : list dt_node_info :=
  alter (fun n => mk_node (n_name n) (n_node n ++ added)) li nodes.

Definition appends_at (Q : action_info -> bool) (li : nat) {A} (m : M A) : Prop :=
  forall w, exists added,
    dt_nodes (world_of (m w)) = append_to li added (dt_nodes w) /\
    forallb Q added = true.

(** A computation whose results, when it returns, satisfy [R]. *)
Definition returns {A} (R : A -> Prop) (m : M A) : Prop :=
  forall w a w', m w = Done a w' -> R a.

Definition is_alloc (e : event) : bool :=
  match e with EvKzallocAction => true | _ => false end.

Definition is_kfree (e : event) : bool :=
  match e with EvKfreeAction => true | _ => false end.

(** What the builder may log after its entry: source reads, resolver calls,
    and the allocation and release of actions. *)
Definition is_build (e : event) : bool :=
  is_source e || is_resolver e || is_alloc e || is_kfree e.

Definition is_timer_or_delay_kind (k : action_kind) : bool :=
  match k with
  | ACTION_DELAY_MDELAY | ACTION_DELAY_MSLEEP | ACTION_DELAY_USLEEP
  | ACTION_TIMER_START | ACTION_TIMER_DELAY | ACTION_TIMER_CLEAR => true
  | _ => false
  end.

(** An action of kind delay or timer, built from a type string that begins
    with ["delay"] or ["timer"]. *)
Definition delay_or_timer (a : action_info) : bool :=
  match kind_of (a_idx a), a_type a with
  | Some k, Some ty =>
      is_timer_or_delay_kind k && (STRNEQ "delay" ty || STRNEQ "timer" ty)
  | _, _ => false
  end.

(** ** Example boards

    The node of the driver's own documentation ([subnode_1] .. [subnode_3],
    with the await spelled ["timer,delay"] as [action_list] has it) and a
    few more sequences, on a board whose resolvers and actuators succeed. *)

Module Board.

Definition sequences : list (string * device_node) :=
  [("subnode_1",
    mk_np (Some ["regulator,enable"; "ldo1";
                 "gpio,high"; "gpio_lcd_en";
                 "delay,usleep"; "10000 11000";
                 "delay,usleep"; "10000";
                 "pinctrl"; "pin_on";
                 "delay,msleep"; "30"]) None);
   ("subnode_2", mk_np (Some ["timer,start"; "loading 300"]) None);
   ("subnode_3", mk_np (Some ["timer,delay"; "loading"]) None);
   ("odd", mk_np (Some ["delay,msleep"; "30"; "gpio,high"]) None);
   ("absent", mk_np None None);
   ("gpio_only", mk_np (Some ["gpio,high"; "gpio_lcd_en"]) None);
   ("bad_second", mk_np (Some ["delay,msleep"; "30"; "bogus"; "x"]) None);
   ("three_integers", mk_np (Some ["delay,usleep"; "100 200 300"]) None);
   ("start_no_delay", mk_np (Some ["timer,start"; "loading"]) None);
   ("start_short", mk_np (Some ["timer,start"; "loading 10"]) None);
   ("start_long", mk_np (Some ["timer,start"; "loading 99999999"]) None);
   ("mixed",
    mk_np (Some ["gpio,high"; "gpio_lcd_en";
                 "delay,msleep"; "30";
                 "pinctrl"; "pin_on";
                 "timer,clear"; "loading"]) None)].

Fixpoint lookup_node (l : list (string * device_node)) (name : string)
  : option device_node :=
  match l with
  | [] => None
  | (n, np) :: rest => if String.eqb n name then Some np else lookup_node rest name
  end.

Definition is_clock (e : event) : bool :=
  match e with EvLocalClock => true | _ => false end.

(** A clock that reads [step] nanoseconds more at each reading, from 0. *)
Definition ticking (step : Z) (tr : list event) : Z :=
  step * Z.of_nat (count_events is_clock tr).

Definition board (lcd : Z) (clk : list event -> Z) : platform :=
  mk_platform lcd 512 true (lookup_node sequences)
    (fun _ => 5) (fun _ => (0, KObj 1)) true (KObj 2) (fun _ _ => KObj 3)
    (fun _ _ _ => 0) (fun _ _ => 0) (fun _ _ => 0) clk.

(** A world with one timer, armed to end at [e], and the await on it. *)
Definition armed (e delay : Z) : world :=
  mk_world [] [mk_timer "loading" 0 e 0 delay] [].

Definition await : action_info :=
  mk_action (Some "timer,delay") (Some "loading") None (idx_of ACTION_TIMER_DELAY)
            0 0 0 None KNull KNull (Some 0%nat).

(** The action [make_list] hands to [decide_type] for a pair. *)
Definition fresh (type subinfo : string) : action_info :=
  new_action (Some type) (Some subinfo).

End Board.

(** ** Definitions used by the statements *)

(** The action [make_list] hands to [decide_subinfo] for a ranged sleep. *)
Definition usleep_action (type subinfo : string) : action_info :=
  set_idx (Board.fresh type subinfo) (idx_of ACTION_DELAY_USLEEP).

(** The action [make_list] hands to [decide_subinfo] for a timer start. *)
Definition timer_start_action (subinfo : string) : action_info :=
  set_idx (Board.fresh "timer,start" subinfo) (idx_of ACTION_TIMER_START).

(** The sleeps of a log, most recent first. *)
Definition sleeps (tr : list event) : list event := List.filter is_sleep tr.

(** The world after an await on timer [p] of [w] that read the clock at
    [now], logged [slept] and left [e] in the timer's [end]. *)
Definition after_await (w : world) (p : nat) (t : timer_info) (now : Z)
  (slept : list event) (e : Z) : world :=
  mk_world (dt_nodes w)
           (<[p := mk_timer (t_name t) (t_start t) e now (t_delay t)]> (timers w))
           (slept ++ EvLocalClock :: trace w).

(** What a computation added to the log of [w], given the world it ended
    in. *)
Definition new_events (w w' : world) : list event :=
  firstn (length (trace w') - length (trace w)) (trace w').

(** The await as the specification words it, for the await [action] run in
    world [w]: the full configured delay as a coarse sleep when the timer's
    end is zero; one sleep, ranged below 20 ms and coarse otherwise, when
    [now] is before the end; no sleep when [now] is at or past the end. *)
Definition await_sleeps_as_specified (P : platform) (w : world) (action : action_info)
  : Prop :=
  forall p t,
    a_timer action = Some p -> timers w !! p = Some t ->
    let now := to_u64 (local_clock P (trace w)) in
    let slept := sleeps (new_events w (world_of (do_action P 0 action w))) in
    (t_end t = 0 -> slept = [EvMsleep (t_delay t)]) /\
    (t_end t <> 0 -> now < t_end t ->
       (t_end t - now < SMALL_MSECS * NSEC_PER_MSEC ->
          exists lo hi, slept = [EvUsleepRange lo hi]) /\
       (SMALL_MSECS * NSEC_PER_MSEC <= t_end t - now ->
          exists ms, slept = [EvMsleep ms])) /\
    (t_end t <> 0 -> t_end t <= now -> slept = []).

(** The await as the specification words its end: whatever the executor
    did, the timer's [end] is zero afterwards. *)
Definition await_clears_as_specified (P : platform) (w : world) (action : action_info)
  : Prop :=
  forall p,
    a_timer action = Some p ->
    exists r w' t',
      do_action P 0 action w = Done r w' /\ timers w' !! p = Some t' /\ t_end t' = 0.

(** Two calls of [run_list] for the same name. *)
Definition run_list_twice (P : platform) (name : string) : M unit :=
  run_list_n P name 2.

(** The sequence cache as the specification words it: over two calls of
    [run_list] for a name from boot, [make_list] is entered at most once. *)
Definition builds_at_most_once (P : platform) (name : string) : Prop :=
  (count_events is_make_list (trace (world_of (run_list_twice P name boot))) <= 1)%nat.

(** A cached list that holds at least one action. *)
Definition built (name : string) (w : world) : bool :=
  match cached_list name w with
  | Some (_ :: _) => true
  | _ => false
  end.

(** A failed build as the specification words it: when [run_list] ends in
    the fatal abort of the builder, no action resolved by that build is left
    in the cached list (the list is empty or holds the placeholder only). *)
Definition failed_build_discards (P : platform) (name : string) (w : world) : Prop :=
  forall w', run_list P name w = Bug w' ->
  forall l, cached_list name w' = Some l -> l = [] \/ l = [zero_action].

(** The number of decimal digits a string begins with. *)
Fixpoint digits_len (s : string) : nat :=
  match s with
  | String c r => if isdigit c then S (digits_len r) else O
  | EmptyString => O
  end.

(** Whether [make_list] reaches its loop for a name: the [decon_board]
    node and the node of the name exist, and the count of ["type"] strings
    is positive and even. *)
Definition build_starts (P : platform) (name : string) : bool :=
  decon_board_np P &&
  match of_find_node_by_name P name with
  | Some np =>
      let count := of_property_count_strings (prop_type np) in
      negb ((count <? 0) || (count =? 0) || negb (Z.rem count 2 =? 0))
  | None => false
  end.

(** ** Further definitions used by the statements *)

(** The names registered in [dt_nodes], in slot order. *)
Definition names (w : world) : list string := List.map n_name (dt_nodes w).

(** The registry fits its array and holds each name once. *)
Definition registry_ok (w : world) : Prop :=
  (length (dt_nodes w) <= 10)%nat /\ List.NoDup (names w).

(** A relation between the world a computation starts in and the world it
    ends in, however it ends. *)
Definition steps (R : world -> world -> Prop) {A} (m : M A) : Prop :=
  forall w, R w (world_of (m w)).

(** Every timer of [tm] is still in [tm'], at the same place and under the
    same name. *)
Definition timers_kept (tm tm' : list timer_info) : Prop :=
  forall p t, tm !! p = Some t -> exists t', tm' !! p = Some t' /\ t_name t' = t_name t.

(** Every registered sequence of [w] is still registered in [w'], in the
    same slot and under the same name, and its list in [w'] is its list in
    [w] with actions added at the tail. *)
Definition registry_grows (w w' : world) : Prop :=
  forall li n, dt_nodes w !! li = Some n ->
    exists added, dt_nodes w' !! li = Some (mk_node (n_name n) (n_node n ++ added)).

(** A registry of [n] sequences of one placeholder each, named [name],
    ["a" ++ name], ["aa" ++ name] and so on. *)
Fixpoint filled (n : nat) (name : string) : list dt_node_info :=
  match n with
  | O => []
  | S n' => mk_node name [zero_action] :: filled n' (String "a" name)
  end.

(** No timer of [w] is freed, moved or renamed on the way to [w']. *)
Definition timers_grow (w w' : world) : Prop := timers_kept (timers w) (timers w').

(** A computation that, however it ends, keeps the timers. *)
Definition grows {A} (m : M A) : Prop := steps timers_grow m.

(** The type string of an action begins with the entry of [action_list]
    for the kind the action has. *)
Definition type_matches (a : action_info) : bool :=
  match a_type a with
  | Some ty =>
      existsb (fun ks => (idx_of (fst ks) =? a_idx a) && STRNEQ (snd ks) ty) action_list
  | None => false
  end.

(** What the executor reads of an action is there: a GPIO number in range,
    a regulator supply named by the subinfo, pin-control handles that are
    not errors, usleep bounds in order and below 20 ms, a timer among the
    first [n] allocated. *)
Definition fields_resolved (P : platform) (n : nat) (a : action_info) : bool :=
  match a_subinfo a, kind_of (a_idx a) with
  | Some su, Some k =>
      negb (String.eqb su EmptyString) &&
      match k with
      | ACTION_GPIO_HIGH | ACTION_GPIO_LOW => gpio_is_valid P (a_gpio a)
      | ACTION_REGULATOR_ENABLE | ACTION_REGULATOR_DISABLE =>
          match a_supply a with
          | Some s => String.eqb (supply s) su
          | None => false
          end
      | ACTION_DELAY_MDELAY | ACTION_DELAY_MSLEEP => true
      | ACTION_DELAY_USLEEP =>
          negb (a_delay0 a =? 0) && negb (a_delay1 a =? 0) &&
          (a_delay0 a <=? a_delay1 a) && (a_delay0 a <? MSEC_TO_USEC SMALL_MSECS)
      | ACTION_PINCTRL => negb (IS_ERR (a_pins a)) && negb (IS_ERR (a_state a))
      | ACTION_TIMER_START | ACTION_TIMER_DELAY | ACTION_TIMER_CLEAR =>
          match a_timer a with
          | Some p => (p <? n)%nat
          | None => false
          end
      | _ => false
      end
  | _, _ => false
  end.

Definition resolved (P : platform) (n : nat) (a : action_info) : bool :=
  type_matches a && fields_resolved P n a.

(** The placeholder of a build that could not start, as the executor and
    the scans see it: no type and kind [ACTION_DUMMY]. *)
Definition placeholder (a : action_info) : bool :=
  match a_type a with
  | None => a_idx a =? idx_of ACTION_DUMMY
  | Some _ => false
  end.

(** A computation that keeps the timers and only appends, to the list of
    node [li], actions that satisfy [Q] for the number of timers it ends
    with. *)
Definition links_at (Q : nat -> action_info -> bool) (li : nat) {A} (m : M A)
  (w : world) : Prop :=
  timers_grow w (world_of (m w)) /\
  exists added,
    dt_nodes (world_of (m w)) = append_to li added (dt_nodes w) /\
    forallb (Q (length (timers (world_of (m w))))) added = true.

Definition links (Q : nat -> action_info -> bool) (li : nat) {A} (m : M A) : Prop :=
  forall w, links_at Q li m w.

(** Every action of every registered list satisfies [Q] for the number of
    timers allocated. *)
Definition all_actions (Q : nat -> action_info -> bool) (w : world) : Prop :=
  forall li n a, dt_nodes w !! li = Some n -> In a (n_node n) ->
    Q (length (timers w)) a = true.

(** *** dump_list *)

(** The five [unsigned int] counters of [dump_list]. *)
Record dump_counts := mk_counts {
  c_gpio : Z;
  c_regulator : Z;
  c_delay : Z;
  c_pinctrl : Z;
  c_timer : Z
}.

(** One turn of the second [list_for_each_entry] of [dump_list]: the
    [switch (action->idx)], which has no [default]. *)
Definition dump_count (c : dump_counts) (action : action_info) : dump_counts :=
  match kind_of (a_idx action) with
  | Some ACTION_GPIO_HIGH | Some ACTION_GPIO_LOW =>
      mk_counts (to_u32 (c_gpio c + 1)) (c_regulator c) (c_delay c) (c_pinctrl c) (c_timer c)
  | Some ACTION_REGULATOR_ENABLE | Some ACTION_REGULATOR_DISABLE =>
      mk_counts (c_gpio c) (to_u32 (c_regulator c + 1)) (c_delay c) (c_pinctrl c) (c_timer c)
  | Some ACTION_DELAY_MDELAY | Some ACTION_DELAY_MSLEEP | Some ACTION_DELAY_USLEEP =>
      mk_counts (c_gpio c) (c_regulator c) (to_u32 (c_delay c + 1)) (c_pinctrl c) (c_timer c)
  | Some ACTION_PINCTRL =>
      mk_counts (c_gpio c) (c_regulator c) (c_delay c) (to_u32 (c_pinctrl c + 1)) (c_timer c)
  | Some ACTION_TIMER_START | Some ACTION_TIMER_DELAY | Some ACTION_TIMER_CLEAR =>
      mk_counts (c_gpio c) (c_regulator c) (c_delay c) (c_pinctrl c) (to_u32 (c_timer c + 1))
  | _ => c
  end.

(** The counters [dump_list] logs for a list.  (The first loop calls
    [print_action], which only logs.) *)
Definition dump_list (l : list action_info) : dump_counts :=
  fold_left dump_count l (mk_counts 0 0 0 0 0).

(** The sum of the five counters. *)
Definition dump_total (c : dump_counts) : Z :=
  c_gpio c + c_regulator c + c_delay c + c_pinctrl c + c_timer c.

(** An action of one of the eleven kinds [dump_list] has a case for. *)
Definition counted (a : action_info) : bool :=
  match kind_of (a_idx a) with
  | Some ACTION_DUMMY | Some ACTION_MAX | None => false
  | Some _ => true
  end.

(** What a list may hold: the placeholder, or a resolved action. *)
Definition linked_ok (P : platform) (n : nat) (a : action_info) : bool :=
  placeholder a || resolved P n a.

(** An outcome that is a fault (a NULL or wild pointer dereferenced). *)
Definition faults {A} (o : outcome A) : bool :=
  match o with Oops _ => true | _ => false end.

(** A computation that never ends in [BUG]. *)
Definition never_bugs {A} (m : M A) : Prop :=
  forall w, match m w with Bug _ => False | _ => True end.

(** The kinds whose case in [do_list] assigns [ret]: the GPIO and the
    regulator requests. *)
Definition is_request (a : action_info) : bool :=
  match kind_of (a_idx a) with
  | Some ACTION_GPIO_HIGH | Some ACTION_GPIO_LOW
  | Some ACTION_REGULATOR_ENABLE | Some ACTION_REGULATOR_DISABLE => true
  | _ => false
  end.

(** The kinds whose case in [do_list] leaves [ret] alone: delays,
    pin-control, timers and the placeholder. *)
Definition passes (a : action_info) : bool :=
  match kind_of (a_idx a) with
  | Some ACTION_DELAY_MDELAY | Some ACTION_DELAY_MSLEEP | Some ACTION_DELAY_USLEEP
  | Some ACTION_PINCTRL
  | Some ACTION_TIMER_START | Some ACTION_TIMER_DELAY | Some ACTION_TIMER_CLEAR
  | Some ACTION_DUMMY => true
  | _ => false
  end.

(** A board on which the request of GPIO 7 fails with [-EBUSY] and every
    other request succeeds, and two actions for it. *)
Definition flaky_board : platform :=
  mk_platform 1 512 true (Board.lookup_node Board.sequences)
    (fun _ => 5) (fun _ => (0, KObj 1)) true (KObj 2) (fun _ _ => KObj 3)
    (fun _ gpio _ => if gpio =? 7 then -16 else 0) (fun _ _ => 0) (fun _ _ => 0)
    (Board.ticking 0).

Definition gpio_high_action (gpio : Z) : action_info :=
  mk_action (Some "gpio,high") (Some "gpio_lcd_en") None (idx_of ACTION_GPIO_HIGH)
            gpio 0 0 None KNull KNull None.

Definition msleep_action (msecs : Z) : action_info :=
  mk_action (Some "delay,msleep") (Some "30") None (idx_of ACTION_DELAY_MSLEEP)
            0 msecs 0 None KNull KNull None.

(** Some action linked to a registered list has a type that begins with
    ["timer"] and a timer that carries [name]. *)
Definition timer_linked (name : string) (w : world) : Prop :=
  exists n a ty p t,
    In n (dt_nodes w) /\ In a (n_node n) /\ a_type a = Some ty /\
    STRNEQ "timer" ty = true /\ a_timer a = Some p /\
    timers w !! p = Some t /\ t_name t = name.

(** What the scan of [find_timer] needs of an action: a type, and for a
    type that begins with ["timer"] a timer among the [n] allocated. *)
Definition scannable (n : nat) (a : action_info) : Prop :=
  exists ty, a_type a = Some ty /\
    (STRNEQ "timer" ty = true -> exists p, a_timer a = Some p /\ (p < n)%nat).

(** *** The declaration of a sequence, read as the builder reads it *)

(** A pair is kept unless no panel is attached and its type begins with
    neither ["delay"] nor ["timer"]. *)
Definition kept (P : platform) (ty : string) : bool :=
  negb ((lcdtype P =? 0) && negb (STRNEQ "delay" ty) && negb (STRNEQ "timer" ty)).

(** What the [i]-th pair of the ["type"] property of [np] declares: the
    type, the subinfo and the description of one action, or nothing when
    the pair is not kept. The description is the [i]-th ["desc"] string
    when ["desc"] holds as many strings as there are pairs. *)
Definition declared_entry (P : platform) (np : device_node) (count : Z) (i : nat)
  : list (option string * option string * option string) :=
  match prop_type np with
  | Some strs =>
      match strs !! (i * 2)%nat, strs !! (i * 2 + 1)%nat with
      | Some t, Some s =>
          if kept P t then
            [(Some t, Some s,
              if of_property_count_strings (prop_desc np) =? count
              then of_property_read_string_index (prop_desc np) i None
              else None)]
          else []
      | _, _ => []
      end
  | None => []
  end.

Definition declared_from (P : platform) (np : device_node) (count : Z) (i n : nat)
  : list (option string * option string * option string) :=
  flat_map (declared_entry P np count) (seq i n).

Definition declared (P : platform) (np : device_node)
  : list (option string * option string * option string) :=
  let count := Z.quot (of_property_count_strings (prop_type np)) 2 in
  declared_from P np count 0 (Z.to_nat count).

(** The strings of an action. *)
Definition text_of (a : action_info) : option string * option string * option string :=
  (a_type a, a_subinfo a, a_desc a).

(** ** The GPIO helpers

    [of_gpio_get_active], [of_gpio_get_value], [of_gpio_set_value] and
    [of_get_gpio_with_name] touch none of the driver's state. Each returns
    its [int] result; the model also gives the calls it makes to the
    device tree and to gpiolib, in program order. *)

Module Helpers.

Inductive call :=
| FindNodeWithProperty (name : string)
| GetNamedGpioFlags (np : nat) (name : string)
| NodePut (np : nat)
| GpioGetValue (gpio : Z)
| GpioRequestOne (gpio : Z) (high : bool)
| GpioFree (gpio : Z).

(** The collaborators of the helpers: [of_find_node_with_property(NULL,
    name)] gives a node or NULL; [of_get_named_gpio_flags(np, name, 0,
    &flags)] gives the number it returns and whether [flags] has
    [OF_GPIO_ACTIVE_LOW]; [gpio_get_value] and [gpio_request_one] give
    their results. *)
Record env := mk_env {
  of_find_node_with_property : string -> option nat;
  of_get_named_gpio_flags : nat -> string -> Z * bool;
  gpio_get_value : Z -> Z;
  gpio_request_one : Z -> bool -> Z
}.

Section Code.

Variable P : platform.
Variable E : env.

Definition of_gpio_get_active (gpioname : string) : Z * list call :=
  match of_find_node_with_property E gpioname with
  | None => (- EINVAL, [FindNodeWithProperty gpioname])
  | Some np =>
      let '(gpio, active_low) := of_get_named_gpio_flags E np gpioname in
      let gpio := to_s32 gpio in
      if negb (gpio_is_valid P gpio) then
        (- EINVAL, [FindNodeWithProperty gpioname; GetNamedGpioFlags np gpioname])
      else
        let active_level := if active_low then 0 else 1 in
        let gpio_level := to_s32 (gpio_get_value E gpio) in
        (if gpio_level =? active_level then 1 else 0,
         [FindNodeWithProperty gpioname; GetNamedGpioFlags np gpioname; NodePut np;
          GpioGetValue gpio])
  end.

Definition of_gpio_get_value (gpioname : string) : Z * list call :=
  match of_find_node_with_property E gpioname with
  | None => (- EINVAL, [FindNodeWithProperty gpioname])
  | Some np =>
      let '(gpio, active_low) := of_get_named_gpio_flags E np gpioname in
      let gpio := to_s32 gpio in
      if negb (gpio_is_valid P gpio) then
        (- EINVAL,
         [FindNodeWithProperty gpioname; GetNamedGpioFlags np gpioname; NodePut np])
      else
        let gpio_level := to_s32 (gpio_get_value E gpio) in
        (gpio_level,
         [FindNodeWithProperty gpioname; GetNamedGpioFlags np gpioname; NodePut np;
          GpioGetValue gpio])
  end.

Definition of_gpio_set_value (gpioname : string) (value : Z) : Z * list call :=
  match of_find_node_with_property E gpioname with
  | None => (- EINVAL, [FindNodeWithProperty gpioname])
  | Some np =>
      let '(gpio, active_low) := of_get_named_gpio_flags E np gpioname in
      let gpio := to_s32 gpio in
      if negb (gpio_is_valid P gpio) then
        (- EINVAL,
         [FindNodeWithProperty gpioname; GetNamedGpioFlags np gpioname; NodePut np])
      else
        let high := negb (value =? 0) in
        (to_s32 (gpio_request_one E gpio high),
         [FindNodeWithProperty gpioname; GetNamedGpioFlags np gpioname; NodePut np;
          GpioRequestOne gpio high; GpioFree gpio])
  end.

Definition of_get_gpio_with_name (gpioname : string) : Z * list call :=
  match of_find_node_with_property E gpioname with
  | None => (- EINVAL, [FindNodeWithProperty gpioname])
  | Some np =>
      let '(gpio, active_low) := of_get_named_gpio_flags E np gpioname in
      let gpio := to_s32 gpio in
      if negb (gpio_is_valid P gpio) then
        (- EINVAL, [FindNodeWithProperty gpioname; GetNamedGpioFlags np gpioname])
      else
        (gpio,
         [FindNodeWithProperty gpioname; GetNamedGpioFlags np gpioname; NodePut np])
  end.

End Code.

(** The line a name resolves to: the node, the number and the active-low
    flag, when the node exists and the number is valid. *)
Definition line (P : platform) (E : env) (gpioname : string) : option (nat * Z * bool) :=
  match of_find_node_with_property E gpioname with
  | None => None
  | Some np =>
      let '(gpio, active_low) := of_get_named_gpio_flags E np gpioname in
      if gpio_is_valid P (to_s32 gpio) then Some (np, to_s32 gpio, active_low) else None
  end.

(** The nodes a helper found and the nodes it put back. *)
Definition nodes_taken (E : env) (calls : list call) : list nat :=
  flat_map (fun c => match c with
                     | FindNodeWithProperty name =>
                         match of_find_node_with_property E name with
                         | Some np => [np]
                         | None => []
                         end
                     | _ => []
                     end) calls.

Definition nodes_put (calls : list call) : list nat :=
  flat_map (fun c => match c with NodePut np => [np] | _ => [] end) calls.

(** The GPIO numbers a helper handed to gpiolib. *)
Definition gpios_used (calls : list call) : list Z :=
  flat_map (fun c => match c with
                     | GpioGetValue gpio | GpioRequestOne gpio _ | GpioFree gpio => [gpio]
                     | _ => []
                     end) calls.

End Helpers.

(** *** GPIO requests in the log *)

Definition is_gpio (e : event) : bool :=
  match e with EvGpioRequestOne _ _ | EvGpioFree _ => true | _ => false end.

(** Reading a log from its most recent event back: every [gpio_free] is
    preceded, with nothing in between, by the [gpio_request_one] of the
    same number, and there is no other request. [pending] is the number of
    a free whose request is still to come. *)
Fixpoint paired (pending : option Z) (tr : list event) : bool :=
  match tr with
  | [] => match pending with None => true | Some _ => false end
  | e :: rest =>
      match pending, e with
      | None, EvGpioFree g => paired (Some g) rest
      | None, EvGpioRequestOne _ _ => false
      | None, _ => paired None rest
      | Some g, EvGpioRequestOne g' _ => (g =? g') && paired None rest
      | Some _, _ => false
      end
  end.

(** A computation that frees at once every GPIO it requests. *)
Definition frees_at_once {A} (m : M A) : Prop :=
  forall w, exists new,
    trace (world_of (m w)) = new ++ trace w /\ paired None new = true.

(** The integer a string of decimal digits writes, after [acc]. *)
Fixpoint number_from (acc : Z) (s : string) : Z :=
  match s with
  | String c r => number_from (acc * 10 + (code c - 48)) r
  | EmptyString => acc
  end.

Definition number (s : string) : Z := number_from 0 s.

Fixpoint all_digits (s : string) : bool :=
  match s with
  | String c r => isdigit c && all_digits r
  | EmptyString => true
  end.

(** A decimal integer written with one to eight digits. *)
Definition numeral (s : string) : bool :=
  all_digits s && (1 <=? String.length s)%nat && (String.length s <=? 8)%nat.

(** The second bound as [decide_subinfo] derives it from the first. *)
Definition derived_hi (lo : Z) : Z :=
  let hi := lo + Z.shiftr lo 1 in if hi =? lo then hi + 1 else hi.

(** The integer a string writes in decimal, with an optional minus sign. *)
Definition integer_of (s : string) : option Z :=
  match s with
  | String "-" r =>
      if all_digits r && negb (String.eqb r EmptyString) then Some (- number r) else None
  | _ =>
      if all_digits s && negb (String.eqb s EmptyString) then Some (number s) else None
  end.

(** A string cut at its first blank. *)
Fixpoint split_blank (s : string) : string * option string :=
  match s with
  | EmptyString => (EmptyString, None)
  | String " " r => (EmptyString, Some r)
  | String c r => let '(a, b) := split_blank r in (String c a, b)
  end.

(** The integers a parameter gives, read as the specification reads it:
    one integer [lo], or [lo] and [hi] separated by one blank. *)
Definition given (sub : string) : option (Z * option Z) :=
  let '(a, b) := split_blank sub in
  match integer_of a, b with
  | Some lo, None => Some (lo, None)
  | Some lo, Some b' =>
      match integer_of b' with
      | Some hi => Some (lo, Some hi)
      | None => None
      end
  | None, _ => None
  end.

(** The ranged sleep as the specification words it: for the integers the
    parameter gives, with [hi] derived when only [lo] is given, the action
    is rejected exactly when [lo] or [hi] is zero, [lo > hi] or
    [lo >= 20000], and an accepted action stores [lo] and [hi]. *)
Definition usleep_as_specified (P : platform) (sub : string) : Prop :=
  forall lo ohi,
    given sub = Some (lo, ohi) ->
    let hi := match ohi with Some h => h | None => derived_hi lo end in
    exists r action',
      decide_subinfo P (usleep_action "delay,usleep" sub) boot = Done (r, action') boot /\
      (r < 0 <-> lo = 0 \/ hi = 0 \/ hi < lo \/ 20000 <= lo) /\
      (0 <= r -> a_delay0 action' = lo /\ a_delay1 action' = hi).

(** The actuator calls of one turn of [do_list] that returns, in program
    order: what [do_action] logs for the action, by its kind.  An await
    reads the clock and sleeps at most once. *)
Definition segment_of (a : action_info) (seg : list event) : Prop :=
  match kind_of (a_idx a) with
  | Some ACTION_GPIO_HIGH =>
      seg = [EvGpioRequestOne (a_gpio a) true; EvGpioFree (a_gpio a)]
  | Some ACTION_GPIO_LOW =>
      seg = [EvGpioRequestOne (a_gpio a) false; EvGpioFree (a_gpio a)]
  | Some ACTION_REGULATOR_ENABLE =>
      exists s, a_supply a = Some s /\ seg = [EvRegulatorEnable (consumer s)]
  | Some ACTION_REGULATOR_DISABLE =>
      exists s, a_supply a = Some s /\ seg = [EvRegulatorDisable (consumer s)]
  | Some ACTION_DELAY_MDELAY => seg = [EvMdelay (a_delay0 a)]
  | Some ACTION_DELAY_MSLEEP => seg = [EvMsleep (a_delay0 a)]
  | Some ACTION_DELAY_USLEEP => seg = [EvUsleepRange (a_delay0 a) (a_delay1 a)]
  | Some ACTION_PINCTRL => seg = [EvPinctrlSelectState (a_pins a) (a_state a)]
  | Some ACTION_TIMER_START => seg = [EvLocalClock]
  | Some ACTION_TIMER_DELAY =>
      seg = [EvLocalClock] \/
      exists e, is_sleep e = true /\ seg = [EvLocalClock; e]
  | Some ACTION_TIMER_CLEAR | Some ACTION_DUMMY | Some ACTION_MAX | None => seg = []
  end.

(** The actuator calls of one walk of [do_list] over the list [l]: the
    calls of each action, once, in the order of the list. *)
Fixpoint executes (l : list action_info) (evs : list event) : Prop :=
  match l with
  | [] => evs = []
  | a :: rest =>
      exists seg evs', segment_of a seg /\ executes rest evs' /\ evs = seg ++ evs'
  end.

(** What a call of [run_list name] that took [w] to [w1] did, with the
    events in program order: it entered [make_list] exactly when the list
    was not built, logging there only what the builder may log, then entered
    [do_list] once, which made the actuator calls of each action of the
    cached list, once, in order, and nothing else. *)
Definition built_when_empty_and_run (name : string) (w w1 : world) : Prop :=
  exists l build evs,
    cached_list name w1 = Some l /\
    executes l evs /\
    forallb is_actuator evs = true /\
    trace w1 = rev evs ++ EvDoList :: rev build ++ trace w /\
    (if built name w then build = []
     else exists new, build = EvMakeList name :: new /\ forallb is_build new = true).

(** * Properties *)

(** ** The monad and the log *)

Section MonadLemmas.

Context {A B : Type}.

Lemma bind_Done (m : M A) (k : A -> M B) w a w' :
  m w = Done a w' -> bind m k w = k a w'.
Proof. unfold bind. intros ->. reflexivity. Qed.

Lemma bind_Bug (m : M A) (k : A -> M B) w w' :
  m w = Bug w' -> bind m k w = Bug w'.
Proof. unfold bind. intros ->. reflexivity. Qed.

Lemma bind_Oops (m : M A) (k : A -> M B) w w' :
  m w = Oops w' -> bind m k w = Oops w'.
Proof. unfold bind. intros ->. reflexivity. Qed.

Lemma emits_ret ok (a : A) : emits ok (ret a).
Proof. intros w. exists []. split; reflexivity. Qed.

Lemma emits_BUG ok : emits ok (@BUG A).
Proof. intros w. exists []. split; reflexivity. Qed.

Lemma emits_oops ok : emits ok (@oops A).
Proof. intros w. exists []. split; reflexivity. Qed.

Lemma emits_bind ok (m : M A) (k : A -> M B) :
  emits ok m -> (forall a, emits ok (k a)) -> emits ok (bind m k).
Proof.
  intros Hm Hk w. unfold bind.
  destruct (Hm w) as (n1 & E1 & F1).
  destruct (m w) as [a w'| w' | w']; simpl in E1.
  - destruct (Hk a w') as (n2 & E2 & F2).
    exists (n2 ++ n1). rewrite E2, E1, app_assoc. split; [reflexivity|].
    rewrite forallb_app, F1, F2. reflexivity.
  - exists n1. auto.
  - exists n1. auto.
Qed.

Lemma emits_weaken (ok ok' : event -> bool) (m : M A) :
  (forall e, ok e = true -> ok' e = true) -> emits ok m -> emits ok' m.
Proof.
  intros Hsub Hm w. destruct (Hm w) as (n & E & F).
  exists n. split; [exact E|].
  rewrite forallb_forall in *. auto.
Qed.

Lemma keeps_nodes_ret (a : A) : keeps_nodes (ret a).
Proof. intros w. reflexivity. Qed.

Lemma keeps_nodes_bind (m : M A) (k : A -> M B) :
  keeps_nodes m -> (forall a, keeps_nodes (k a)) -> keeps_nodes (bind m k).
Proof.
  intros Hm Hk w. unfold bind. specialize (Hm w).
  destruct (m w) as [a w'| w' | w']; simpl in Hm; auto.
  rewrite Hk. exact Hm.
Qed.

End MonadLemmas.

Lemma emits_emit ok e : ok e = true -> emits ok (emit e).
Proof. intros H w. exists [e]. simpl. rewrite H. auto. Qed.

Lemma emits_get_world ok : emits ok get_world.
Proof. intros w. exists []. auto. Qed.

Lemma emits_timer_load ok p : emits ok (timer_load p).
Proof.
  intros w. exists []. unfold timer_load.
  destruct p as [i|]; [destruct (timers w !! i)|]; auto.
Qed.

Lemma emits_timer_store ok p t : emits ok (timer_store p t).
Proof.
  intros w. exists []. unfold timer_store.
  destruct p as [i|]; [destruct (i <? length (timers w))%nat|]; auto.
Qed.

Lemma emits_list_add_tail ok li a : emits ok (list_add_tail li a).
Proof. intros w. exists []. auto. Qed.

Lemma emits_find_timer ok name : emits ok (find_timer name).
Proof.
  intros w. exists []. unfold find_timer.
  destruct (find_timer_in_nodes _ _ _ _); auto.
Qed.

Lemma emits_clock P ok : ok EvLocalClock = true -> emits ok (clock P).
Proof. intros H w. exists [EvLocalClock]. simpl. rewrite H. auto. Qed.

Lemma count_events_app f (l1 l2 : list event) :
  count_events f (l1 ++ l2) = (count_events f l1 + count_events f l2)%nat.
Proof. unfold count_events. rewrite List.filter_app, List.length_app. reflexivity. Qed.

Lemma count_events_none f ok (new : list event) :
  (forall e, ok e = true -> f e = false) ->
  forallb ok new = true -> count_events f new = 0%nat.
Proof.
  intros Hd. unfold count_events. induction new as [|e new IH]; simpl; [reflexivity|].
  intros H. apply andb_prop in H as [He Hn].
  rewrite (Hd e He). auto.
Qed.

(** A computation whose events all lie outside [f] leaves the count of [f]
    events as it was. *)
Lemma emits_count {A} ok f (m : M A) w :
  emits ok m -> (forall e, ok e = true -> f e = false) ->
  count_events f (trace (world_of (m w))) = count_events f (trace w).
Proof.
  intros Hm Hd. destruct (Hm w) as (n & E & F).
  rewrite E, count_events_app, (count_events_none f ok n Hd F). reflexivity.
Qed.

Lemma keeps_nodes_emit e : keeps_nodes (emit e).
Proof. intros w. reflexivity. Qed.

Lemma keeps_nodes_timer_load p : keeps_nodes (timer_load p).
Proof.
  intros w. unfold timer_load.
  destruct p as [i|]; [destruct (timers w !! i)|]; auto.
Qed.

Lemma keeps_nodes_timer_store p t : keeps_nodes (timer_store p t).
Proof.
  intros w. unfold timer_store.
  destruct p as [i|]; [destruct (i <? length (timers w))%nat|]; auto.
Qed.

Lemma keeps_nodes_clock P : keeps_nodes (clock P).
Proof. intros w. reflexivity. Qed.

Lemma keeps_nodes_get_world : keeps_nodes get_world.
Proof. intros w. reflexivity. Qed.

Lemma keeps_nodes_find_timer name : keeps_nodes (find_timer name).
Proof.
  intros w. unfold find_timer.
  destruct (find_timer_in_nodes _ _ _ _); auto.
Qed.

Create HintDb driver.

#[local] Hint Resolve emits_ret emits_BUG emits_oops emits_emit emits_get_world
  emits_timer_load emits_timer_store emits_list_add_tail emits_find_timer
  emits_clock keeps_nodes_ret keeps_nodes_emit keeps_nodes_timer_load
  keeps_nodes_timer_store keeps_nodes_clock keeps_nodes_get_world
  keeps_nodes_find_timer : driver.

(** Walks a computation built from [bind], [if] and [match]. *)
Ltac walk :=
  repeat first
    [ apply emits_bind; [|intros ?]
    | apply keeps_nodes_bind; [|intros ?]
    | solve [auto with driver]
    | match goal with
      | |- context [match ?x with _ => _ end] => destruct x
      end ].

(** ** The executor on the placeholder *)

Lemma kind_of_idx_of k : kind_of (idx_of k) = Some k.
Proof. destruct k; reflexivity. Qed.

Lemma kind_of_Some idx k : kind_of idx = Some k -> idx = idx_of k.
Proof.
  unfold kind_of. intros H. apply find_some in H as [_ H].
  apply Z.eqb_eq in H. auto.
Qed.

Lemma kind_of_out_of_range idx : idx < 0 \/ 12 < idx -> kind_of idx = None.
Proof.
  intros H. destruct (kind_of idx) as [k|] eqn:E; [|reflexivity].
  apply kind_of_Some in E. destruct k; simpl in E; lia.
Qed.

(** C10. Executing a list that holds only the zeroed placeholder returns 0
    with no timer touched and nothing logged but the entry of [do_list]:
    the placeholder's kind is [ACTION_DUMMY], which leaves [ret] as it is,
    while an action whose kind is not an enumerator below [ACTION_MAX]
    takes the default branch and sets [ret] to [-EINVAL], on which a list
    that holds only that action ends [do_list] in [BUG()]. *)
Theorem C10_placeholder_is_inert (P : platform) (w w' : world) (li li' : nat)
  (unknown : action_info) (r : Z) :
  list_at li w = [zero_action] ->
  a_idx unknown < 0 \/ 12 <= a_idx unknown ->
  list_at li' w' = [unknown] ->
  kind_of (a_idx zero_action) = Some ACTION_DUMMY /\
  do_action P r zero_action w = Done r w /\
  do_list P li w
    = Done 0 (mk_world (dt_nodes w) (timers w) (EvDoList :: trace w)) /\
  count_events is_actuator (trace (world_of (do_list P li w)))
    = count_events is_actuator (trace w) /\
  do_action P r unknown w = Done (- EINVAL) w /\
  do_list P li' w'
    = Bug (mk_world (dt_nodes w') (timers w') (EvDoList :: trace w')).
Proof.
  intros Hl Hu Hl'.
  assert (Hk : kind_of (a_idx unknown) = None \/ kind_of (a_idx unknown) = Some ACTION_MAX).
  { destruct (Z.eq_dec (a_idx unknown) 12) as [->|Hne]; [right; reflexivity|].
    left. apply kind_of_out_of_range. lia. }
  assert (Hd : forall r0 w0, do_action P r0 unknown w0 = Done (- EINVAL) w0).
  { intros r0 w0. unfold do_action. destruct Hk as [-> | ->]; reflexivity. }
  assert (Hrun : do_list P li w
    = Done 0 (mk_world (dt_nodes w) (timers w) (EvDoList :: trace w))).
  { unfold do_list, bind, emit, get_world, list_at in *. simpl.
    destruct (dt_nodes w !! li) as [n|]; [|discriminate].
    rewrite Hl. reflexivity. }
  split; [reflexivity|]. split; [reflexivity|].
  split; [exact Hrun|]. split; [rewrite Hrun; reflexivity|].
  split; [apply Hd|].
  - unfold do_list, bind, emit, get_world, list_at in *. simpl.
    destruct (dt_nodes w' !! li') as [n|]; [|discriminate].
    rewrite Hl'. simpl. unfold bind. rewrite Hd. reflexivity.
Qed.

(** C10 on the placeholder of the sequence [odd], and on an action of kind
    [ACTION_MAX]. *)
Lemma C10_placeholder_is_inert_witness :
  let P := Board.board 1 (Board.ticking 0) in
  let w := mk_world [mk_node "odd" [zero_action]] [] [] in
  let w' := mk_world [mk_node "odd" [set_idx zero_action 12]] [] [] in
  kind_of (a_idx zero_action) = Some ACTION_DUMMY /\
  do_action P 0 zero_action w = Done 0 w /\
  do_list P 0 w
    = Done 0 (mk_world (dt_nodes w) (timers w) (EvDoList :: trace w)) /\
  count_events is_actuator (trace (world_of (do_list P 0 w)))
    = count_events is_actuator (trace w) /\
  do_action P 0 (set_idx zero_action 12) w = Done (- EINVAL) w /\
  do_list P 0 w'
    = Bug (mk_world (dt_nodes w') (timers w') (EvDoList :: trace w')).
Proof.
  intros P w w'.
  apply (C10_placeholder_is_inert P w w' 0 0 (set_idx zero_action 12) 0).
  - reflexivity.
  - right. simpl. lia.
  - reflexivity.
Defined.

(** ** Parameters of the ranged sleep and of the timer start *)

Lemma sscanf_8d_8d_count (buf : string) :
  let '(r, a, b) := sscanf_8d_8d buf in
  (r = 0 /\ a = None /\ b = None) \/
  (r = 1 /\ a <> None /\ b = None) \/
  (r = 2 /\ a <> None /\ b <> None).
Proof.
  unfold sscanf_8d_8d.
  destruct (scan_8d buf) as [[a rest]|]; [|auto].
  destruct (scan_8d (skip_spaces rest)) as [[b rest']|].
  - right. right. repeat split; discriminate.
  - right. left. repeat split; discriminate.
Qed.

(** [sscanf] with two conversions never returns more than 2. *)
Lemma sscanf_8d_8d_at_most_2 (buf : string) : fst (fst (sscanf_8d_8d buf)) <= 2.
Proof.
  pose proof (sscanf_8d_8d_count buf) as H.
  destruct (sscanf_8d_8d buf) as [[r a] b]. simpl. lia.
Qed.

(** Splits on every boolean test of the goal and closes the arithmetic. *)
Ltac bool_facts :=
  repeat match goal with
  | H : (_ || _) = false |- _ => apply orb_false_elim in H as [? ?]
  | H : (_ || _) = true |- _ => apply orb_prop in H
  | H : (_ && _) = true |- _ => apply andb_prop in H as [? ?]
  | H : (_ && _) = false |- _ => apply andb_false_iff in H
  | H : negb _ = true |- _ => apply negb_true_iff in H
  | H : negb _ = false |- _ => apply negb_false_iff in H
  | H : (_ =? _) = true |- _ => apply Z.eqb_eq in H
  | H : (_ =? _) = false |- _ => apply Z.eqb_neq in H
  | H : (_ <? _) = true |- _ => apply Z.ltb_lt in H
  | H : (_ <? _) = false |- _ => apply Z.ltb_ge in H
  | H : (_ <=? _) = true |- _ => apply Z.leb_le in H
  | H : (_ <=? _) = false |- _ => apply Z.leb_gt in H
  end.

Ltac bool_cases :=
  repeat match goal with
  | |- context [if ?b then _ else _] => destruct b eqn:?
  end; simpl; bool_facts; try split; intros; try lia; intuition lia.

Lemma to_u32_range x : 0 <= to_u32 x < 2 ^ 32.
Proof. unfold to_u32. apply Z.mod_pos_bound. lia. Qed.

Lemma to_u64_small x : 0 <= x < 2 ^ 64 -> to_u64 x = x.
Proof. intros H. unfold to_u64. apply Z.mod_small. exact H. Qed.

Lemma to_u32_small x : 0 <= x < 2 ^ 32 -> to_u32 x = x.
Proof. intros H. unfold to_u32. apply Z.mod_small. exact H. Qed.

Lemma to_s64_small x : 0 <= x < 2 ^ 63 -> to_s64 x = x.
Proof.
  intros H. unfold to_s64. rewrite Z.mod_small by lia.
  destruct (x <? 2 ^ 63) eqn:E; [reflexivity|]. apply Z.ltb_ge in E. lia.
Qed.

Lemma to_s32_small x : 0 <= x < 2 ^ 31 -> to_s32 x = x.
Proof.
  intros H. unfold to_s32. rewrite Z.mod_small by lia.
  destruct (x <? 2 ^ 31) eqn:E; [reflexivity|]. apply Z.ltb_ge in E. lia.
Qed.

(** *** What [sscanf] does with the digits *)

Lemma isdigit_cases c :
  isdigit c = true ->
  In c ["0"; "1"; "2"; "3"; "4"; "5"; "6"; "7"; "8"; "9"]%char.
Proof.
  destruct c as [[] [] [] [] [] [] [] []]; vm_compute; intros H;
    try discriminate H; tauto.
Qed.

Lemma digit_val_digit c : isdigit c = true -> exists d, digit_val c = Some d /\ 0 <= d <= 9.
Proof.
  intros H. unfold digit_val. rewrite H. eexists. split; [reflexivity|].
  unfold isdigit in H. apply andb_prop in H as [H1 H2].
  apply Z.leb_le in H1, H2. lia.
Qed.

Lemma digit_val_other c : isdigit c = false ->
  match digit_val c with Some d => 10 <= d | None => True end.
Proof.
  intros H. unfold digit_val. rewrite H.
  destruct (_ && _) eqn:E; [|exact I].
  apply andb_prop in E as [H1 H2]. apply Z.leb_le in H1, H2. lia.
Qed.

Lemma parse_len s : forall res rv ov,
  snd (fst (_parse_integer 10 s res rv ov)) = (rv + digits_len s)%nat.
Proof.
  induction s as [|c s IH]; intros res rv ov; simpl; [lia|].
  destruct (isdigit c) eqn:Hc.
  - destruct (digit_val_digit c Hc) as (d & -> & Hd).
    destruct (10 <=? d) eqn:E; [apply Z.leb_le in E; lia|].
    rewrite IH. lia.
  - pose proof (digit_val_other c Hc) as H.
    destruct (digit_val c) as [d|]; [|simpl; lia].
    destruct (10 <=? d) eqn:E; [simpl; lia|]. apply Z.leb_gt in E. lia.
Qed.

Lemma parse_val s : forall res rv ov j,
  0 <= res < 10 ^ Z.of_nat j -> (j + digits_len s <= 8)%nat ->
  0 <= fst (fst (_parse_integer 10 s res rv ov)) < 10 ^ 8.
Proof.
  induction s as [|c s IH]; intros res rv ov j Hres Hlen; simpl in *.
  - split; [lia|]. eapply Z.lt_le_trans; [apply Hres|]. apply Z.pow_le_mono_r; lia.
  - assert (Hj : 10 ^ Z.of_nat j <= 10 ^ 8) by (apply Z.pow_le_mono_r; destruct (isdigit c); lia).
    destruct (isdigit c) eqn:Hc.
    + destruct (digit_val_digit c Hc) as (d & -> & Hd).
      destruct (10 <=? d) eqn:E; [apply Z.leb_le in E; lia|].
      apply (IH _ _ _ (S j)); [|lia].
      assert (Hp : 10 ^ Z.of_nat (S j) = 10 * 10 ^ Z.of_nat j).
      { rewrite Nat2Z.inj_succ, Z.pow_succ_r by lia. reflexivity. }
      assert (Hj' : 10 ^ Z.of_nat (S j) <= 10 ^ 8) by (apply Z.pow_le_mono_r; lia).
      rewrite to_u64_small by lia. lia.
    + pose proof (digit_val_other c Hc) as H.
      destruct (digit_val c) as [d|]; [|simpl; lia].
      destruct (10 <=? d) eqn:E; [simpl; lia|]. apply Z.leb_gt in E. lia.
Qed.

Lemma isdigit_not_space c : isdigit c = true -> isspace c = false.
Proof.
  unfold isdigit, isspace. intros H. apply andb_prop in H as [H1 H2].
  apply Z.leb_le in H1, H2.
  destruct (9 <=? code c) eqn:E1, (code c <=? 13) eqn:E2, (code c =? 32) eqn:E3,
           (code c =? 160) eqn:E4; simpl; try reflexivity;
    try apply Z.leb_le in E2; try apply Z.eqb_eq in E3; try apply Z.eqb_eq in E4; lia.
Qed.

(** A ["%8d"] conversion at a digit. *)
Lemma scan_8d_digit c s :
  isdigit c = true ->
  scan_8d (String c s) =
    let '(v, n, _) := _parse_integer 10 (String c s) 0 0 false in
    let '(val, len) := width_fixup n 8 (to_s64 v) n in
    Some (to_s32 val, drop_chars len (String c s)).
Proof.
  intros Hc. unfold scan_8d. cbn [skip_spaces]. rewrite (isdigit_not_space c Hc).
  pose proof (isdigit_cases c Hc) as Hin. simpl in Hin.
  repeat (destruct Hin as [<-|Hin];
          [unfold simple_strtol; cbn [first_char]; rewrite Hc;
           destruct (_parse_integer _ _ _ _ _) as [[v n] o]; reflexivity|]).
  destruct Hin.
Qed.

Lemma width_fixup_fits fuel val len :
  (len <= 8)%nat -> width_fixup fuel 8 val len = (val, len).
Proof.
  intros H. destruct fuel; simpl; [reflexivity|].
  destruct (8 <? len)%nat eqn:E; [apply Nat.ltb_lt in E; lia|reflexivity].
Qed.

Lemma width_fixup_cut fuel : forall val len,
  (8 < len)%nat -> (len - 8 <= fuel)%nat -> snd (width_fixup fuel 8 val len) = 8%nat.
Proof.
  induction fuel as [|fuel IH]; intros val len H1 H2; [lia|].
  simpl. destruct (8 <? len)%nat eqn:E; [|apply Nat.ltb_ge in E; lia].
  destruct (Nat.eq_dec len 9%nat) as [->|Hne].
  - simpl. rewrite width_fixup_fits by lia. reflexivity.
  - apply IH; lia.
Qed.

Lemma drop_chars_digit n : forall s,
  (n < digits_len s)%nat ->
  exists d r, drop_chars n s = String d r /\ isdigit d = true.
Proof.
  induction n as [|n IH]; intros s H.
  - destruct s as [|c s]; simpl in H; [lia|].
    destruct (isdigit c) eqn:Hc; [|lia]. exists c, s. auto.
  - destruct s as [|c s]; simpl in H; [lia|].
    destruct (isdigit c) eqn:Hc; [|lia]. simpl. apply IH. lia.
Qed.

Lemma scan_8d_digit_Some c s : isdigit c = true -> scan_8d (String c s) <> None.
Proof.
  intros Hc. rewrite (scan_8d_digit c s Hc).
  destruct (_parse_integer _ _ _ _ _) as [[v n] o].
  destruct (width_fixup _ _ _ _). discriminate.
Qed.

(** When [sscanf] converts one integer only, from a string that begins with
    a digit, that integer has at most 8 digits. *)
Lemma sscanf_8d_8d_single c s a :
  isdigit c = true ->
  sscanf_8d_8d (String c s) = (1, Some a, None) ->
  0 <= a < 10 ^ 8.
Proof.
  intros Hc. unfold sscanf_8d_8d. rewrite (scan_8d_digit c s Hc).
  pose proof (parse_len (String c s) 0 0 false) as Hlen.
  pose proof (parse_val (String c s) 0 0 false 0) as Hval.
  destruct (_parse_integer 10 (String c s) 0 0 false) as [[v n] o].
  simpl fst in *. simpl snd in *.
  destruct (le_lt_dec n 8) as [Hn|Hn].
  - rewrite width_fixup_fits by exact Hn.
    specialize (Hval ltac:(simpl; lia) ltac:(lia)).
    rewrite to_s64_small by lia. rewrite to_s32_small by lia.
    destruct (scan_8d _) as [[b r]|]; intros H; [discriminate|].
    injection H as <-. exact Hval.
  - pose proof (width_fixup_cut n (to_s64 v) n Hn ltac:(lia)) as Hcut.
    destruct (width_fixup n 8 (to_s64 v) n) as [val len]. simpl in Hcut. subst len.
    destruct (drop_chars_digit 8 (String c s) ltac:(lia)) as (d & r & -> & Hd).
    cbn [skip_spaces]. rewrite (isdigit_not_space d Hd).
    pose proof (scan_8d_digit_Some d r Hd) as Hs.
    destruct (scan_8d (String d r)) as [[b r']|]; [discriminate|congruence].
Qed.

Lemma parse_stops t res rv ov :
  digits_len t = 0%nat -> _parse_integer 10 t res rv ov = (res, rv, ov).
Proof.
  destruct t as [|c t]; [reflexivity|]. cbn [digits_len _parse_integer].
  destruct (isdigit c) eqn:Hc; [discriminate|]. intros _.
  pose proof (digit_val_other c Hc) as H.
  destruct (digit_val c) as [d|]; [|reflexivity].
  destruct (10 <=? d) eqn:E; [reflexivity|]. apply Z.leb_gt in E. lia.
Qed.

Lemma number_from_bound s : forall acc j,
  all_digits s = true -> 0 <= acc < 10 ^ Z.of_nat j ->
  0 <= number_from acc s < 10 ^ Z.of_nat (j + String.length s).
Proof.
  induction s as [|c s IH]; intros acc j Hd Hacc; cbn [number_from String.length].
  - rewrite Nat.add_0_r. exact Hacc.
  - cbn [all_digits] in Hd. apply andb_prop in Hd as [Hc Hs].
    replace (j + S (String.length s))%nat with (S j + String.length s)%nat by lia.
    apply IH; [exact Hs|].
    unfold isdigit in Hc. apply andb_prop in Hc as [H1 H2]. apply Z.leb_le in H1, H2.
    rewrite Nat2Z.inj_succ, Z.pow_succ_r by lia. lia.
Qed.

Lemma parse_numeral s t : forall res rv ov j,
  all_digits s = true -> digits_len t = 0%nat ->
  0 <= res < 10 ^ Z.of_nat j -> (j + String.length s <= 8)%nat ->
  _parse_integer 10 (s ++ t) res rv ov = (number_from res s, (rv + String.length s)%nat, ov).
Proof.
  induction s as [|c s IH]; intros res rv ov j Hd Ht Hres Hlen.
  - cbn [append number_from String.length]. rewrite Nat.add_0_r. apply parse_stops. exact Ht.
  - cbn [all_digits] in Hd. apply andb_prop in Hd as [Hc Hs].
    cbn [append _parse_integer number_from String.length] in *.
    unfold digit_val. rewrite Hc.
    pose proof Hc as Hc'. unfold isdigit in Hc'. apply andb_prop in Hc' as [H1 H2].
    apply Z.leb_le in H1, H2.
    assert (E : (10 <=? code c - 48) = false) by (apply Z.leb_gt; lia). rewrite E.
    assert (Hj : 10 ^ Z.of_nat j <= 10 ^ 7) by (apply Z.pow_le_mono_r; lia).
    assert (E60 : (2 ^ 60 <=? res) = false) by (apply Z.leb_gt; lia).
    rewrite E60. cbn [andb].
    rewrite to_u64_small by lia.
    rewrite (IH _ _ _ (S j) Hs Ht); [f_equal; f_equal; lia| |lia].
    rewrite Nat2Z.inj_succ, Z.pow_succ_r by lia. lia.
Qed.

Lemma drop_chars_app s t : drop_chars (String.length s) (s ++ t) = t.
Proof. induction s as [|c s IH]; [destruct t; reflexivity|exact IH]. Qed.

Lemma numeral_parts s :
  numeral s = true ->
  all_digits s = true /\ (1 <= String.length s <= 8)%nat /\
  exists c s', s = String c s' /\ isdigit c = true.
Proof.
  unfold numeral. intros H. apply andb_prop in H as [H H8]. apply andb_prop in H as [Hd H1].
  apply Nat.leb_le in H1, H8. split; [exact Hd|]. split; [lia|].
  destruct s as [|c s']; [simpl in H1; lia|]. exists c, s'. split; [reflexivity|].
  cbn [all_digits] in Hd. apply andb_prop in Hd as [Hc _]. exact Hc.
Qed.

Lemma number_bound s : numeral s = true -> 0 <= number s < 10 ^ 8.
Proof.
  intros H. destruct (numeral_parts s H) as (Hd & Hlen & _).
  pose proof (number_from_bound s 0 0 Hd ltac:(simpl; lia)) as Hb.
  unfold number. split; [lia|]. eapply Z.lt_le_trans; [apply Hb|].
  apply Z.pow_le_mono_r; lia.
Qed.

(** A ["%8d"] conversion at a numeral reads the integer it writes. *)
Lemma scan_8d_numeral s t :
  numeral s = true -> digits_len t = 0%nat ->
  scan_8d (s ++ t) = Some (number s, t).
Proof.
  intros Hn Ht. pose proof (number_bound s Hn) as Hb.
  destruct (numeral_parts s Hn) as (Hd & Hlen & c & s' & -> & Hc).
  change ((String c s' ++ t)%string) with (String c (s' ++ t)).
  rewrite (scan_8d_digit c (s' ++ t) Hc).
  change (String c (s' ++ t)) with ((String c s' ++ t)%string).
  rewrite (parse_numeral (String c s') t 0 0 false 0 Hd Ht ltac:(simpl; lia) ltac:(lia)).
  fold (number (String c s')). cbn [Nat.add].
  rewrite width_fixup_fits by lia.
  rewrite to_s64_small, to_s32_small by lia.
  rewrite drop_chars_app. reflexivity.
Qed.

Lemma append_nil_r s : (s ++ "")%string = s.
Proof. induction s as [|c s IH]; [reflexivity|cbn [append]; rewrite IH; reflexivity]. Qed.

Lemma sscanf_one_numeral s :
  numeral s = true -> sscanf_8d_8d s = (1, Some (number s), None).
Proof.
  intros Hn. unfold sscanf_8d_8d.
  pose proof (scan_8d_numeral s "" Hn eq_refl) as Hs. rewrite append_nil_r in Hs.
  rewrite Hs. reflexivity.
Qed.

Lemma sscanf_two_numerals a b :
  numeral a = true -> numeral b = true ->
  sscanf_8d_8d (a ++ String " " b) = (2, Some (number a), Some (number b)).
Proof.
  intros Ha Hb. unfold sscanf_8d_8d.
  rewrite (scan_8d_numeral a (String " " b) Ha eq_refl).
  destruct (numeral_parts b Hb) as (_ & _ & c & b' & -> & Hc).
  cbn [skip_spaces]. change (isspace " ") with true. cbn iota.
  cbn [skip_spaces]. rewrite (isdigit_not_space c Hc).
  pose proof (scan_8d_numeral _ "" Hb eq_refl) as Hs. rewrite append_nil_r in Hs.
  rewrite Hs. reflexivity.
Qed.

Lemma derived_hi_bound n : 0 <= n < 10 ^ 8 -> n <= derived_hi n < 2 ^ 32 /\ 0 < derived_hi n.
Proof.
  intros H. unfold derived_hi.
  assert (Hhalf : 0 <= Z.shiftr n 1 <= n).
  { rewrite Z.shiftr_div_pow2 by lia. change (2 ^ 1) with 2.
    split; [apply Z.div_pos; lia|apply Z.div_le_upper_bound; lia]. }
  cbv zeta. destruct (n + Z.shiftr n 1 =? n) eqn:E.
  - apply Z.eqb_eq in E. lia.
  - apply Z.eqb_neq in E. lia.
Qed.

Lemma decide_subinfo_usleep P w type c s' :
  decide_subinfo P (usleep_action type (String c s')) w
    = Done (delay_usleep (usleep_action type (String c s')) (String c s')) w.
Proof. reflexivity. Qed.

Lemma half_le n : 0 <= n -> 0 <= Z.shiftr n 1 <= n.
Proof.
  intros H. rewrite Z.shiftr_div_pow2 by lia. change (2 ^ 1) with 2.
  split; [apply Z.div_pos; lia|apply Z.div_le_upper_bound; lia].
Qed.

Lemma verdict_cases (a b r : Z) :
  (if (a =? 0) || (b =? 0) then - EINVAL
   else if b <? a then - EINVAL
   else if 20000 <=? a then - EINVAL else r)
  = if (a =? 0) || (b =? 0) || (b <? a) || (20000 <=? a) then - EINVAL else r.
Proof.
  destruct (a =? 0), (b =? 0), (b <? a), (20000 <=? a); reflexivity.
Qed.

(** The ranged sleep of one numeral. *)
Lemma delay_usleep_one action s :
  numeral s = true ->
  delay_usleep action s
    = (if (number s =? 0) || (20000 <=? number s) then - EINVAL else 1,
       set_delay1 (set_delay0 action (number s)) (derived_hi (number s))).
Proof.
  intros Hn. pose proof (number_bound s Hn) as Hb.
  pose proof (derived_hi_bound _ Hb) as [Hhi Hpos].
  destruct (numeral_parts s Hn) as (_ & _ & c & s' & Hs & Hc).
  unfold delay_usleep. rewrite Hs at 1. cbn [first_char]. rewrite Hc.
  rewrite (sscanf_one_numeral s Hn).
  cbn [store_opt a_delay0 a_delay1 set_delay0 set_delay1].
  change (1 <? 0) with false. change (1 <? 2) with true. cbv iota.
  rewrite (to_u32_small (number s)) by lia.
  pose proof (half_le (number s) (proj1 Hb)) as Hhalf.
  rewrite (to_u32_small (number s + Z.shiftr (number s) 1)) by lia.
  rewrite (Z.eqb_sym (number s) (number s + Z.shiftr (number s) 1)).
  assert (Hd : (if number s + Z.shiftr (number s) 1 =? number s
                then to_u32 (number s + Z.shiftr (number s) 1 + 1)
                else number s + Z.shiftr (number s) 1) = derived_hi (number s)).
  { unfold derived_hi. cbv zeta.
    destruct (number s + Z.shiftr (number s) 1 =? number s); [|reflexivity].
    apply to_u32_small. lia. }
  rewrite Hd.
  cbn [store_opt a_delay0 a_delay1 set_delay0 set_delay1].
  unfold MSEC_TO_USEC, SMALL_MSECS, USEC_PER_MSEC. change (20 * 1000) with 20000.
  rewrite verdict_cases.
  assert (E2 : (derived_hi (number s) =? 0) = false) by (apply Z.eqb_neq; lia).
  assert (E3 : (derived_hi (number s) <? number s) = false) by (apply Z.ltb_ge; lia).
  rewrite E2, E3, !orb_false_r. reflexivity.
Qed.

(** The ranged sleep of two numerals. *)
Lemma delay_usleep_two action a b :
  numeral a = true -> numeral b = true ->
  delay_usleep action (a ++ String " " b)
    = (if (number a =? 0) || (number b =? 0) || (number b <? number a)
          || (20000 <=? number a) then - EINVAL else 2,
       set_delay1 (set_delay0 action (number a)) (number b)).
Proof.
  intros Ha Hb. pose proof (number_bound a Ha) as Ba. pose proof (number_bound b Hb) as Bb.
  destruct (numeral_parts a Ha) as (_ & _ & c & a' & Hs & Hc).
  unfold delay_usleep. rewrite Hs at 1. cbn [append first_char]. rewrite Hc.
  rewrite (sscanf_two_numerals a b Ha Hb).
  cbn [store_opt a_delay0 a_delay1 set_delay0 set_delay1].
  change (2 <? 0) with false. change (2 <? 2) with false. cbv iota.
  rewrite (to_u32_small (number a)) by lia.
  rewrite (to_u32_small (number b)) by lia.
  cbn [store_opt a_delay0 a_delay1 set_delay0 set_delay1].
  unfold MSEC_TO_USEC, SMALL_MSECS, USEC_PER_MSEC. change (20 * 1000) with 20000.
  rewrite verdict_cases. reflexivity.
Qed.

(** The verdict of [decide_subinfo] on a ranged sleep, over the stored
    bounds. *)
Lemma usleep_stored (P : platform) (w : world) (type sub : string) :
  exists r action',
    decide_subinfo P (usleep_action type sub) w = Done (r, action') w /\
    (r < 0 <->
       a_delay0 action' = 0 \/ a_delay1 action' = 0 \/
       a_delay1 action' < a_delay0 action' \/ 20000 <= a_delay0 action') /\
    (fst (fst (sscanf_8d_8d sub)) = 1 ->
     option_map isdigit (first_char sub) = Some true ->
     let lo := a_delay0 action' in
     let hi := lo + Z.shiftr lo 1 in
     0 <= lo < 10 ^ 8 /\
     a_delay1 action' = if hi =? lo then hi + 1 else hi).
Proof.
  destruct sub as [|c sub'].
  { eexists _, _. split; [reflexivity|]. simpl. split; [|discriminate].
    split; [auto|]. intros _. unfold EINVAL. lia. }
  exists (fst (delay_usleep (usleep_action type (String c sub')) (String c sub'))),
         (snd (delay_usleep (usleep_action type (String c sub')) (String c sub'))).
  split; [unfold decide_subinfo; simpl; unfold ret;
          destruct (delay_usleep _ _); reflexivity|].
  unfold delay_usleep. simpl first_char. cbv iota.
  destruct (isdigit c) eqn:Hc.
  2:{ simpl. split; [|intros _ H; rewrite Hc in H; discriminate].
      split; [auto|]. intros _. unfold EINVAL. lia. }
  pose proof (sscanf_8d_8d_count (String c sub')) as Hcount.
  pose proof (sscanf_8d_8d_single c sub') as Hsingle.
  destruct (sscanf_8d_8d (String c sub')) as [[r0 v0] v1].
  simpl a_delay0. simpl a_delay1. unfold store_opt.
  unfold MSEC_TO_USEC, SMALL_MSECS, USEC_PER_MSEC, EINVAL.
  destruct Hcount as [(-> & -> & ->) | [(-> & Ha & ->) | (-> & Ha & Hb)]].
  - simpl. split; [|discriminate]. split; [auto|]. intros _. lia.
  - destruct v0 as [x|]; [|congruence].
    specialize (Hsingle x Hc eq_refl).
    assert (Hhalf : 0 <= Z.shiftr x 1 <= x).
    { rewrite Z.shiftr_div_pow2 by lia. change (2 ^ 1) with 2.
      split; [apply Z.div_pos; lia|apply Z.div_le_upper_bound; lia]. }
    simpl. rewrite (to_u32_small x) by lia.
    rewrite (to_u32_small (x + Z.shiftr x 1)) by lia.
    rewrite (Z.eqb_sym (x + Z.shiftr x 1) x).
    split; [|intros _ _; split; [exact Hsingle|]].
    + destruct (x =? x + Z.shiftr x 1) eqn:E1; simpl;
        [rewrite (to_u32_small (x + Z.shiftr x 1 + 1)) by lia|]; bool_cases.
    + destruct (x =? x + Z.shiftr x 1) eqn:E1; simpl; [|reflexivity].
      apply to_u32_small. lia.
  - destruct v0 as [x|]; [|congruence]. destruct v1 as [y|]; [|congruence].
    simpl. split; [|intros; discriminate]. bool_cases.
Qed.

Lemma decide_subinfo_one P w type s :
  numeral s = true ->
  let lo := number s in
  let hi := derived_hi lo in
  decide_subinfo P (usleep_action type s) w
    = Done (if (lo =? 0) || (hi =? 0) || (hi <? lo) || (20000 <=? lo)
            then - EINVAL else 1,
            set_delay1 (set_delay0 (usleep_action type s) lo) hi) w.
Proof.
  intros Hn lo hi. subst lo hi.
  pose proof (number_bound s Hn) as Hb.
  pose proof (derived_hi_bound _ Hb) as [Hhi Hpos].
  destruct (numeral_parts s Hn) as (_ & _ & c & s' & Hs & _).
  rewrite Hs at 1. rewrite decide_subinfo_usleep. rewrite <- Hs.
  rewrite (delay_usleep_one _ s Hn).
  assert (E2 : (derived_hi (number s) =? 0) = false) by (apply Z.eqb_neq; lia).
  assert (E3 : (derived_hi (number s) <? number s) = false) by (apply Z.ltb_ge; lia).
  rewrite E2, E3, !orb_false_r. reflexivity.
Qed.

Lemma decide_subinfo_two P w type a b :
  numeral a = true -> numeral b = true ->
  let lo := number a in
  let hi := number b in
  decide_subinfo P (usleep_action type (a ++ String " " b)) w
    = Done (if (lo =? 0) || (hi =? 0) || (hi <? lo) || (20000 <=? lo)
            then - EINVAL else 2,
            set_delay1 (set_delay0 (usleep_action type (a ++ String " " b)) lo) hi) w.
Proof.
  intros Ha Hb lo hi. subst lo hi.
  destruct (numeral_parts a Ha) as (_ & _ & c & a' & Hs & _).
  rewrite Hs at 1. cbn [append]. rewrite decide_subinfo_usleep.
  change (String c (a' ++ String " " b)) with (String c a' ++ String " " b)%string.
  rewrite <- Hs.
  rewrite (delay_usleep_two _ a b Ha Hb). reflexivity.
Qed.

(** C5. For every parameter string of a [delay,usleep] action, on the action
    as [make_list] allocates it, [decide_subinfo] returns without touching
    the world, and:
    - it rejects (returns a negative value) exactly when the stored [lo] or
      [hi] is zero, [lo > hi], or [lo >= 20000]; when [sscanf] converts only
      one integer, [lo] is below 10^8 and [hi] is [lo + (lo >> 1)], plus one
      when that equals [lo];
    - a parameter that does not begin with a decimal digit is rejected with
      nothing stored;
    - a parameter that is one decimal integer [lo] of one to eight digits
      stores [lo] and the derived [hi], returns 1, and is rejected exactly
      when [lo == 0], [hi == 0], [lo > hi] or [lo >= 20000];
    - a parameter of two such integers [lo] and [hi] separated by a blank
      stores them unchanged, returns 2, and is rejected exactly when
      [lo == 0], [hi == 0], [lo > hi] or [lo >= 20000];
    - ["10000"] gives lo 10000, hi 15000; ["10000 11000"] is stored as given;
      ["0"] and ["25000"] are rejected;
    - outside these forms the integers written in the parameter are not what
      is tested: ["10000 -5"] is accepted with hi 4294967291, [" 100"] is
      rejected, and ["000000123"] is read as 12 and 3 and rejected. *)
Theorem C5_usleep_parameters (P : platform) (w : world) (type sub : string) :
  (exists r action',
     decide_subinfo P (usleep_action type sub) w = Done (r, action') w /\
     (r < 0 <->
        a_delay0 action' = 0 \/ a_delay1 action' = 0 \/
        a_delay1 action' < a_delay0 action' \/ 20000 <= a_delay0 action') /\
     (fst (fst (sscanf_8d_8d sub)) = 1 ->
      option_map isdigit (first_char sub) = Some true ->
      let lo := a_delay0 action' in
      let hi := lo + Z.shiftr lo 1 in
      0 <= lo < 10 ^ 8 /\
      a_delay1 action' = if hi =? lo then hi + 1 else hi)) /\
  (option_map isdigit (first_char sub) <> Some true ->
   decide_subinfo P (usleep_action type sub) w = Done (- EINVAL, usleep_action type sub) w) /\
  (forall s, numeral s = true ->
     let lo := number s in
     let hi := derived_hi lo in
     decide_subinfo P (usleep_action type s) w
       = Done (if (lo =? 0) || (hi =? 0) || (hi <? lo) || (20000 <=? lo)
               then - EINVAL else 1,
               set_delay1 (set_delay0 (usleep_action type s) lo) hi) w) /\
  (forall a b, numeral a = true -> numeral b = true ->
     let lo := number a in
     let hi := number b in
     decide_subinfo P (usleep_action type (a ++ " " ++ b)) w
       = Done (if (lo =? 0) || (hi =? 0) || (hi <? lo) || (20000 <=? lo)
               then - EINVAL else 2,
               set_delay1 (set_delay0 (usleep_action type (a ++ " " ++ b)) lo) hi) w) /\
  decide_subinfo P (usleep_action type "10000") w
    = Done (1, set_delay1 (set_delay0 (usleep_action type "10000") 10000) 15000) w /\
  decide_subinfo P (usleep_action type "10000 11000") w
    = Done (2, set_delay1 (set_delay0 (usleep_action type "10000 11000") 10000) 11000) w /\
  fst (fst (sscanf_8d_8d "0")) = 1 /\
  (exists a, decide_subinfo P (usleep_action type "0") w = Done (- EINVAL, a) w) /\
  (exists a, decide_subinfo P (usleep_action type "25000") w = Done (- EINVAL, a) w) /\
  decide_subinfo P (usleep_action type "10000 -5") w
    = Done (2, set_delay1 (set_delay0 (usleep_action type "10000 -5") 10000) 4294967291) w /\
  decide_subinfo P (usleep_action type " 100") w
    = Done (- EINVAL, usleep_action type " 100") w /\
  decide_subinfo P (usleep_action type "000000123") w
    = Done (- EINVAL, set_delay1 (set_delay0 (usleep_action type "000000123") 12) 3) w.
Proof.
  split; [apply usleep_stored|].
  split.
  { intros Hd. destruct sub as [|c sub']; [reflexivity|].
    rewrite decide_subinfo_usleep. unfold delay_usleep.
    cbn [first_char option_map] in *.
    destruct (isdigit c); [exfalso; apply Hd; reflexivity|reflexivity]. }
  split; [intros s Hs; apply (decide_subinfo_one P w type s Hs)|].
  split; [intros a b Ha Hb; apply (decide_subinfo_two P w type a b Ha Hb)|].
  split; [reflexivity|]. split; [reflexivity|]. split; [reflexivity|].
  split; [eexists; reflexivity|]. split; [eexists; reflexivity|].
  split; [reflexivity|]. split; reflexivity.
Qed.

(** C5 at the parameter ["10000"], at the numerals ["300"] and
    ["300 200"], and at ["x10"]: one integer gives lo 300, hi 450; two
    integers with [lo > hi] are stored and rejected; a parameter that does
    not begin with a digit is rejected. *)
Lemma C5_usleep_parameters_witness :
  let P := Board.board 1 (Board.ticking 0) in
  (exists r action',
     decide_subinfo P (usleep_action "delay,usleep" "10000") boot = Done (r, action') boot /\
     (r < 0 <->
        a_delay0 action' = 0 \/ a_delay1 action' = 0 \/
        a_delay1 action' < a_delay0 action' \/ 20000 <= a_delay0 action') /\
     let lo := a_delay0 action' in
     let hi := lo + Z.shiftr lo 1 in
     0 <= lo < 10 ^ 8 /\
     a_delay1 action' = if hi =? lo then hi + 1 else hi) /\
  decide_subinfo P (usleep_action "delay,usleep" "300") boot
    = Done (1, set_delay1 (set_delay0 (usleep_action "delay,usleep" "300") 300) 450) boot /\
  decide_subinfo P (usleep_action "delay,usleep" "300 200") boot
    = Done (- EINVAL,
            set_delay1 (set_delay0 (usleep_action "delay,usleep" "300 200") 300) 200) boot /\
  decide_subinfo P (usleep_action "delay,usleep" "x10") boot
    = Done (- EINVAL, usleep_action "delay,usleep" "x10") boot.
Proof.
  intros P.
  destruct (C5_usleep_parameters P boot "delay,usleep" "10000")
    as ((r & a & H1 & H2 & H3) & _ & Hone & Htwo & _).
  destruct (C5_usleep_parameters P boot "delay,usleep" "x10") as (_ & Hnd & _).
  split.
  - exists r, a. split; [exact H1|]. split; [exact H2|]. exact (H3 eq_refl eq_refl).
  - split; [exact (Hone "300" eq_refl)|].
    split; [exact (Htwo "300" "200" eq_refl eq_refl)|].
    apply Hnd. vm_compute. discriminate.
Defined.

(** The specification's wording holds at its own four examples. *)
Example usleep_as_specified_examples :
  let P := Board.board 1 (Board.ticking 0) in
  usleep_as_specified P "10000" /\ usleep_as_specified P "10000 11000" /\
  usleep_as_specified P "0" /\ usleep_as_specified P "25000".
Proof.
  intros P. unfold usleep_as_specified.
  repeat split.
  all: intros lo ohi H; vm_compute in H; injection H as <- <-;
       eexists _, _; (split; [vm_compute; reflexivity|]);
       vm_compute; intuition discriminate.
Qed.

(** C5 as the specification words it fails at ["10000 -5"]: the parameter
    gives lo 10000 and hi -5, so [lo > hi] and the action should be rejected;
    [decide_subinfo] stores hi as the unsigned 4294967291 and returns 2. *)
Lemma C5_negative_hi_is_accepted :
  ~ usleep_as_specified (Board.board 1 (Board.ticking 0)) "10000 -5".
Proof.
  intros H.
  destruct (H 10000 (Some (-5)) eq_refl) as (r & a & Hd & Hiff & _).
  vm_compute in Hd. injection Hd as <- _.
  assert (Hr : 2 < 0) by (apply Hiff; right; right; left; reflexivity).
  discriminate Hr.
Qed.

(** C6. The parameter ["100 200 300"] of a [delay,usleep] action holds three
    integers, and the builder accepts it: [sscanf] with two conversions
    returns 2 (it never returns more), the test [ret > 2] does not fire,
    [decide_subinfo] returns 2 with lo 100 and hi 200, and [run_list] builds
    the sequence and sleeps in that range. *)
Theorem C6_three_integers_accepted (P : platform) (w : world) :
  decide_type (Board.fresh "delay,usleep" "100 200 300")
    = (0, usleep_action "delay,usleep" "100 200 300") /\
  (forall buf, fst (fst (sscanf_8d_8d buf)) <= 2) /\
  decide_subinfo P (usleep_action "delay,usleep" "100 200 300") w
    = Done (2, set_delay1 (set_delay0 (usleep_action "delay,usleep" "100 200 300") 100) 200) w /\
  exists w',
    run_list (Board.board 1 (Board.ticking 0)) "three_integers" boot = Done tt w' /\
    cached_list "three_integers" w'
      = Some [set_delay1 (set_delay0 (usleep_action "delay,usleep" "100 200 300") 100) 200] /\
    sleeps (trace w') = [EvUsleepRange 100 200].
Proof.
  split; [reflexivity|].
  split; [exact sscanf_8d_8d_at_most_2|].
  split; [reflexivity|].
  eexists. split; [vm_compute; reflexivity|].
  split; reflexivity.
Qed.

(** C7. The parameter ["loading"] of a [timer,start] action has no delay
    token: [sscanf] returns 1, [ret] is set to [-EINVAL], and the test
    [action->timer->delay < SMALL_MSECS] then reads through the NULL
    [action->timer]; [decide_subinfo] does not return a failure, it faults,
    and so does [run_list].  The parameter ["loading 10"] parses and is
    rejected with [-EINVAL]. *)
Theorem C7_timer_start_without_delay_faults (P : platform) (w : world) :
  decide_type (Board.fresh "timer,start" "loading")
    = (0, timer_start_action "loading") /\
  sscanf_s_8d "loading" = (1, Some "loading", None) /\
  a_timer (timer_start_action "loading") = None /\
  decide_subinfo P (timer_start_action "loading") w = Oops w /\
  (exists w',
     run_list (Board.board 1 (Board.ticking 0)) "start_no_delay" boot = Oops w') /\
  (exists a w',
     decide_subinfo P (timer_start_action "loading 10") boot = Done (- EINVAL, a) w').
Proof.
  repeat split; try reflexivity.
  - eexists. vm_compute. reflexivity.
  - eexists _, _. vm_compute. reflexivity.
Qed.

(** ** The await *)

(** The microseconds left, for time stamps below 2^63 ns. *)
Lemma us_delta_plain e now :
  0 <= now -> now < e -> e < 2 ^ 63 ->
  to_u64 (ktime_us_delta (ns_to_ktime e) (ns_to_ktime now)) = (e - now) / 1000.
Proof.
  intros H0 H1 H2. unfold ktime_us_delta, ns_to_ktime, NSEC_PER_USEC.
  rewrite (to_s64_small e), (to_s64_small now), (to_s64_small (e - now)) by lia.
  rewrite Z.quot_div_nonneg by lia.
  apply to_u64_small. split; [apply Z.div_pos; lia|].
  apply Z.div_lt_upper_bound; lia.
Qed.

(** What one await does, as the code computes it. *)
Lemma do_action_await (P : platform) (w : world) (action : action_info)
  (p : nat) (t : timer_info) (r : Z) :
  kind_of (a_idx action) = Some ACTION_TIMER_DELAY ->
  a_timer action = Some p ->
  timers w !! p = Some t ->
  let now := to_u64 (local_clock P (trace w)) in
  let us_delta := to_u64 (ktime_us_delta (ns_to_ktime (t_end t)) (ns_to_ktime now)) in
  do_action P r action w =
    if t_end t =? 0 then Done r (after_await w p t now [EvMsleep (t_delay t)] 0)
    else if now <? t_end t then
      if (us_delta =? 0) || (UINT_MAX <? us_delta)
      then Done r (after_await w p t now [] (t_end t))
      else if us_delta <? MSEC_TO_USEC SMALL_MSECS
      then Done r (after_await w p t now
                     [EvUsleepRange us_delta (to_u64 (us_delta + Z.shiftr us_delta 1))] 0)
      else Done r (after_await w p t now [EvMsleep (to_u32 (USEC_TO_MSEC us_delta))] 0)
    else Done r (after_await w p t now [] 0).
Proof.
  intros Hk Hp Ht now us_delta.
  pose proof (lookup_lt_Some _ _ _ Ht) as Hlen.
  assert (Hltb : (p <? length (timers w))%nat = true) by (apply Nat.ltb_lt; exact Hlen).
  assert (Hlen' : forall x, (p <? length (<[p := x]> (timers w)))%nat = true).
  { intros x. rewrite length_insert. exact Hltb. }
  assert (Hclear : forall tr x y,
    bind (timer_clear action) (fun _ => ret r)
         (mk_world (dt_nodes w) (<[p := mk_timer (t_name t) (t_start t) x y (t_delay t)]> (timers w)) tr)
    = Done r (mk_world (dt_nodes w)
                (<[p := mk_timer (t_name t) (t_start t) 0 y (t_delay t)]> (timers w)) tr)).
  { intros tr x y. unfold timer_clear, bind, ret, timer_load, timer_store.
    rewrite Hp. cbn [timers dt_nodes trace].
    rewrite list_lookup_insert_eq by exact Hlen.
    cbn [timers dt_nodes trace t_name t_start t_end t_now t_delay].
    rewrite Hlen', list_insert_insert_eq. reflexivity. }
  unfold do_action. rewrite Hk. unfold after_await.
  unfold bind at 1. unfold timer_delay.
  rewrite Hp. unfold bind at 1. unfold clock at 1. fold now.
  unfold bind at 1. unfold timer_load at 1. cbn [timers]. rewrite Ht.
  unfold bind at 1. unfold timer_store at 1. cbn [timers]. rewrite Hltb.
  cbn [t_end t_now t_delay t_name t_start dt_nodes trace]. fold us_delta.
  destruct (t_end t =? 0) eqn:E0.
  { unfold msleep, emit, bind at 1, ret at 1. cbn [timers dt_nodes trace].
    apply Hclear. }
  destruct (now <? t_end t) eqn:E1.
  2:{ unfold ret at 1. apply Hclear. }
  destruct ((us_delta =? 0) || (UINT_MAX <? us_delta)) eqn:E2.
  { reflexivity. }
  destruct (us_delta <? MSEC_TO_USEC SMALL_MSECS) eqn:E3.
  - unfold usleep_range, emit, bind at 1, ret at 1. cbn [timers dt_nodes trace].
    apply Hclear.
  - unfold msleep, emit, bind at 1, ret at 1. cbn [timers dt_nodes trace].
    apply Hclear.
Qed.

(** C1 (as amended). For every execution of a Timer-await on a live timer,
    with time stamps below 2^63 ns: when the timer's end is zero the
    executor sleeps the configured delay with [msleep]; when [now] is
    strictly before the end and the remainder in whole microseconds
    [us = (end - now) / 1000] lies in 1..UINT_MAX, it sleeps that
    remainder, with [usleep_range(us, us + us / 2)] when [us < 20000] and
    with [msleep(us / 1000)] otherwise; when that remainder is zero or
    above UINT_MAX it does not sleep; and when [now] is at or past the end
    it does not sleep. *)
Theorem C1_await_sleeps (P : platform) (w : world) (action : action_info)
  (p : nat) (t : timer_info) (r : Z) :
  kind_of (a_idx action) = Some ACTION_TIMER_DELAY ->
  a_timer action = Some p ->
  timers w !! p = Some t ->
  0 <= t_end t < 2 ^ 63 ->
  to_u64 (local_clock P (trace w)) < 2 ^ 63 ->
  let now := to_u64 (local_clock P (trace w)) in
  let us := (t_end t - now) / 1000 in
  exists w',
    do_action P r action w = Done r w' /\
    trace w' =
      (if t_end t =? 0 then [EvMsleep (t_delay t)]
       else if now <? t_end t then
         if (us =? 0) || (UINT_MAX <? us) then []
         else if us <? 20000 then [EvUsleepRange us (us + us / 2)]
         else [EvMsleep (us / 1000)]
       else []) ++ EvLocalClock :: trace w.
Proof.
  intros Hk Hp Ht He Hn now us.
  assert (Hnow : 0 <= now) by (apply Z.mod_pos_bound; lia).
  rewrite (do_action_await P w action p t r Hk Hp Ht). fold now.
  destruct (t_end t =? 0) eqn:E0; [eexists; split; reflexivity|].
  destruct (now <? t_end t) eqn:E1; [|eexists; split; reflexivity].
  apply Z.ltb_lt in E1.
  rewrite (us_delta_plain (t_end t) now) by (fold now in Hn; lia). fold us.
  destruct ((us =? 0) || (UINT_MAX <? us)) eqn:E2; [eexists; split; reflexivity|].
  apply orb_false_elim in E2 as [E2 E3].
  apply Z.eqb_neq in E2. apply Z.ltb_ge in E3. unfold UINT_MAX in E3.
  assert (Hus : 0 <= us) by (apply Z.div_pos; lia).
  change (MSEC_TO_USEC SMALL_MSECS) with 20000.
  destruct (us <? 20000) eqn:E4.
  - apply Z.ltb_lt in E4. eexists. split; [reflexivity|]. unfold after_await, trace.
    rewrite Z.shiftr_div_pow2 by lia. change (2 ^ 1) with 2.
    rewrite to_u64_small; [reflexivity|].
    assert (0 <= us / 2 <= us) by (split; [apply Z.div_pos; lia|apply Z.div_le_upper_bound; lia]).
    lia.
  - eexists. split; [reflexivity|]. unfold after_await, trace, USEC_TO_MSEC, USEC_PER_MSEC.
    rewrite to_u32_small; [reflexivity|].
    split; [apply Z.div_pos; lia|]. apply Z.div_lt_upper_bound; lia.
Qed.

(** C1 at a timer armed to end at 300 ms and awaited at 290 ms. *)
Lemma C1_await_sleeps_witness :
  exists w',
    do_action (Board.board 1 (fun _ => 290000000)) 0 Board.await
              (Board.armed 300000000 300) = Done 0 w' /\
    trace w' = [EvUsleepRange 10000 15000; EvLocalClock].
Proof.
  apply (C1_await_sleeps (Board.board 1 (fun _ => 290000000))
           (Board.armed 300000000 300) Board.await 0%nat
           (mk_timer "loading" 0 300000000 0 300) 0).
  - reflexivity.
  - reflexivity.
  - reflexivity.
  - simpl. lia.
  - vm_compute. reflexivity.
Defined.

(** C1 as the specification words it fails 500 ns before the end: [now] is
    strictly before the end, and the executor does not sleep. *)
Lemma C1_no_sleep_below_one_microsecond :
  ~ await_sleeps_as_specified (Board.board 1 (fun _ => 299999500))
      (Board.armed 300000000 300) Board.await.
Proof.
  intros H.
  destruct (H 0%nat (mk_timer "loading" 0 300000000 0 300) eq_refl eq_refl)
    as (_ & H' & _).
  destruct H' as [H' _]; [discriminate|reflexivity|].
  destruct H' as (lo & hi & H'); [reflexivity|].
  vm_compute in H'. discriminate H'.
Qed.

(** C3 (as amended). For every execution of a Timer-await on a live timer,
    with time stamps below 2^63 ns, the executor returns and the timer's
    end is zero afterwards whether it slept the configured delay, slept the
    remainder or found the window elapsed; only when [now] is strictly
    before the end and the remainder in whole microseconds is zero or above
    UINT_MAX does the executor leave the switch before the clear, and the
    end keeps its value. *)
Theorem C3_await_then_clear (P : platform) (w : world) (action : action_info)
  (p : nat) (t : timer_info) (r : Z) :
  kind_of (a_idx action) = Some ACTION_TIMER_DELAY ->
  a_timer action = Some p ->
  timers w !! p = Some t ->
  0 <= t_end t < 2 ^ 63 ->
  to_u64 (local_clock P (trace w)) < 2 ^ 63 ->
  let now := to_u64 (local_clock P (trace w)) in
  let us := (t_end t - now) / 1000 in
  exists w' t',
    do_action P r action w = Done r w' /\
    timers w' !! p = Some t' /\
    t_end t' =
      if (now <? t_end t) && ((us =? 0) || (UINT_MAX <? us)) then t_end t else 0.
Proof.
  intros Hk Hp Ht He Hn now us.
  assert (Hnow : 0 <= now) by (apply Z.mod_pos_bound; lia).
  pose proof (lookup_lt_Some _ _ _ Ht) as Hlen.
  rewrite (do_action_await P w action p t r Hk Hp Ht). fold now.
  destruct (t_end t =? 0) eqn:E0.
  { apply Z.eqb_eq in E0. eexists _, _. split; [reflexivity|].
    unfold after_await, timers. rewrite list_lookup_insert_eq by exact Hlen.
    split; [reflexivity|]. simpl.
    destruct (now <? t_end t) eqn:E1; [apply Z.ltb_lt in E1; lia|reflexivity]. }
  destruct (now <? t_end t) eqn:E1.
  2:{ eexists _, _. split; [reflexivity|].
      unfold after_await, timers. rewrite list_lookup_insert_eq by exact Hlen.
      split; reflexivity. }
  apply Z.ltb_lt in E1.
  rewrite (us_delta_plain (t_end t) now) by (fold now in Hn; lia). fold us.
  rewrite andb_true_l.
  destruct ((us =? 0) || (UINT_MAX <? us)) eqn:E2.
  { eexists _, _. split; [reflexivity|].
    unfold after_await, timers. rewrite list_lookup_insert_eq by exact Hlen.
    split; reflexivity. }
  destruct (us <? MSEC_TO_USEC SMALL_MSECS);
    (eexists _, _; split; [reflexivity|];
     unfold after_await, timers; rewrite list_lookup_insert_eq by exact Hlen;
     split; reflexivity).
Qed.

(** C3 at a timer armed to end at 300 ms and awaited at 290 ms. *)
Lemma C3_await_then_clear_witness :
  exists w' t',
    do_action (Board.board 1 (fun _ => 290000000)) 0 Board.await
              (Board.armed 300000000 300) = Done 0 w' /\
    timers w' !! 0%nat = Some t' /\
    t_end t' = 0.
Proof.
  apply (C3_await_then_clear (Board.board 1 (fun _ => 290000000))
           (Board.armed 300000000 300) Board.await 0%nat
           (mk_timer "loading" 0 300000000 0 300) 0).
  - reflexivity.
  - reflexivity.
  - reflexivity.
  - simpl. lia.
  - vm_compute. reflexivity.
Defined.

(** C3 as the specification words it fails on a timer started for
    99999999 ms and awaited 1000 ns later: more than UINT_MAX microseconds
    remain, the executor leaves the switch before the clear, and the end is
    not zero afterwards. *)
Lemma C3_long_timer_not_cleared :
  ~ await_clears_as_specified (Board.board 1 (Board.ticking 1000))
      (world_of (run_list (Board.board 1 (Board.ticking 1000)) "start_long" boot))
      Board.await.
Proof.
  intros H. destruct (H 0%nat eq_refl) as (r & w' & t' & E & L & Z0).
  vm_compute in E. injection E as _ <-.
  vm_compute in L. injection L as <-.
  vm_compute in Z0. discriminate Z0.
Qed.

(** ** The builder: what it logs and what it links *)

Section Closure.

Context {A B : Type}.

Lemma returns_ret (R : A -> Prop) (a : A) : R a -> returns R (ret a).
Proof. intros H w a' w' E. injection E as <- _. exact H. Qed.

Lemma returns_bind (R : B -> Prop) (m : M A) (k : A -> M B) :
  (forall a, returns R (k a)) -> returns R (bind m k).
Proof.
  intros Hk w b w' E. unfold bind in E.
  destruct (m w) as [a w1| w1 | w1]; try discriminate.
  exact (Hk a w1 b w' E).
Qed.

Lemma returns_bind_strong (R1 : A -> Prop) (R : B -> Prop) (m : M A) (k : A -> M B) :
  returns R1 m -> (forall a, R1 a -> returns R (k a)) -> returns R (bind m k).
Proof.
  intros Hm Hk w b w' E. unfold bind in E.
  destruct (m w) as [a w1| w1 | w1] eqn:Em; try discriminate.
  exact (Hk a (Hm w a w1 Em) w1 b w' E).
Qed.

Lemma returns_oops (R : A -> Prop) : returns R (@oops A).
Proof. intros w a w' E. discriminate E. Qed.

Lemma append_to_nil li nodes : append_to li [] nodes = nodes.
Proof.
  unfold append_to. apply list_alter_id. intros [n l]. simpl.
  rewrite app_nil_r. reflexivity.
Qed.

Lemma append_to_app li l1 l2 nodes :
  append_to li l2 (append_to li l1 nodes) = append_to li (l1 ++ l2) nodes.
Proof.
  unfold append_to. rewrite list_alter_alter_eq.
  apply list_alter_ext; [|reflexivity]. intros [n l] _. simpl.
  rewrite app_assoc. reflexivity.
Qed.

Lemma appends_keeps Q li (m : M A) : keeps_nodes m -> appends_at Q li m.
Proof.
  intros H w. exists []. rewrite append_to_nil. split; [apply H|reflexivity].
Qed.

Lemma appends_bind Q li (m : M A) (k : A -> M B) (R : A -> Prop) :
  appends_at Q li m -> returns R m ->
  (forall a, R a -> appends_at Q li (k a)) -> appends_at Q li (bind m k).
Proof.
  intros Hm Hr Hk w. unfold bind.
  destruct (Hm w) as (l1 & E1 & F1).
  destruct (m w) as [a w'| w' | w'] eqn:E; simpl in E1.
  - destruct (Hk a (Hr w a w' E) w') as (l2 & E2 & F2).
    exists (l1 ++ l2). rewrite E2, E1, append_to_app. split; [reflexivity|].
    rewrite forallb_app, F1, F2. reflexivity.
  - exists l1. auto.
  - exists l1. auto.
Qed.

End Closure.

Lemma returns_any {A} (m : M A) : returns (fun _ => True) m.
Proof. intros w a w' _. exact I. Qed.

Lemma appends_list_add_tail (Q : action_info -> bool) li a :
  Q a = true -> appends_at Q li (list_add_tail li a).
Proof. intros H w. exists [a]. simpl. rewrite H. auto. Qed.

(** *** decide_type *)

Lemma prefix_head a s ty :
  String.prefix (String a s) ty = true -> exists rest, ty = String a rest.
Proof.
  destruct ty as [|b rest]; simpl; [discriminate|].
  destruct (ascii_dec a b) as [->|]; [eauto|discriminate].
Qed.

Lemma match_action_list_cases l ty :
  match_action_list l ty = idx_of ACTION_DUMMY \/
  exists k s, In (k, s) l /\ STRNEQ s ty = true /\ match_action_list l ty = idx_of k.
Proof.
  induction l as [|[k s] l IH]; simpl; [auto|].
  destruct (STRNEQ s ty) eqn:E.
  - right. exists k, s. auto.
  - destruct IH as [IH | (k' & s' & Hin & Hp & IH)]; [auto|].
    right. exists k', s'. auto.
Qed.

Lemma decide_type_keeps action :
  a_type (snd (decide_type action)) = a_type action /\
  a_subinfo (snd (decide_type action)) = a_subinfo action.
Proof.
  unfold decide_type. destruct (a_type action) as [[|c ty]|] eqn:E; auto.
  cbv zeta.
  match goal with |- context [if ?b then _ else _] => destruct b end; auto.
Qed.

(** A type that begins with ["delay"] or ["timer"] resolves, if at all, to
    a delay or timer kind. *)
Lemma decide_type_delay_or_timer action ty :
  a_type action = Some ty ->
  STRNEQ "delay" ty || STRNEQ "timer" ty = true ->
  0 <= fst (decide_type action) ->
  delay_or_timer (snd (decide_type action)) = true.
Proof.
  intros Hty Hpre Hr.
  assert (Hhead : exists rest, ty = String "d" rest \/ ty = String "t" rest).
  { apply orb_prop in Hpre as [H|H]; apply prefix_head in H as [rest ->]; eauto. }
  unfold decide_type in *. rewrite Hty in *.
  destruct ty as [|c ty']; [destruct Hhead as [? [?|?]]; discriminate|].
  assert (Hpin : STRNEQ "pinctrl" (String c ty') = false).
  { destruct Hhead as [rest [H|H]]; injection H as -> _; reflexivity. }
  rewrite Hpin in *.
  destruct (match_action_list_cases action_list (String c ty'))
    as [E | (k & s & Hin & Hp & E)]; rewrite E in *.
  { simpl in Hr. unfold EINVAL in Hr. lia. }
  assert (Hk : is_timer_or_delay_kind k = true).
  { simpl in Hin.
    repeat (destruct Hin as [Hin|Hin];
            [injection Hin as <- <-; try reflexivity;
             apply prefix_head in Hp as [r' Hp];
             destruct Hhead as [rest [H|H]]; rewrite H in Hp; discriminate Hp|]).
    destruct Hin. }
  assert (Hne : (idx_of k =? idx_of ACTION_DUMMY) || (idx_of k =? idx_of ACTION_MAX) = false).
  { destruct k; try reflexivity; discriminate Hk. }
  rewrite Hne. unfold delay_or_timer. simpl.
  rewrite kind_of_idx_of, Hty, Hk, Hpre. reflexivity.
Qed.

(** *** decide_subinfo *)

Lemma delay_usleep_keeps action subinfo :
  a_idx (snd (delay_usleep action subinfo)) = a_idx action /\
  a_type (snd (delay_usleep action subinfo)) = a_type action.
Proof.
  unfold delay_usleep.
  destruct (first_char subinfo) as [c|]; [|auto].
  destruct (isdigit c); [|auto].
  destruct (sscanf_8d_8d subinfo) as [[r v0] v1].
  repeat match goal with
         | |- context [if ?b then _ else _] => destruct b
         end; auto.
Qed.

Lemma decide_subinfo_emits P action : emits is_resolver (decide_subinfo P action).
Proof.
  unfold decide_subinfo.
  destruct (a_subinfo action) as [[|c sub]|]; [auto with driver| |auto with driver].
  destruct (kind_of (a_idx action)) as [[]|]; walk.
Qed.

Lemma decide_subinfo_keeps_nodes P action : keeps_nodes (decide_subinfo P action).
Proof.
  unfold decide_subinfo.
  destruct (a_subinfo action) as [[|c sub]|]; [auto with driver| |auto with driver].
  destruct (kind_of (a_idx action)) as [[]|]; walk.
Qed.

(** [decide_subinfo] fills in the resolved fields and leaves the kind and
    the type string of the action as they are. *)
Lemma decide_subinfo_same_kind P action :
  returns (fun ra => a_idx (snd ra) = a_idx action /\ a_type (snd ra) = a_type action)
          (decide_subinfo P action).
Proof.
  unfold decide_subinfo.
  destruct (a_subinfo action) as [[|c sub]|];
    [apply returns_ret; auto| |apply returns_ret; auto].
  destruct (kind_of (a_idx action)) as [[]|]; try solve [apply returns_ret; auto].
  - apply returns_bind; intros _. apply returns_ret; auto.
  - apply returns_bind; intros _. apply returns_ret; auto.
  - apply returns_bind; intros _.
    destruct (regulator_bulk_get P _). apply returns_ret; auto.
  - apply returns_bind; intros _.
    destruct (regulator_bulk_get P _). apply returns_ret; auto.
  - destruct (first_char _) as [c'|]; [|apply returns_ret; auto].
    destruct (isdigit c'); [|apply returns_ret; auto].
    destruct (kstrtouint _). apply returns_ret; auto.
  - destruct (first_char _) as [c'|]; [|apply returns_ret; auto].
    destruct (isdigit c'); [|apply returns_ret; auto].
    destruct (kstrtouint _). apply returns_ret; auto.
  - apply returns_ret. apply delay_usleep_keeps.
  - apply returns_bind; intros _.
    destruct (of_find_device_by_node P); [|apply returns_ret; auto].
    apply returns_bind; intros _. apply returns_bind; intros _.
    apply returns_ret; auto.
  - destruct (sscanf_s_8d _) as [[r name] d]. cbv zeta.
    apply returns_bind_strong
      with (R1 := fun ra => a_idx (snd ra) = a_idx action /\ a_type (snd ra) = a_type action).
    + destruct (negb (r =? 2)); [apply returns_ret; auto|].
      repeat (apply returns_bind; intros ?). apply returns_ret; auto.
    + intros [r' a'] Ha'. apply returns_bind; intros t. apply returns_ret. exact Ha'.
  - apply returns_bind; intros p. apply returns_ret; auto.
  - apply returns_bind; intros p. apply returns_ret; auto.
Qed.

(** *** make_list with no panel attached *)

Lemma attach_desc_keeps_nodes np count i action :
  keeps_nodes (attach_desc np count i action).
Proof. unfold attach_desc. walk. Qed.

Lemma attach_desc_emits np count i action :
  emits is_source (attach_desc np count i action).
Proof. unfold attach_desc. walk. Qed.

(** The description is the only field [attach_desc] may change. *)
Lemma attach_desc_returns np count i action :
  returns (fun a => a = set_desc action (a_desc a)) (attach_desc np count i action).
Proof.
  unfold attach_desc. apply returns_bind; intros _.
  destruct (_ =? count).
  - apply returns_bind; intros _. apply returns_ret. reflexivity.
  - apply returns_ret. destruct action; reflexivity.
Qed.

Lemma skip_pair_keeps_nodes P type : keeps_nodes (skip_pair P type).
Proof. unfold skip_pair. walk. Qed.

Lemma skip_pair_emits P ok type : emits ok (skip_pair P type).
Proof. unfold skip_pair. walk. Qed.

(** With [lcdtype] zero, a pair that is not skipped has a type that begins
    with ["delay"] or ["timer"]. *)
Lemma skip_pair_false P type :
  lcdtype P = 0 ->
  returns (fun skip => skip = false ->
             exists ty, type = Some ty /\ STRNEQ "delay" ty || STRNEQ "timer" ty = true)
          (skip_pair P type).
Proof.
  intros Hlcd. unfold skip_pair. rewrite Hlcd. simpl.
  destruct type as [ty|]; [|apply returns_oops].
  apply returns_ret. intros H. exists ty. split; [reflexivity|].
  destruct (STRNEQ "delay" ty), (STRNEQ "timer" ty); auto.
Qed.

Lemma delay_or_timer_ext a a' :
  a_idx a' = a_idx a -> a_type a' = a_type a ->
  delay_or_timer a' = delay_or_timer a.
Proof. intros H1 H2. unfold delay_or_timer. rewrite H1, H2. reflexivity. Qed.

Lemma make_list_turn_delay_or_timer P np li count i type subinfo r :
  lcdtype P = 0 ->
  appends_at delay_or_timer li (make_list_turn P np li count i type subinfo r).
Proof.
  intros Hlcd. unfold make_list_turn.
  apply appends_bind with (R := fun _ => True);
    [apply appends_keeps; auto with driver|apply returns_any|intros _ _].
  apply appends_bind with (R := fun _ => True);
    [apply appends_keeps; auto with driver|apply returns_any|intros _ _].
  eapply appends_bind;
    [apply appends_keeps, skip_pair_keeps_nodes|apply (skip_pair_false P _ Hlcd)|].
  intros [|] Hskip; [apply appends_keeps; auto with driver|].
  destruct (Hskip eq_refl) as (ty & Hty & Hpre). clear Hskip.
  apply appends_bind with (R := fun _ => True);
    [apply appends_keeps; auto with driver|apply returns_any|intros _ _].
  set (fresh := new_action _ _).
  pose proof (decide_type_delay_or_timer fresh ty Hty Hpre) as Hdt.
  destruct (decide_type fresh) as [r0 a0]. simpl in Hdt.
  destruct (r0 <? 0) eqn:Er0; [apply appends_keeps; auto with driver|].
  apply Z.ltb_ge in Er0. specialize (Hdt Er0).
  eapply appends_bind;
    [apply appends_keeps, decide_subinfo_keeps_nodes|apply decide_subinfo_same_kind|].
  intros [r1 a1] [Hidx Htype]. simpl in Hidx, Htype.
  destruct (r1 <? 0); [apply appends_keeps; auto with driver|].
  eapply appends_bind;
    [apply appends_keeps, attach_desc_keeps_nodes|apply attach_desc_returns|].
  intros a2 Ha2.
  apply appends_bind with (R := fun _ => True);
    [|apply returns_any|intros _ _; apply appends_keeps; auto with driver].
  apply appends_list_add_tail.
  rewrite <- Hdt, Ha2. apply delay_or_timer_ext; simpl; assumption.
Qed.

Lemma make_list_loop_delay_or_timer P np li count fuel :
  lcdtype P = 0 ->
  forall i type subinfo r,
    appends_at delay_or_timer li (make_list_loop P np li count fuel i type subinfo r).
Proof.
  intros Hlcd. induction fuel as [|fuel IH]; intros i type subinfo r; simpl.
  - apply appends_keeps. auto with driver.
  - apply appends_bind with (R := fun _ => True);
      [apply make_list_turn_delay_or_timer; exact Hlcd|apply returns_any|].
    intros [ty su r'|r'] _; [apply IH|apply appends_keeps; auto with driver].
Qed.

(** A declared count that lets the build start: positive and even. *)
Lemma valid_count_test count :
  0 < count -> Z.even count = true ->
  (count <? 0) || (count =? 0) || negb (Z.rem count 2 =? 0) = false.
Proof.
  intros Hpos Heven.
  assert (Z.rem count 2 = 0).
  { rewrite Z.rem_mod_nonneg by lia. apply Zeven_bool_iff in Heven.
    apply Zeven_ex in Heven as [k ->]. rewrite Z.mul_comm. apply Z_mod_mult. }
  rewrite H. simpl.
  destruct (count <? 0) eqn:E1; [apply Z.ltb_lt in E1; lia|].
  destruct (count =? 0) eqn:E2; [apply Z.eqb_eq in E2; lia|]. reflexivity.
Qed.

(** C9. For every build performed while [lcdtype] is zero: a pair whose
    type does not begin with ["delay"] or ["timer"] is skipped (the turn of
    the loop reads the two strings and does nothing else: no allocation, no
    resolver call, no action linked); and whatever way the build ends, the
    actions it linked to the list are all of kind delay or timer, built
    from a type that begins with ["delay"] or ["timer"].  (When the
    declaration does not let the build start, the build links the
    placeholder and nothing else.) *)
Theorem C9_no_panel_keeps_delay_and_timer (P : platform) (li : nat) (name : string)
  (np : device_node) (count : Z) (w w0 : world) (i : nat)
  (type subinfo : option string) (ty : string) (r : Z) :
  lcdtype P = 0 ->
  of_property_read_string_index (prop_type np) (i * 2) type = Some ty ->
  STRNEQ "delay" ty = false ->
  STRNEQ "timer" ty = false ->
  make_list_turn P np li count i type subinfo r w0
    = Done (Continue (Some ty)
              (of_property_read_string_index (prop_type np) (i * 2 + 1) subinfo) r)
           (mk_world (dt_nodes w0) (timers w0)
              (EvReadStringIndex "type" (Z.of_nat i * 2 + 1)
               :: EvReadStringIndex "type" (Z.of_nat i * 2) :: trace w0)) /\
  exists added,
    dt_nodes (world_of (make_list P li name w)) = append_to li added (dt_nodes w) /\
    if build_starts P name then forallb delay_or_timer added = true
    else added = [zero_action].
Proof.
  intros Hlcd Hread Hd Ht. split.
  - unfold make_list_turn, bind, emit, skip_pair, ret. simpl.
    rewrite Hread, Hlcd. simpl. rewrite Hd, Ht. reflexivity.
  - unfold build_starts.
    destruct (decon_board_np P) eqn:Hnp.
    2:{ exists [zero_action]. split; [|reflexivity].
        unfold make_list. rewrite Hnp. reflexivity. }
    destruct (of_find_node_by_name P name) as [np'|] eqn:Hfind.
    2:{ exists [zero_action]. split; [|reflexivity].
        unfold make_list. rewrite Hnp, Hfind. reflexivity. }
    cbn [andb].
    destruct ((of_property_count_strings (prop_type np') <? 0)
              || (of_property_count_strings (prop_type np') =? 0)
              || negb (Z.rem (of_property_count_strings (prop_type np')) 2 =? 0)) eqn:Hc.
    { exists [zero_action]. split; [|reflexivity].
      unfold make_list. rewrite Hnp, Hfind.
      unfold bind at 1, emit at 1. unfold bind at 1, emit at 1.
      unfold bind at 1, emit at 1. rewrite Hc. reflexivity. }
    cbn [negb]. revert w.
    change (appends_at delay_or_timer li (make_list P li name)).
    unfold make_list. rewrite Hnp, Hfind, Hc.
    apply appends_bind with (R := fun _ => True);
      [apply appends_keeps; auto with driver|apply returns_any|intros _ _].
    apply appends_bind with (R := fun _ => True);
      [apply appends_keeps; auto with driver|apply returns_any|intros _ _].
    apply appends_bind with (R := fun _ => True);
      [apply appends_keeps; auto with driver|apply returns_any|intros _ _].
    apply appends_bind with (R := fun _ => True);
      [apply make_list_loop_delay_or_timer; exact Hlcd|apply returns_any|intros r' _].
    destruct (r' <? 0); apply appends_keeps; [|auto with driver].
    apply keeps_nodes_bind; [auto with driver|intros _]. intros w'. reflexivity.
Qed.

(** C9 at the sequence [mixed], whose first pair is a GPIO action, on a
    board with no panel. *)
Lemma C9_no_panel_keeps_delay_and_timer_witness :
  let P := Board.board 0 (Board.ticking 0) in
  let w := mk_world [mk_node "mixed" []] [] [] in
  make_list_turn P (mk_np (Some ["gpio,high"; "gpio_lcd_en"; "delay,msleep"; "30";
                                 "pinctrl"; "pin_on"; "timer,clear"; "loading"]) None)
                 0 4 0 None None 0 w
    = Done (Continue (Some "gpio,high") (Some "gpio_lcd_en") 0)
           (mk_world (dt_nodes w) (timers w)
              [EvReadStringIndex "type" 1; EvReadStringIndex "type" 0]) /\
  exists added,
    dt_nodes (world_of (make_list P 0 "mixed" w)) = append_to 0 added (dt_nodes w) /\
    forallb delay_or_timer added = true.
Proof.
  intros P w.
  apply (C9_no_panel_keeps_delay_and_timer P 0 "mixed"
           (mk_np (Some ["gpio,high"; "gpio_lcd_en"; "delay,msleep"; "30";
                         "pinctrl"; "pin_on"; "timer,clear"; "loading"]) None)
           4 w w 0 None None "gpio,high" 0).
  - reflexivity.
  - reflexivity.
  - reflexivity.
  - reflexivity.
Defined.

(** ** The executor: what it logs and what it leaves alone *)

Lemma timer_delay_emits P action : emits is_actuator (timer_delay P action).
Proof. unfold timer_delay, msleep, usleep_range. walk. Qed.

Lemma timer_delay_keeps_nodes P action : keeps_nodes (timer_delay P action).
Proof. unfold timer_delay, msleep, usleep_range. walk. Qed.

Lemma do_action_emits P r action : emits is_actuator (do_action P r action).
Proof.
  unfold do_action, timer_clear, msleep, mdelay, usleep_range.
  destruct (kind_of (a_idx action)) as [[]|]; try solve [walk].
  apply emits_bind; [apply timer_delay_emits|intros [|]; walk].
Qed.

Lemma do_action_keeps_nodes P r action : keeps_nodes (do_action P r action).
Proof.
  unfold do_action, timer_clear, msleep, mdelay, usleep_range.
  destruct (kind_of (a_idx action)) as [[]|]; try solve [walk].
  apply keeps_nodes_bind; [apply timer_delay_keeps_nodes|intros [|]; walk].
Qed.

Lemma do_list_loop_emits P l : forall r, emits is_actuator (do_list_loop P l r).
Proof.
  induction l as [|a l IH]; intros r; simpl; [auto with driver|].
  apply emits_bind; [apply do_action_emits|intros r'; apply IH].
Qed.

Lemma do_list_loop_keeps_nodes P l : forall r, keeps_nodes (do_list_loop P l r).
Proof.
  induction l as [|a l IH]; intros r; simpl; [auto with driver|].
  apply keeps_nodes_bind; [apply do_action_keeps_nodes|intros r'; apply IH].
Qed.

Lemma do_list_keeps_nodes P li : keeps_nodes (do_list P li).
Proof.
  unfold do_list.
  apply keeps_nodes_bind; [auto with driver|intros _].
  apply keeps_nodes_bind; [auto with driver|intros w'].
  apply keeps_nodes_bind; [apply do_list_loop_keeps_nodes|intros r].
  destruct (r <? 0); [intros w; reflexivity|auto with driver].
Qed.

(** [do_list] logs its entry once, then actuator calls only. *)
Lemma do_list_trace P li w :
  exists new,
    trace (world_of (do_list P li w)) = new ++ EvDoList :: trace w /\
    forallb is_actuator new = true.
Proof.
  unfold do_list, bind at 1, emit at 1, bind at 1, get_world at 1.
  set (w1 := mk_world (dt_nodes w) (timers w) (EvDoList :: trace w)).
  assert (H : emits is_actuator
            (bind (do_list_loop P (list_at li w1) 0)
                  (fun r => if r <? 0 then BUG else ret r))).
  { apply emits_bind; [apply do_list_loop_emits|intros r].
    destruct (r <? 0); auto with driver. }
  exact (H w1).
Qed.

(** ** The registry of sequences *)

Lemma find_list_in_snoc nodes name : forall idx,
  find_list_in nodes idx name = NotFound ->
  find_list_in (nodes ++ [mk_node name []]) idx name = Found (idx + length nodes)%nat.
Proof.
  induction nodes as [|n nodes IH]; intros idx H; cbn [find_list_in app length] in *.
  - cbn [n_name]. unfold STREQ. rewrite String.eqb_refl. f_equal. lia.
  - destruct (STREQ (n_name n) name); [discriminate|].
    destruct (S idx =? 10)%nat; [discriminate|].
    rewrite (IH _ H). f_equal. lia.
Qed.

Lemma find_list_in_Found nodes name : forall idx li,
  find_list_in nodes idx name = Found li ->
  (idx <= li)%nat /\ exists n, nodes !! (li - idx)%nat = Some n /\ n_name n = name.
Proof.
  induction nodes as [|n nodes IH]; intros idx li H; cbn [find_list_in] in H;
    [discriminate|].
  destruct (STREQ (n_name n) name) eqn:E.
  - injection H as <-. split; [lia|]. rewrite Nat.sub_diag. exists n.
    split; [reflexivity|]. apply String.eqb_eq. exact E.
  - destruct (S idx =? 10)%nat; [discriminate|].
    destruct (IH _ _ H) as (Hle & n' & Hl & Hn).
    split; [lia|]. exists n'. split; [|exact Hn].
    replace (li - idx)%nat with (S (li - S idx)) by lia. exact Hl.
Qed.

(** Registering a node at the end leaves what was found where it was. *)
Lemma find_list_in_app nodes extra name : forall idx li,
  find_list_in nodes idx name = Found li ->
  find_list_in (nodes ++ extra) idx name = Found li.
Proof.
  induction nodes as [|n nodes IH]; intros idx li H; cbn [find_list_in app] in *;
    [discriminate|].
  destruct (STREQ (n_name n) name); [exact H|].
  destruct (S idx =? 10)%nat; [discriminate|]. apply IH. exact H.
Qed.

(** Appending actions to a list changes no name, hence no search. *)
Lemma find_list_in_append_to li added nodes name : forall idx,
  find_list_in (append_to li added nodes) idx name = find_list_in nodes idx name.
Proof.
  unfold append_to. revert li.
  induction nodes as [|n nodes IH]; intros li idx; [reflexivity|].
  destruct li as [|li]; simpl.
  - reflexivity.
  - rewrite <- (IH li (S idx)). reflexivity.
Qed.

(** ** The builder: its log *)

Lemma resolver_is_build e : is_resolver e = true -> is_build e = true.
Proof. destruct e; simpl; intros H; try discriminate; reflexivity. Qed.

Lemma make_list_turn_emits P np li count i type subinfo r :
  emits is_build (make_list_turn P np li count i type subinfo r).
Proof.
  unfold make_list_turn.
  apply emits_bind; [auto with driver|intros _].
  apply emits_bind; [auto with driver|intros _].
  apply emits_bind; [apply skip_pair_emits|intros [|]]; [auto with driver|].
  apply emits_bind; [auto with driver|intros _].
  destruct (decide_type _) as [r0 a0].
  destruct (r0 <? 0); [auto with driver|].
  apply emits_bind;
    [apply (emits_weaken is_resolver), decide_subinfo_emits; apply resolver_is_build|].
  intros [r1 a1]. destruct (r1 <? 0); walk.
Qed.

Lemma make_list_loop_emits P np li count fuel : forall i type subinfo r,
  emits is_build (make_list_loop P np li count fuel i type subinfo r).
Proof.
  induction fuel as [|fuel IH]; intros i type subinfo r; simpl; [auto with driver|].
  apply emits_bind; [apply make_list_turn_emits|].
  intros [ty su r'|r']; [apply IH|auto with driver].
Qed.

(** [make_list] logs its entry once, then source reads, resolver calls and
    allocations only. *)
Lemma make_list_trace P li name w :
  exists new,
    trace (world_of (make_list P li name w)) = new ++ EvMakeList name :: trace w /\
    forallb is_build new = true.
Proof.
  unfold make_list, bind at 1, emit at 1.
  set (w1 := mk_world (dt_nodes w) (timers w) (EvMakeList name :: trace w)).
  assert (H : emits is_build
    (if decon_board_np P
     then bind (emit (EvFindNodeByName name)) (fun _ =>
            match of_find_node_by_name P name with
            | Some np =>
                bind (emit (EvCountStrings "type")) (fun _ =>
                  if (of_property_count_strings (prop_type np) <? 0)
                     || (of_property_count_strings (prop_type np) =? 0)
                     || negb (Z.rem (of_property_count_strings (prop_type np)) 2 =? 0)
                  then add_dummy li
                  else
                    bind (make_list_loop P np li
                            (Z.quot (of_property_count_strings (prop_type np)) 2)
                            (Z.to_nat (Z.quot (of_property_count_strings (prop_type np)) 2))
                            0 None None 0)
                         (fun r => if r <? 0
                                   then bind (emit EvKfreeAction) (fun _ => BUG)
                                   else ret r))
            | None => add_dummy li
            end)
     else add_dummy li)).
  { unfold add_dummy.
    destruct (decon_board_np P); [|walk].
    apply emits_bind; [auto with driver|intros _].
    destruct (of_find_node_by_name P name) as [np|]; [|walk].
    apply emits_bind; [auto with driver|intros _].
    destruct (_ || _); [walk|].
    apply emits_bind; [apply make_list_loop_emits|intros r].
    destruct (r <? 0); walk. }
  exact (H w1).
Qed.

Ltac walk_appends :=
  repeat first
    [ apply appends_bind with (R := fun _ => True); [|apply returns_any|intros ? _]
    | apply appends_list_add_tail; reflexivity
    | apply appends_keeps;
      solve [ auto with driver
            | apply decide_subinfo_keeps_nodes
            | apply skip_pair_keeps_nodes
            | intros ?; reflexivity ]
    | match goal with
      | |- context [match ?x with _ => _ end] => destruct x
      end ].

(** Whatever the board, [make_list] only appends to the list it is given. *)
Lemma make_list_turn_appends P np li count i type subinfo r :
  appends_at (fun _ => true) li (make_list_turn P np li count i type subinfo r).
Proof. unfold make_list_turn. walk_appends. Qed.

Lemma make_list_loop_appends P np li count fuel : forall i type subinfo r,
  appends_at (fun _ => true) li (make_list_loop P np li count fuel i type subinfo r).
Proof.
  induction fuel as [|fuel IH]; intros i type subinfo r; simpl.
  - apply appends_keeps. auto with driver.
  - apply appends_bind with (R := fun _ => True);
      [apply make_list_turn_appends|apply returns_any|].
    intros [ty su r'|r'] _; [apply IH|apply appends_keeps; auto with driver].
Qed.

Lemma make_list_appends P li name :
  appends_at (fun _ => true) li (make_list P li name).
Proof.
  unfold make_list, add_dummy.
  apply appends_bind with (R := fun _ => True);
    [apply appends_keeps; auto with driver|apply returns_any|intros _ _].
  destruct (decon_board_np P); [|walk_appends].
  apply appends_bind with (R := fun _ => True);
    [apply appends_keeps; auto with driver|apply returns_any|intros _ _].
  destruct (of_find_node_by_name P name) as [np|]; [|walk_appends].
  apply appends_bind with (R := fun _ => True);
    [apply appends_keeps; auto with driver|apply returns_any|intros _ _].
  destruct (_ || _); [walk_appends|].
  apply appends_bind with (R := fun _ => True);
    [apply make_list_loop_appends|apply returns_any|intros r' _].
  destruct (r' <? 0); walk_appends.
Qed.

(** ** run_list *)

(** What [find_list] hands to [run_list]. *)
Lemma find_list_Done name w li w0 :
  find_list name w = Done li w0 ->
  trace w0 = trace w /\ timers w0 = timers w /\
  find_list_in (dt_nodes w0) 0 name = Found li /\
  ((find_list_in (dt_nodes w) 0 name = Found li /\ w0 = w) \/
   (find_list_in (dt_nodes w) 0 name = NotFound /\
    dt_nodes w0 = dt_nodes w ++ [mk_node name []] /\ list_at li w0 = [])).
Proof.
  unfold find_list. intros H.
  destruct (find_list_in (dt_nodes w) 0 name) as [idx| | |] eqn:E; try discriminate.
  - injection H as <- <-. repeat split; auto.
  - injection H as <- <-. cbn [trace timers dt_nodes].
    pose proof (find_list_in_snoc _ _ _ E) as Hs. simpl in Hs.
    repeat split; auto. right. repeat split; auto.
    unfold list_at. cbn [dt_nodes].
    rewrite lookup_app_r by lia. rewrite Nat.sub_diag. reflexivity.
Qed.

Lemma run_list_unfold P name w li w0 :
  find_list name w = Done li w0 ->
  run_list P name w =
    if list_empty (list_at li w0)
    then bind (make_list P li name) (fun _ => bind (do_list P li) (fun _ => ret tt)) w0
    else bind (do_list P li) (fun _ => ret tt) w0.
Proof.
  intros H. unfold run_list. unfold bind at 1. rewrite H.
  unfold bind at 1, get_world at 1. unfold bind at 1.
  destruct (list_empty (list_at li w0)); [|reflexivity].
  unfold bind. destruct (make_list P li name w0); reflexivity.
Qed.

Lemma cached_list_Some name w l :
  cached_list name w = Some l ->
  exists li, find_list_in (dt_nodes w) 0 name = Found li /\ list_at li w = l.
Proof.
  unfold cached_list. destruct (find_list_in _ _ _) as [li| | |]; try discriminate.
  intros H. injection H as <-. eauto.
Qed.

(** On a name whose cached list is not empty, [run_list] is [do_list]. *)
Lemma run_list_cached P name w l :
  cached_list name w = Some l -> l <> [] ->
  exists li,
    find_list_in (dt_nodes w) 0 name = Found li /\ list_at li w = l /\
    run_list P name w = bind (do_list P li) (fun _ => ret tt) w.
Proof.
  intros Hc Hne. destruct (cached_list_Some _ _ _ Hc) as (li & Hf & Hl).
  exists li. repeat split; auto.
  assert (Hfl : find_list name w = Done li w) by (unfold find_list; rewrite Hf; reflexivity).
  rewrite (run_list_unfold P name w li w Hfl), Hl.
  destruct l; [congruence|reflexivity].
Qed.

Lemma world_of_bind_ret {A} (m : M A) w :
  world_of (bind m (fun _ => ret tt) w) = world_of (m w).
Proof. unfold bind. destruct (m w); reflexivity. Qed.

(** A list that is not empty stays as it is when another list is built. *)
Lemma cached_list_append_to name l li' added nodes' w :
  cached_list name w = Some l -> l <> [] ->
  list_at li' w = [] ->
  nodes' = append_to li' added (dt_nodes w) ->
  forall tm tr, cached_list name (mk_world nodes' tm tr) = Some l.
Proof.
  intros Hc Hne Hempty -> tm tr.
  destruct (cached_list_Some _ _ _ Hc) as (li & Hf & Hl).
  unfold cached_list. cbn [dt_nodes]. rewrite find_list_in_append_to, Hf.
  f_equal. unfold list_at in *. cbn [dt_nodes]. unfold append_to.
  rewrite list_lookup_alter_ne; [exact Hl|].
  intros ->. rewrite Hempty in Hl. congruence.
Qed.

Lemma cached_list_nodes name w w' :
  dt_nodes w' = dt_nodes w -> cached_list name w' = cached_list name w.
Proof. intros H. unfold cached_list, list_at. rewrite H. reflexivity. Qed.

(** No call of [run_list], for whatever name and however it ends, changes a
    cached list that is not empty. *)
Lemma run_list_stable P other name w l :
  cached_list name w = Some l -> l <> [] ->
  cached_list name (world_of (run_list P other w)) = Some l.
Proof.
  intros Hc Hne.
  destruct (find_list other w) as [li' w0| w0 | w0] eqn:Hfl.
  2:{ unfold run_list, bind at 1. rewrite Hfl. simpl.
      unfold find_list in Hfl. destruct (find_list_in _ _ _); try discriminate.
      injection Hfl as <-. exact Hc. }
  2:{ unfold run_list, bind at 1. rewrite Hfl. simpl.
      unfold find_list in Hfl. destruct (find_list_in _ _ _); try discriminate.
      injection Hfl as <-. exact Hc. }
  assert (Hc0 : cached_list name w0 = Some l).
  { destruct (find_list_Done _ _ _ _ Hfl) as (_ & _ & _ & [[_ ->] | (_ & Hn & _)]);
      [exact Hc|].
    destruct (cached_list_Some _ _ _ Hc) as (li & Hf & Hl).
    unfold cached_list. rewrite Hn, (find_list_in_app _ _ _ _ _ Hf).
    f_equal. unfold list_at in *. rewrite Hn.
    destruct (dt_nodes w !! li) as [n|] eqn:En; [|congruence].
    rewrite (lookup_app_l_Some _ _ _ _ En). exact Hl. }
  rewrite (run_list_unfold P other w li' w0 Hfl).
  destruct (list_empty (list_at li' w0)) eqn:Hemp.
  - assert (Hempty : list_at li' w0 = []) by (destruct (list_at li' w0); [reflexivity|discriminate]).
    destruct (make_list_appends P li' other w0) as (added & Hadd & _).
    unfold bind at 1.
    destruct (make_list P li' other w0) as [r w1| w1 | w1]; simpl in Hadd.
    + rewrite world_of_bind_ret.
      rewrite (cached_list_nodes name w1 _ (do_list_keeps_nodes P li' w1)).
      destruct w1 as [n1 t1 tr1]. simpl in Hadd.
      exact (cached_list_append_to name l li' added n1 w0 Hc0 Hne Hempty Hadd t1 tr1).
    + destruct w1 as [n1 t1 tr1]. simpl in Hadd.
      exact (cached_list_append_to name l li' added n1 w0 Hc0 Hne Hempty Hadd t1 tr1).
    + destruct w1 as [n1 t1 tr1]. simpl in Hadd.
      exact (cached_list_append_to name l li' added n1 w0 Hc0 Hne Hempty Hadd t1 tr1).
  - rewrite world_of_bind_ret.
    rewrite (cached_list_nodes name w0 _ (do_list_keeps_nodes P li' w0)). exact Hc0.
Qed.

Lemma run_lists_stable P others name l : forall w,
  cached_list name w = Some l -> l <> [] ->
  cached_list name (world_of (run_lists P others w)) = Some l.
Proof.
  induction others as [|other others IH]; intros w Hc Hne; [exact Hc|].
  simpl. unfold bind.
  pose proof (run_list_stable P other name w l Hc Hne) as H.
  destruct (run_list P other w) as [[] w1| w1 | w1]; simpl in H; [|exact H|exact H].
  apply IH; assumption.
Qed.

(** ** A declaration whose count is odd, zero or negative *)

Lemma do_list_dummy P li w :
  list_at li w = [zero_action] ->
  do_list P li w = Done 0 (mk_world (dt_nodes w) (timers w) (EvDoList :: trace w)).
Proof.
  intros Hl. unfold do_list, bind, emit, get_world, list_at in *. simpl.
  destruct (dt_nodes w !! li) as [n|]; [|discriminate].
  rewrite Hl. reflexivity.
Qed.

Lemma invalid_count_test count :
  count < 0 \/ count = 0 \/ Z.odd count = true ->
  (count <? 0) || (count =? 0) || negb (Z.rem count 2 =? 0) = true.
Proof.
  intros [H | [H | H]].
  - apply Z.ltb_lt in H. rewrite H. reflexivity.
  - apply Z.eqb_eq in H. rewrite H. rewrite orb_true_r. reflexivity.
  - destruct (count <? 0) eqn:E; [reflexivity|]. apply Z.ltb_ge in E.
    assert (Hr : Z.rem count 2 = 1).
    { rewrite Z.rem_mod_nonneg by lia. apply Zodd_bool_iff in H.
      apply Zodd_ex in H as [k ->]. rewrite Z.add_comm, Z.mul_comm, Z_mod_plus_full.
      reflexivity. }
    rewrite Hr. apply orb_true_r.
Qed.

(** The build of a node with such a count: one allocation, the dummy
    linked, [-EINVAL] returned. *)
Lemma make_list_invalid_count P li name np w :
  decon_board_np P = true ->
  of_find_node_by_name P name = Some np ->
  (let count := of_property_count_strings (prop_type np) in
   count < 0 \/ count = 0 \/ Z.odd count = true) ->
  make_list P li name w
    = Done (- EINVAL)
        (mk_world (append_to li [zero_action] (dt_nodes w)) (timers w)
           (EvKzallocAction :: EvCountStrings "type" :: EvFindNodeByName name
            :: EvMakeList name :: trace w)).
Proof.
  intros Hnp Hfind Hcount. unfold make_list.
  rewrite Hnp, Hfind. unfold bind at 1, emit at 1.
  unfold bind at 1, emit at 1. unfold bind at 1, emit at 1.
  cbn [trace dt_nodes timers]. rewrite (invalid_count_test _ Hcount).
  reflexivity.
Qed.

Lemma list_at_append_to li added w tm tr n :
  dt_nodes w !! li = Some n ->
  list_at li (mk_world (append_to li added (dt_nodes w)) tm tr) = n_node n ++ added.
Proof.
  intros H. unfold list_at, append_to. cbn [dt_nodes].
  rewrite list_lookup_alter_eq, H. reflexivity.
Qed.

(** The first [run_list] of a name whose node has such a count. *)
Lemma run_list_invalid_count P name np w :
  decon_board_np P = true ->
  of_find_node_by_name P name = Some np ->
  (let count := of_property_count_strings (prop_type np) in
   count < 0 \/ count = 0 \/ Z.odd count = true) ->
  cached_list name w = Some [] \/ find_list_in (dt_nodes w) 0 name = NotFound ->
  exists li w0,
    find_list name w = Done li w0 /\
    list_at li w0 = [] /\
    run_list P name w
      = Done tt (mk_world (append_to li [zero_action] (dt_nodes w0)) (timers w)
                   (EvDoList :: EvKzallocAction :: EvCountStrings "type"
                    :: EvFindNodeByName name :: EvMakeList name :: trace w)) /\
    cached_list name
      (mk_world (append_to li [zero_action] (dt_nodes w0)) (timers w)
         (EvDoList :: EvKzallocAction :: EvCountStrings "type"
          :: EvFindNodeByName name :: EvMakeList name :: trace w))
      = Some [zero_action].
Proof.
  intros Hnp Hfind Hcount Hfresh.
  assert (Hfl : exists li w0, find_list name w = Done li w0 /\ list_at li w0 = []).
  { unfold find_list. destruct Hfresh as [Hc | Hn].
    - destruct (cached_list_Some _ _ _ Hc) as (li & Hf & Hl).
      rewrite Hf. eauto.
    - rewrite Hn. eexists _, _. split; [reflexivity|].
      unfold list_at. cbn [dt_nodes].
      rewrite lookup_app_r by lia. rewrite Nat.sub_diag. reflexivity. }
  destruct Hfl as (li & w0 & Hfl & Hempty).
  destruct (find_list_Done _ _ _ _ Hfl) as (Htr & Htm & Hf0 & _).
  destruct (find_list_in_Found _ _ _ _ Hf0) as (_ & n & Hn & Hname).
  rewrite Nat.sub_0_r in Hn.
  assert (Hnode : n_node n = []).
  { unfold list_at in Hempty. rewrite Hn in Hempty. exact Hempty. }
  exists li, w0. split; [exact Hfl|]. split; [exact Hempty|].
  rewrite <- Htr, <- Htm.
  split.
  - rewrite (run_list_unfold P name w li w0 Hfl), Hempty. cbn [list_empty].
    unfold bind at 1.
    rewrite (make_list_invalid_count P li name np w0 Hnp Hfind Hcount).
    unfold bind at 1. rewrite do_list_dummy; [reflexivity|].
    rewrite (list_at_append_to li [zero_action] w0 _ _ n Hn), Hnode. reflexivity.
  - unfold cached_list. cbn [dt_nodes]. rewrite find_list_in_append_to, Hf0.
    rewrite (list_at_append_to li [zero_action] w0 _ _ n Hn), Hnode. reflexivity.
Qed.

(** C4. For every sequence whose declared string count is odd, zero or
    negative, run for the first time: [find_list] registers the name, the
    build fails ([make_list] returns [-EINVAL]) after a single allocation,
    and [run_list] returns with the one-element zeroed placeholder as the
    cached list; after any further calls of [run_list], for this or other
    names, the placeholder is still the cached list and a call for this
    name only enters [do_list]: no source read, no [make_list], no
    allocation, no resolver or actuator call. *)
Theorem C4_invalid_count_leaves_placeholder (P : platform) (name : string)
  (np : device_node) (w : world) (others : list string) (w2 : world) :
  decon_board_np P = true ->
  of_find_node_by_name P name = Some np ->
  (let count := of_property_count_strings (prop_type np) in
   count < 0 \/ count = 0 \/ Z.odd count = true) ->
  cached_list name w = Some [] \/ find_list_in (dt_nodes w) 0 name = NotFound ->
  run_lists P others (world_of (run_list P name w)) = Done tt w2 ->
  exists li w0 w1,
    find_list name w = Done li w0 /\
    (exists w0', make_list P li name w0 = Done (- EINVAL) w0') /\
    run_list P name w = Done tt w1 /\
    trace w1 = EvDoList :: EvKzallocAction :: EvCountStrings "type"
               :: EvFindNodeByName name :: EvMakeList name :: trace w /\
    cached_list name w1 = Some [zero_action] /\
    cached_list name w2 = Some [zero_action] /\
    run_list P name w2
      = Done tt (mk_world (dt_nodes w2) (timers w2) (EvDoList :: trace w2)).
Proof.
  intros Hnp Hfind Hcount Hfresh Hothers.
  destruct (run_list_invalid_count P name np w Hnp Hfind Hcount Hfresh)
    as (li & w0 & Hfl & Hempty & Hrun & Hc1).
  rewrite Hrun in Hothers. cbn [world_of] in Hothers.
  eexists li, w0, _. split; [exact Hfl|].
  split; [eexists; apply (make_list_invalid_count P li name np w0 Hnp Hfind Hcount)|].
  split; [exact Hrun|]. split; [reflexivity|]. split; [exact Hc1|].
  assert (Hc2 : cached_list name w2 = Some [zero_action]).
  { pose proof (run_lists_stable P others name [zero_action] _ Hc1) as H.
    rewrite Hothers in H. apply H. discriminate. }
  split; [exact Hc2|].
  destruct (run_list_cached P name w2 [zero_action] Hc2) as (li2 & _ & Hl2 & ->);
    [discriminate|].
  unfold bind. rewrite (do_list_dummy P li2 w2 Hl2). reflexivity.
Qed.

(** C4 at the sequence [odd], whose node declares three strings, followed
    by runs of [subnode_1] and of [odd] again. *)
Lemma C4_invalid_count_leaves_placeholder_witness :
  let P := Board.board 1 (Board.ticking 0) in
  exists li w0 w1 w2,
    run_lists P ["subnode_1"; "odd"] (world_of (run_list P "odd" boot)) = Done tt w2 /\
    find_list "odd" boot = Done li w0 /\
    (exists w0', make_list P li "odd" w0 = Done (- EINVAL) w0') /\
    run_list P "odd" boot = Done tt w1 /\
    trace w1 = EvDoList :: EvKzallocAction :: EvCountStrings "type"
               :: EvFindNodeByName "odd" :: EvMakeList "odd" :: trace boot /\
    cached_list "odd" w1 = Some [zero_action] /\
    cached_list "odd" w2 = Some [zero_action] /\
    run_list P "odd" w2
      = Done tt (mk_world (dt_nodes w2) (timers w2) (EvDoList :: trace w2)).
Proof.
  intros P.
  assert (Hothers : exists w2,
    run_lists P ["subnode_1"; "odd"] (world_of (run_list P "odd" boot)) = Done tt w2).
  { eexists. vm_compute. reflexivity. }
  destruct Hothers as (w2 & Hothers).
  destruct (C4_invalid_count_leaves_placeholder P "odd"
              (mk_np (Some ["delay,msleep"; "30"; "gpio,high"]) None)
              boot ["subnode_1"; "odd"] w2)
    as (li & w0 & w1 & H); [reflexivity|reflexivity|right; right; reflexivity
                           |right; reflexivity|exact Hothers|].
  exists li, w0, w1, w2. split; [exact Hothers|exact H].
Defined.

(** ** Build once, run on every call *)

Lemma count_events_after f ok (new : list event) e tr :
  forallb ok new = true ->
  (forall e', ok e' = true -> f e' = false) ->
  count_events f (new ++ e :: tr)
    = ((if f e then 1 else 0) + count_events f tr)%nat.
Proof.
  intros Hn Hd. rewrite count_events_app, (count_events_none f ok new Hd Hn).
  unfold count_events. simpl. destruct (f e); reflexivity.
Qed.

Lemma build_not_make_list e : is_build e = true -> is_make_list e = false.
Proof. destruct e; simpl; intros H; try discriminate; reflexivity. Qed.

Lemma build_not_do_list e : is_build e = true -> is_do_list e = false.
Proof. destruct e; simpl; intros H; try discriminate; reflexivity. Qed.

Lemma build_not_actuator e : is_build e = true -> is_actuator e = false.
Proof. destruct e; simpl; intros H; try discriminate; reflexivity. Qed.

Lemma actuator_not_make_list e : is_actuator e = true -> is_make_list e = false.
Proof. destruct e; simpl; intros H; try discriminate; reflexivity. Qed.

Lemma actuator_not_do_list e : is_actuator e = true -> is_do_list e = false.
Proof. destruct e; simpl; intros H; try discriminate; reflexivity. Qed.

Lemma actuator_not_resolver e : is_actuator e = true -> is_resolver e = false.
Proof. destruct e; simpl; intros H; try discriminate; reflexivity. Qed.

Lemma actuator_not_source e : is_actuator e = true -> is_source e = false.
Proof. destruct e; simpl; intros H; try discriminate; reflexivity. Qed.

Lemma actuator_not_alloc e : is_actuator e = true -> is_alloc e = false.
Proof. destruct e; simpl; intros H; try discriminate; reflexivity. Qed.

(** The counts of a call of [run_list] on a cached list that is not empty:
    [do_list] is entered once, and nothing of the builder happens. *)
Lemma run_list_cached_counts P name w l :
  cached_list name w = Some l -> l <> [] ->
  let o := run_list P name w in
  count_events is_make_list (trace (world_of o)) = count_events is_make_list (trace w) /\
  count_events is_resolver (trace (world_of o)) = count_events is_resolver (trace w) /\
  count_events is_source (trace (world_of o)) = count_events is_source (trace w) /\
  count_events is_alloc (trace (world_of o)) = count_events is_alloc (trace w) /\
  count_events is_do_list (trace (world_of o)) = S (count_events is_do_list (trace w)) /\
  dt_nodes (world_of o) = dt_nodes w.
Proof.
  intros Hc Hne o. subst o.
  destruct (run_list_cached P name w l Hc Hne) as (li & _ & _ & ->).
  rewrite world_of_bind_ret.
  destruct (do_list_trace P li w) as (new & -> & Hnew).
  rewrite (count_events_after is_make_list is_actuator new _ _ Hnew actuator_not_make_list).
  rewrite (count_events_after is_resolver is_actuator new _ _ Hnew actuator_not_resolver).
  rewrite (count_events_after is_source is_actuator new _ _ Hnew actuator_not_source).
  rewrite (count_events_after is_alloc is_actuator new _ _ Hnew actuator_not_alloc).
  rewrite (count_events_after is_do_list is_actuator new _ _ Hnew actuator_not_do_list).
  repeat split; try reflexivity. apply do_list_keeps_nodes.
Qed.

(** The counts of a call of [run_list] that returns: [make_list] is entered
    exactly when the cached list was empty or the name was new, and
    [do_list] is entered once. *)
Lemma run_list_counts P name w w1 :
  run_list P name w = Done tt w1 ->
  count_events is_make_list (trace w1)
    = (count_events is_make_list (trace w) + if built name w then 0 else 1)%nat /\
  count_events is_do_list (trace w1) = S (count_events is_do_list (trace w)).
Proof.
  intros Hrun.
  destruct (find_list name w) as [li w0| w0 | w0] eqn:Hfl;
    [|unfold run_list, bind at 1 in Hrun; rewrite Hfl in Hrun; discriminate
     |unfold run_list, bind at 1 in Hrun; rewrite Hfl in Hrun; discriminate].
  destruct (find_list_Done _ _ _ _ Hfl) as (Htr & _ & _ & Hcase).
  rewrite (run_list_unfold P name w li w0 Hfl) in Hrun.
  destruct (list_empty (list_at li w0)) eqn:Hemp.
  - assert (Hb : built name w = false).
    { unfold built, cached_list.
      destruct Hcase as [[-> ->] | (-> & _ & _)]; [|reflexivity].
      destruct (list_at li w); [reflexivity|discriminate]. }
    rewrite Hb. unfold bind at 1 in Hrun.
    destruct (make_list_trace P li name w0) as (new1 & E1 & H1).
    destruct (make_list P li name w0) as [r wm| |]; try discriminate.
    cbn [world_of] in E1.
    destruct (do_list_trace P li wm) as (new2 & E2 & H2).
    unfold bind at 1 in Hrun.
    destruct (do_list P li wm) as [r' wd| |]; try discriminate.
    cbn [world_of] in E2. injection Hrun as <-.
    rewrite E2, E1, Htr.
    rewrite (count_events_after is_make_list is_actuator new2 _ _ H2 actuator_not_make_list).
    rewrite (count_events_after is_make_list is_build new1 _ _ H1 build_not_make_list).
    rewrite (count_events_after is_do_list is_actuator new2 _ _ H2 actuator_not_do_list).
    rewrite (count_events_after is_do_list is_build new1 _ _ H1 build_not_do_list).
    simpl. split; lia.
  - assert (Hb : built name w = true).
    { unfold built, cached_list, list_at in *.
      destruct Hcase as [[-> ->] | (_ & _ & Hl)].
      - destruct (dt_nodes w !! li) as [n|]; [|discriminate].
        destruct (n_node n); [discriminate|reflexivity].
      - unfold list_at in Hl. destruct (dt_nodes w0 !! li) as [n|]; [|discriminate].
        rewrite Hl in Hemp. discriminate. }
    rewrite Hb.
    destruct (do_list_trace P li w0) as (new2 & E2 & H2).
    unfold bind at 1 in Hrun.
    destruct (do_list P li w0) as [r' wd| |]; try discriminate.
    cbn [world_of] in E2. injection Hrun as <-.
    rewrite E2, Htr.
    rewrite (count_events_after is_make_list is_actuator new2 _ _ H2 actuator_not_make_list).
    rewrite (count_events_after is_do_list is_actuator new2 _ _ H2 actuator_not_do_list).
    simpl. split; lia.
Qed.

Lemma timer_load_Done p w t w' :
  timer_load p w = Done t w' -> w' = w /\ exists i, p = Some i /\ timers w !! i = Some t.
Proof.
  unfold timer_load. destruct p as [i|]; [|discriminate].
  destruct (timers w !! i) as [t0|] eqn:E; [|discriminate].
  intros H. injection H as <- <-. eauto.
Qed.

Lemma keeps_nodes_Done {A} (m : M A) w a w' :
  keeps_nodes m -> m w = Done a w' -> dt_nodes w' = dt_nodes w.
Proof. intros H E. specialize (H w). rewrite E in H. exact H. Qed.

Lemma skip_pair_Done P type w b w' : skip_pair P type w = Done b w' -> w' = w.
Proof.
  unfold skip_pair. destruct (lcdtype P =? 0); [destruct type|];
    intros H; try discriminate; injection H as _ <-; reflexivity.
Qed.

(** ** The executor: its log *)

Lemma do_action_segment P r a w r' w' :
  do_action P r a w = Done r' w' ->
  exists seg, segment_of a seg /\ trace w' = rev seg ++ trace w.
Proof.
  unfold segment_of.
  destruct (kind_of (a_idx a)) as [[]|] eqn:Hk; unfold do_action; rewrite Hk.
  - intros H. injection H as _ <-. exists []. split; reflexivity.
  - intros H. injection H as _ <-. eexists. split; reflexivity.
  - intros H. injection H as _ <-. eexists. split; reflexivity.
  - destruct (a_supply a) as [s|]; [|discriminate].
    intros H. injection H as _ <-. eexists. split; [exists s; split; reflexivity|reflexivity].
  - destruct (a_supply a) as [s|]; [|discriminate].
    intros H. injection H as _ <-. eexists. split; [exists s; split; reflexivity|reflexivity].
  - intros H. injection H as _ <-. eexists. split; reflexivity.
  - intros H. injection H as _ <-. eexists. split; reflexivity.
  - intros H. injection H as _ <-. eexists. split; reflexivity.
  - intros H. injection H as _ <-. eexists. split; reflexivity.
  - unfold bind at 1, clock at 1. unfold bind at 1.
    destruct (timer_load (a_timer a) _) as [t w1| |] eqn:El; try discriminate.
    apply timer_load_Done in El. destruct El as (-> & _).
    unfold bind, timer_store, ret. destruct (a_timer a) as [i|]; [|discriminate].
    cbn [timers dt_nodes trace].
    destruct (i <? length (timers w))%nat; [|discriminate].
    intros H. injection H as _ <-. exists [EvLocalClock]. split; reflexivity.
  - destruct (a_timer a) as [p|] eqn:Hp.
    2:{ unfold bind at 1, timer_delay. rewrite Hp. discriminate. }
    destruct (timers w !! p) as [t|] eqn:Ht.
    2:{ unfold bind at 1, timer_delay. rewrite Hp.
        unfold bind at 1, clock at 1, bind at 1, timer_load at 1.
        cbn [timers]. rewrite Ht. discriminate. }
    pose proof (do_action_await P w a p t r Hk Hp Ht) as Hd.
    unfold do_action in Hd. rewrite Hk in Hd. cbv zeta in Hd. rewrite Hd.
    unfold after_await.
    repeat match goal with
           | |- (if ?c then _ else _) = _ -> _ => destruct c
           end;
      intros H; injection H as _ <-; cbn [trace];
      match goal with
      | |- context [ ?e :: EvLocalClock :: _ = _ ] =>
          exists [EvLocalClock; e];
          split; [right; exists e; split; reflexivity|reflexivity]
      | |- _ => exists [EvLocalClock]; split; [left; reflexivity|reflexivity]
      end.
  - unfold timer_clear. unfold bind at 1. unfold bind at 1.
    destruct (timer_load (a_timer a) w) as [t w1| |] eqn:El; try discriminate.
    apply timer_load_Done in El. destruct El as (-> & _).
    unfold timer_store, ret. destruct (a_timer a) as [i|]; [|discriminate].
    destruct (i <? length (timers w))%nat; [|discriminate].
    intros H. injection H as _ <-. exists []. split; reflexivity.
  - intros H. injection H as _ <-. exists []. split; reflexivity.
  - intros H. injection H as _ <-. exists []. split; reflexivity.
Qed.

Lemma do_list_loop_executes P l : forall r w r' w',
  do_list_loop P l r w = Done r' w' ->
  exists evs, executes l evs /\ trace w' = rev evs ++ trace w.
Proof.
  induction l as [|a l IH]; intros r w r' w' H; cbn [do_list_loop] in H.
  - injection H as _ <-. exists []. split; reflexivity.
  - unfold bind in H.
    destruct (do_action P r a w) as [r1 w1| |] eqn:Ea; try discriminate.
    destruct (do_action_segment P r a w r1 w1 Ea) as (seg & Hseg & Ht1).
    destruct (IH r1 w1 r' w' H) as (evs' & Hex & Ht).
    exists (seg ++ evs'). split.
    + cbn [executes]. exists seg, evs'. auto.
    + rewrite Ht, Ht1, rev_app_distr, app_assoc. reflexivity.
Qed.

(** [do_list] that returns logged its entry, then the actuator calls of
    each action of the list, once, in order. *)
Lemma do_list_executes P li w r w' :
  do_list P li w = Done r w' ->
  exists evs, executes (list_at li w) evs /\ trace w' = rev evs ++ EvDoList :: trace w.
Proof.
  unfold do_list, bind at 1, emit at 1, bind at 1, get_world at 1.
  set (w1 := mk_world (dt_nodes w) (timers w) (EvDoList :: trace w)).
  change (list_at li w1) with (list_at li w).
  unfold bind at 1.
  destruct (do_list_loop P (list_at li w) 0 w1) as [r1 w2| |] eqn:El; try discriminate.
  destruct (do_list_loop_executes P _ _ _ _ _ El) as (evs & Hex & Ht).
  destruct (r1 <? 0); [discriminate|].
  intros H. injection H as _ <-. exists evs. split; [exact Hex|exact Ht].
Qed.

Lemma segment_of_actuators a seg : segment_of a seg -> forallb is_actuator seg = true.
Proof.
  unfold segment_of.
  destruct (kind_of (a_idx a)) as [[]|];
    try (intros ->; reflexivity);
    try (intros (s & _ & ->); reflexivity).
  intros [-> | (e & He & ->)]; [reflexivity|].
  cbn [forallb is_actuator]. destruct e; try discriminate He; reflexivity.
Qed.

Lemma executes_actuators l : forall evs,
  executes l evs -> forallb is_actuator evs = true.
Proof.
  induction l as [|a l IH]; cbn [executes]; intros evs H.
  - subst evs. reflexivity.
  - destruct H as (seg & evs' & Hseg & Hex & ->).
    rewrite forallb_app, (segment_of_actuators a seg Hseg), (IH evs' Hex). reflexivity.
Qed.

(** A call of [run_list] that returns builds when the list was empty, then
    executes the cached list. *)
Lemma run_list_executes P name w w1 :
  run_list P name w = Done tt w1 -> built_when_empty_and_run name w w1.
Proof.
  intros Hrun. unfold built_when_empty_and_run.
  destruct (find_list name w) as [li w0| w0 | w0] eqn:Hfl;
    [|unfold run_list, bind at 1 in Hrun; rewrite Hfl in Hrun; discriminate
     |unfold run_list, bind at 1 in Hrun; rewrite Hfl in Hrun; discriminate].
  destruct (find_list_Done _ _ _ _ Hfl) as (Htr & _ & Hfound & Hcase).
  rewrite (run_list_unfold P name w li w0 Hfl) in Hrun.
  destruct (list_empty (list_at li w0)) eqn:Hemp.
  - assert (Hb : built name w = false).
    { unfold built, cached_list.
      destruct Hcase as [[-> ->] | (-> & _ & _)]; [|reflexivity].
      destruct (list_at li w); [reflexivity|discriminate]. }
    rewrite Hb. unfold bind at 1 in Hrun.
    destruct (make_list_trace P li name w0) as (new1 & E1 & H1).
    destruct (make_list_appends P li name w0) as (added & Hadd & _).
    destruct (make_list P li name w0) as [r wm| |]; try discriminate.
    cbn [world_of] in E1, Hadd.
    unfold bind at 1 in Hrun.
    destruct (do_list P li wm) as [r' wd| |] eqn:Ed; try discriminate.
    injection Hrun as <-.
    destruct (do_list_executes P li wm r' wd Ed) as (evs & Hex & Ht).
    pose proof (keeps_nodes_Done _ _ _ _ (do_list_keeps_nodes P li) Ed) as Hn.
    exists (list_at li wm), (EvMakeList name :: rev new1), evs.
    split.
    { unfold cached_list, list_at. rewrite Hn, Hadd, find_list_in_append_to, Hfound.
      reflexivity. }
    split; [exact Hex|]. split; [exact (executes_actuators _ _ Hex)|]. split.
    { rewrite Ht, E1, Htr. cbn [rev]. rewrite rev_involutive, <- app_assoc. reflexivity. }
    exists (rev new1). split; [reflexivity|].
    rewrite forallb_forall in *. intros e He. apply H1. apply in_rev. exact He.
  - assert (Hb : built name w = true).
    { unfold built, cached_list, list_at in *.
      destruct Hcase as [[-> ->] | (_ & _ & Hl)].
      - destruct (dt_nodes w !! li) as [n|]; [|discriminate].
        destruct (n_node n); [discriminate|reflexivity].
      - unfold list_at in Hl. destruct (dt_nodes w0 !! li) as [n|]; [|discriminate].
        rewrite Hl in Hemp. discriminate. }
    rewrite Hb.
    unfold bind at 1 in Hrun.
    destruct (do_list P li w0) as [r' wd| |] eqn:Ed; try discriminate.
    injection Hrun as <-.
    destruct (do_list_executes P li w0 r' wd Ed) as (evs & Hex & Ht).
    pose proof (keeps_nodes_Done _ _ _ _ (do_list_keeps_nodes P li) Ed) as Hn.
    exists (list_at li w0), [], evs.
    split.
    { unfold cached_list, list_at. rewrite Hn, Hfound. reflexivity. }
    split; [exact Hex|]. split; [exact (executes_actuators _ _ Hex)|].
    split; [|reflexivity].
    rewrite Ht, Htr. reflexivity.
Qed.

(** C2 (as amended). For every sequence name and every call of [run_list]
    that returns:
    - the call enters [make_list] exactly when the name was new or its
      cached list was empty at the call (never once the list holds an
      action), and it enters [do_list] once; its log is, in program order,
      the builder's entry and calls when it built, then the entry of
      [do_list], then the actuator calls of each action of the cached list,
      once, in the order of the list, and nothing else;
    - when the cached list holds an action after the call, a second call,
      however it ends, does not enter [make_list], reads no source,
      allocates nothing and calls no resolver, leaves every cached list as
      it is, and enters [do_list] once more;
    - a second call that returns enters [make_list] again exactly when the
      first left the list empty, and when the list holds an action it logs
      the entry of [do_list] and the actuator calls of each action of the
      same list, once more, in order, and nothing else.
    So a sequence whose build leaves an action is built once and executed
    on both calls, and a build that leaves the list empty is attempted
    again. *)
Theorem C2_build_when_empty_run_always (P : platform) (name : string)
  (w w1 : world) :
  run_list P name w = Done tt w1 ->
  (count_events is_make_list (trace w1)
     = (count_events is_make_list (trace w) + if built name w then 0 else 1)%nat /\
   count_events is_do_list (trace w1) = S (count_events is_do_list (trace w)) /\
   built_when_empty_and_run name w w1) /\
  (built name w1 = true ->
   let o := run_list P name w1 in
   count_events is_make_list (trace (world_of o)) = count_events is_make_list (trace w1) /\
   count_events is_resolver (trace (world_of o)) = count_events is_resolver (trace w1) /\
   count_events is_source (trace (world_of o)) = count_events is_source (trace w1) /\
   count_events is_alloc (trace (world_of o)) = count_events is_alloc (trace w1) /\
   count_events is_do_list (trace (world_of o)) = S (count_events is_do_list (trace w1)) /\
   dt_nodes (world_of o) = dt_nodes w1) /\
  (forall w2, run_list P name w1 = Done tt w2 ->
     count_events is_make_list (trace w2)
       = (count_events is_make_list (trace w1) + if built name w1 then 0 else 1)%nat /\
     count_events is_do_list (trace w2) = S (count_events is_do_list (trace w1)) /\
     (built name w1 = true ->
      exists l evs,
        cached_list name w1 = Some l /\ cached_list name w2 = Some l /\
        executes l evs /\ forallb is_actuator evs = true /\
        trace w2 = rev evs ++ EvDoList :: trace w1)).
Proof.
  intros Hrun.
  assert (Hcached : built name w1 = true ->
    let o := run_list P name w1 in
    count_events is_make_list (trace (world_of o)) = count_events is_make_list (trace w1) /\
    count_events is_resolver (trace (world_of o)) = count_events is_resolver (trace w1) /\
    count_events is_source (trace (world_of o)) = count_events is_source (trace w1) /\
    count_events is_alloc (trace (world_of o)) = count_events is_alloc (trace w1) /\
    count_events is_do_list (trace (world_of o)) = S (count_events is_do_list (trace w1)) /\
    dt_nodes (world_of o) = dt_nodes w1).
  { intros Hbuilt. unfold built in Hbuilt.
    destruct (cached_list name w1) as [[|a l]|] eqn:Hc; try discriminate.
    apply (run_list_cached_counts P name w1 (a :: l) Hc). discriminate. }
  split.
  { destruct (run_list_counts P name w w1 Hrun) as (H1 & H2).
    split; [exact H1|]. split; [exact H2|]. exact (run_list_executes P name w w1 Hrun). }
  split; [exact Hcached|].
  intros w2 Hrun2.
  destruct (run_list_counts P name w1 w2 Hrun2) as (H1 & H2).
  split; [exact H1|]. split; [exact H2|].
  intros Hbuilt.
  destruct (run_list_executes P name w1 w2 Hrun2) as (l & build & evs & Hc & Hex & Hact & Ht & Hb).
  rewrite Hbuilt in Hb. subst build.
  destruct (Hcached Hbuilt) as (_ & _ & _ & _ & _ & Hn).
  cbv zeta in Hn. rewrite Hrun2 in Hn. cbn [world_of] in Hn.
  exists l, evs. split; [rewrite <- (cached_list_nodes name w1 w2 Hn); exact Hc|].
  split; [exact Hc|]. split; [exact Hex|]. split; [exact Hact|]. exact Ht.
Qed.

(** C2 at the sequence [subnode_1], run twice from boot on a board with a
    panel (built once, executed twice), and at [gpio_only], run twice with
    no panel attached (the empty build is attempted again). *)
Lemma C2_build_when_empty_run_always_witness :
  let P := Board.board 1 (Board.ticking 0) in
  let P0 := Board.board 0 (Board.ticking 0) in
  exists w1 w2 v1 v2,
    (run_list P "subnode_1" boot = Done tt w1 /\
     run_list P "subnode_1" w1 = Done tt w2 /\
     built "subnode_1" w1 = true /\
     count_events is_make_list (trace w1) = 1%nat /\
     count_events is_do_list (trace w1) = 1%nat /\
     built_when_empty_and_run "subnode_1" boot w1 /\
     count_events is_make_list (trace w2) = 1%nat /\
     count_events is_resolver (trace w2) = count_events is_resolver (trace w1) /\
     count_events is_source (trace w2) = count_events is_source (trace w1) /\
     count_events is_alloc (trace w2) = count_events is_alloc (trace w1) /\
     count_events is_do_list (trace w2) = 2%nat /\
     dt_nodes w2 = dt_nodes w1 /\
     exists l evs,
       cached_list "subnode_1" w1 = Some l /\ cached_list "subnode_1" w2 = Some l /\
       executes l evs /\ forallb is_actuator evs = true /\
       trace w2 = rev evs ++ EvDoList :: trace w1) /\
    (run_list P0 "gpio_only" boot = Done tt v1 /\
     run_list P0 "gpio_only" v1 = Done tt v2 /\
     built "gpio_only" v1 = false /\
     count_events is_make_list (trace v1) = 1%nat /\
     count_events is_make_list (trace v2) = 2%nat).
Proof.
  intros P P0.
  assert (Hrun : exists w1 w2,
            run_list P "subnode_1" boot = Done tt w1 /\
            run_list P "subnode_1" w1 = Done tt w2 /\
            built "subnode_1" w1 = true).
  { eexists. eexists. split; [vm_compute; reflexivity|].
    split; [vm_compute; reflexivity|reflexivity]. }
  assert (Hrun0 : exists v1 v2,
            run_list P0 "gpio_only" boot = Done tt v1 /\
            run_list P0 "gpio_only" v1 = Done tt v2 /\
            built "gpio_only" v1 = false).
  { eexists. eexists. split; [vm_compute; reflexivity|].
    split; [vm_compute; reflexivity|reflexivity]. }
  destruct Hrun as (w1 & w2 & Hr1 & Hr2 & Hb).
  destruct Hrun0 as (v1 & v2 & Hv1 & Hv2 & Hb0).
  exists w1, w2, v1, v2. split.
  - destruct (C2_build_when_empty_run_always P "subnode_1" boot w1 Hr1)
      as ((H1 & H2 & H3) & Hsecond & Hnext).
    destruct (Hsecond Hb) as (K1 & K2 & K3 & K4 & K5 & K6).
    destruct (Hnext w2 Hr2) as (N1 & N2 & N3).
    cbv zeta in K1, K2, K3, K4, K5, K6.
    rewrite Hr2 in K1, K2, K3, K4, K5, K6. cbn [world_of] in K1, K2, K3, K4, K5, K6.
    split; [exact Hr1|]. split; [exact Hr2|]. split; [exact Hb|].
    split; [exact H1|]. split; [exact H2|]. split; [exact H3|].
    split; [rewrite K1; exact H1|]. split; [exact K2|]. split; [exact K3|].
    split; [exact K4|]. split; [rewrite K5, H2; reflexivity|]. split; [exact K6|].
    exact (N3 Hb).
  - destruct (C2_build_when_empty_run_always P0 "gpio_only" boot v1 Hv1)
      as ((H1 & _) & _ & Hnext).
    destruct (Hnext v2 Hv2) as (N1 & _).
    rewrite Hb0 in N1.
    split; [exact Hv1|]. split; [exact Hv2|]. split; [exact Hb0|].
    split; [exact H1|]. rewrite N1, H1. reflexivity.
Defined.

(** C2 as the specification words it fails with no panel attached
    ([lcdtype] zero) on a sequence of GPIO actions only: every pair is
    skipped, the build leaves the list empty, and the second call of
    [run_list] enters [make_list] again. *)
Lemma C2_empty_build_is_repeated :
  ~ builds_at_most_once (Board.board 0 (Board.ticking 0)) "gpio_only".
Proof.
  unfold builds_at_most_once. vm_compute. intros H.
  repeat match goal with H : (_ <= _)%nat |- _ => inversion H; clear H end.
Qed.

(** ** A build that fails *)

Lemma source_not_alloc e : is_source e = true -> is_alloc e = false.
Proof. destruct e; simpl; intros H; try discriminate; reflexivity. Qed.

Lemma resolver_not_alloc e : is_resolver e = true -> is_alloc e = false.
Proof. destruct e; simpl; intros H; try discriminate; reflexivity. Qed.

Lemma emits_Done {A} ok (m : M A) w a w' :
  emits ok m -> m w = Done a w' ->
  exists new, trace w' = new ++ trace w /\ forallb ok new = true.
Proof. intros H E. specialize (H w). rewrite E in H. exact H. Qed.

(** One turn of the loop of [make_list] that returns: it skipped the pair,
    or linked one action it allocated, or left the loop on a negative [ret]
    with the action it allocated not linked and only that action's resolver
    calls logged after the allocation. *)
Lemma make_list_turn_Done P np li count i type subinfo r w t w' :
  make_list_turn P np li count i type subinfo r w = Done t w' ->
  match t with
  | Continue _ _ r' =>
      (r' = r /\ dt_nodes w' = dt_nodes w /\
       count_events is_alloc (trace w') = count_events is_alloc (trace w)) \/
      (0 <= r' /\ (exists a, dt_nodes w' = append_to li [a] (dt_nodes w)) /\
       count_events is_alloc (trace w') = S (count_events is_alloc (trace w)))
  | Break r' =>
      r' < 0 /\ dt_nodes w' = dt_nodes w /\
      count_events is_alloc (trace w') = S (count_events is_alloc (trace w)) /\
      exists resolved tr,
        trace w' = resolved ++ EvKzallocAction :: tr /\
        forallb is_resolver resolved = true
  end.
Proof.
  unfold make_list_turn. unfold bind at 1, emit at 1. unfold bind at 1, emit at 1.
  cbn [dt_nodes timers trace].
  set (w2 := mk_world (dt_nodes w) (timers w) _).
  set (ty := of_property_read_string_index (prop_type np) (i * 2) type).
  set (su := of_property_read_string_index (prop_type np) (i * 2 + 1) subinfo).
  unfold bind at 1.
  destruct (skip_pair P ty w2) as [b w2'| |] eqn:Hskip; try discriminate.
  apply skip_pair_Done in Hskip. subst w2'.
  destruct b.
  { intros H. injection H as <- <-. left.
    split; [reflexivity|]. split; reflexivity. }
  unfold bind at 1, emit at 1.
  set (w3 := mk_world _ _ (EvKzallocAction :: _)).
  destruct (decide_type _) as [r0 a0].
  destruct (r0 <? 0) eqn:E0.
  { intros H. injection H as <- <-. apply Z.ltb_lt in E0.
    split; [exact E0|]. split; [reflexivity|]. split; [reflexivity|].
    exists [], (trace w2). split; reflexivity. }
  apply Z.ltb_ge in E0.
  unfold bind at 1.
  destruct (decide_subinfo P a0 w3) as [[r1 a1] w4| |] eqn:Hsub; try discriminate.
  destruct (emits_Done _ _ _ _ _ (decide_subinfo_emits P a0) Hsub) as (res & Htr & Hres).
  pose proof (keeps_nodes_Done _ _ _ _ (decide_subinfo_keeps_nodes P a0) Hsub) as Hn.
  assert (Hal : count_events is_alloc (trace w4) = S (count_events is_alloc (trace w))).
  { rewrite Htr, count_events_app,
      (count_events_none is_alloc is_resolver res resolver_not_alloc Hres).
    reflexivity. }
  destruct (r1 <? 0) eqn:E1.
  { intros H. injection H as <- <-. apply Z.ltb_lt in E1.
    split; [exact E1|]. split; [exact Hn|]. split; [exact Hal|].
    exists res, (trace w2). split; [exact Htr|exact Hres]. }
  apply Z.ltb_ge in E1.
  unfold bind at 1.
  destruct (attach_desc np count i a1 w4) as [a2 w5| |] eqn:Hat; try discriminate.
  destruct (emits_Done _ _ _ _ _ (attach_desc_emits np count i a1) Hat) as (src & Htr5 & Hsrc).
  pose proof (keeps_nodes_Done _ _ _ _ (attach_desc_keeps_nodes np count i a1) Hat) as Hn5.
  unfold bind at 1, list_add_tail at 1.
  cbn [dt_nodes timers trace].
  intros H. injection H as <- <-. right. cbn [dt_nodes trace].
  split; [exact E1|]. split; [eexists; rewrite Hn5, Hn; reflexivity|].
  rewrite Htr5, count_events_app,
    (count_events_none is_alloc is_source src source_not_alloc Hsrc).
  exact Hal.
Qed.

(** The loop of [make_list] when it returns: every action it allocated is
    linked to the list, except, when it returns a negative [ret], the last
    one, after whose allocation only resolver calls were logged. *)
Lemma make_list_loop_Done P np li count fuel : forall i type subinfo r w r' w',
  0 <= r ->
  make_list_loop P np li count fuel i type subinfo r w = Done r' w' ->
  exists added,
    dt_nodes w' = append_to li added (dt_nodes w) /\
    ((0 <= r' /\
      count_events is_alloc (trace w')
        = (count_events is_alloc (trace w) + length added)%nat) \/
     (r' < 0 /\
      count_events is_alloc (trace w')
        = S (count_events is_alloc (trace w) + length added)%nat /\
      exists resolved tr,
        trace w' = resolved ++ EvKzallocAction :: tr /\
        forallb is_resolver resolved = true)).
Proof.
  induction fuel as [|fuel IH]; intros i type subinfo r w r' w' Hr H.
  - injection H as <- <-. exists []. rewrite append_to_nil. split; [reflexivity|].
    left. split; [exact Hr|]. simpl. lia.
  - cbn [make_list_loop] in H. unfold bind at 1 in H.
    destruct (make_list_turn P np li count i type subinfo r w) as [t w1| |] eqn:Ht;
      try discriminate.
    apply make_list_turn_Done in Ht.
    destruct t as [ty su r1|r1].
    + destruct Ht as [(-> & Hn & Hal) | (Hr1 & (a & Hn) & Hal)].
      * destruct (IH _ _ _ _ _ _ _ Hr H) as (added & Hn' & Hcases).
        exists added. rewrite Hn', Hn. split; [reflexivity|].
        rewrite Hal in Hcases. exact Hcases.
      * destruct (IH _ _ _ _ _ _ _ Hr1 H) as (added & Hn' & Hcases).
        exists (a :: added). rewrite Hn', Hn, append_to_app. split; [reflexivity|].
        rewrite Hal in Hcases. cbn [length].
        destruct Hcases as [(H0 & Hc) | (H0 & Hc & Hres)]; [left|right].
        -- split; [exact H0|]. rewrite Hc. lia.
        -- split; [exact H0|]. split; [rewrite Hc; lia|exact Hres].
    + injection H as <- <-. destruct Ht as (Hneg & Hn & Hal & Hres).
      exists []. rewrite append_to_nil. split; [exact Hn|].
      right. split; [exact Hneg|]. split; [rewrite Hal; simpl; lia|exact Hres].
Qed.

(** C8 (as amended). For every build in which some action fails validation
    (the loop of [make_list] is left on a negative [ret]): the build stops
    at that action, after whose allocation nothing but its own resolver
    calls happens; the failing action is freed and is not linked; every
    action allocated before it is linked and stays in the cached list, which
    only grew; and the build ends in [BUG()]. *)
Theorem C8_failed_build_keeps_partial_list (P : platform) (li : nat) (name : string)
  (np : device_node) (w w1 : world) (r : Z) :
  decon_board_np P = true ->
  of_find_node_by_name P name = Some np ->
  0 < of_property_count_strings (prop_type np) ->
  Z.even (of_property_count_strings (prop_type np)) = true ->
  make_list_loop P np li (Z.quot (of_property_count_strings (prop_type np)) 2)
    (Z.to_nat (Z.quot (of_property_count_strings (prop_type np)) 2)) 0 None None 0
    (mk_world (dt_nodes w) (timers w)
       (EvCountStrings "type" :: EvFindNodeByName name :: EvMakeList name :: trace w))
    = Done r w1 ->
  r < 0 ->
  exists added resolved tr,
    make_list P li name w
      = Bug (mk_world (dt_nodes w1) (timers w1) (EvKfreeAction :: trace w1)) /\
    dt_nodes w1 = append_to li added (dt_nodes w) /\
    trace w1 = resolved ++ EvKzallocAction :: tr /\
    forallb is_resolver resolved = true /\
    count_events is_alloc (trace w1)
      = S (count_events is_alloc (trace w) + length added)%nat.
Proof.
  intros Hnp Hfind Hpos Heven Hloop Hneg.
  destruct (make_list_loop_Done P np li _ _ _ _ _ _ _ _ _ (Z.le_refl 0) Hloop)
    as (added & Hn & [(H0 & _) | (_ & Hal & resolved & tr & Htr & Hres)]); [lia|].
  exists added, resolved, tr.
  split.
  - unfold make_list. rewrite Hnp, Hfind, (valid_count_test _ Hpos Heven).
    unfold bind at 1, emit at 1. unfold bind at 1, emit at 1.
    unfold bind at 1, emit at 1. cbn [dt_nodes timers trace].
    unfold bind at 1. rewrite Hloop.
    apply Z.ltb_lt in Hneg. rewrite Hneg. reflexivity.
  - split; [exact Hn|]. split; [exact Htr|]. split; [exact Hres|exact Hal].
Qed.

(** C8 at the sequence [bad_second], whose second pair has an unknown
    type. *)
Lemma C8_failed_build_keeps_partial_list_witness :
  let P := Board.board 1 (Board.ticking 0) in
  let w := mk_world [mk_node "bad_second" []] [] [] in
  exists w1 added resolved tr,
    make_list P 0 "bad_second" w
      = Bug (mk_world (dt_nodes w1) (timers w1) (EvKfreeAction :: trace w1)) /\
    dt_nodes w1 = append_to 0 added (dt_nodes w) /\
    trace w1 = resolved ++ EvKzallocAction :: tr /\
    forallb is_resolver resolved = true /\
    count_events is_alloc (trace w1)
      = S (count_events is_alloc (trace w) + length added)%nat.
Proof.
  intros P w.
  pose (np := mk_np (Some ["delay,msleep"; "30"; "bogus"; "x"]) None).
  assert (Hloop : exists r w1,
    make_list_loop P np 0 (Z.quot (of_property_count_strings (prop_type np)) 2)
      (Z.to_nat (Z.quot (of_property_count_strings (prop_type np)) 2)) 0 None None 0
      (mk_world (dt_nodes w) (timers w)
         (EvCountStrings "type" :: EvFindNodeByName "bad_second"
          :: EvMakeList "bad_second" :: trace w))
      = Done r w1 /\ r < 0).
  { eexists _, _. split; [vm_compute; reflexivity|reflexivity]. }
  destruct Hloop as (r & w1 & Hloop & Hneg).
  exists w1.
  apply (C8_failed_build_keeps_partial_list P 0 "bad_second" np w w1 r).
  - reflexivity.
  - reflexivity.
  - simpl. lia.
  - reflexivity.
  - exact Hloop.
  - exact Hneg.
Defined.

(** C8 as the specification words it fails on a sequence whose second pair
    has an unknown type: [run_list] ends in the fatal abort, and the coarse
    sleep resolved from the first pair is still the cached list. *)
Lemma C8_partial_list_is_not_discarded :
  ~ failed_build_discards (Board.board 1 (Board.ticking 0)) "bad_second" boot.
Proof.
  intros H.
  assert (E : exists w' a,
    run_list (Board.board 1 (Board.ticking 0)) "bad_second" boot = Bug w' /\
    cached_list "bad_second" w' = Some [a] /\ a_idx a = idx_of ACTION_DELAY_MSLEEP).
  { eexists _, _. split; [vm_compute; reflexivity|]. split; reflexivity. }
  destruct E as (w' & a & Hrun & Hc & Ha).
  destruct (H w' Hrun _ Hc) as [D|D]; [discriminate D|].
  injection D as ->. discriminate Ha.
Qed.

(** ** The sequences of the driver's documentation, run *)

(** A timer started for 300 ms at time 0 and awaited at 290 ms: the await
    sleeps the 10 ms left as a ranged sleep, and clears the timer. *)
Example await_10ms_before_the_end :
  exists w,
    run_lists (Board.board 1 (Board.ticking 290000000)) ["subnode_2"; "subnode_3"] boot
      = Done tt w /\
    sleeps (trace w) = [EvUsleepRange 10000 15000] /\
    timers w = [mk_timer "loading" 0 0 290000000 300].
Proof. eexists. split; [vm_compute; reflexivity|]. split; reflexivity. Qed.

(** The same timer awaited at 310 ms: no sleep, and the timer is cleared. *)
Example await_10ms_after_the_end :
  exists w,
    run_lists (Board.board 1 (Board.ticking 310000000)) ["subnode_2"; "subnode_3"] boot
      = Done tt w /\
    sleeps (trace w) = [] /\
    timers w = [mk_timer "loading" 0 0 310000000 300].
Proof. eexists. split; [vm_compute; reflexivity|]. split; reflexivity. Qed.

(** [subnode_1], built and run on a board with a panel: one resolver call
    for the regulator, one for the GPIO and three for the pinctrl state;
    then the six actions in order. *)
Example subnode_1_runs :
  exists w,
    run_list (Board.board 1 (Board.ticking 0)) "subnode_1" boot = Done tt w /\
    List.filter is_resolver (trace w)
      = [EvPinctrlLookupState "pin_on"; EvPinctrlGet; EvFindDeviceByNode;
         EvGetNamedGpio "gpio_lcd_en"; EvRegulatorBulkGet "ldo1"] /\
    List.filter is_actuator (trace w)
      = [EvMsleep 30; EvPinctrlSelectState (KObj 2) (KObj 3);
         EvUsleepRange 10000 15000; EvUsleepRange 10000 11000;
         EvGpioFree 5; EvGpioRequestOne 5 true; EvRegulatorEnable (KObj 1)].
Proof. eexists. split; [vm_compute; reflexivity|]. split; reflexivity. Qed.

(** The await is spelled ["timer,delay"] in [action_list]; the spelling
    ["timer,check"] of the comment at the head of the file matches no
    entry. *)
Example timer_check_is_not_a_type :
  fst (decide_type (Board.fresh "timer,check" "loading")) = - EINVAL /\
  fst (decide_type (Board.fresh "timer,delay" "loading")) = 0.
Proof. split; reflexivity. Qed.

(** A placeholder has a NULL [type]: once one is cached, the next build
    that looks a timer up walks over it in [find_timer] and faults in
    [STRNEQ("timer", action->type)]. *)
Example timer_lookup_over_a_placeholder_faults :
  exists w,
    run_lists (Board.board 1 (Board.ticking 0)) ["odd"; "subnode_3"] boot = Oops w /\
    cached_list "odd" w = Some [zero_action].
Proof. eexists. split; [vm_compute; reflexivity|reflexivity]. Qed.

(** * Further properties *)

(** ** Relations between the start and the end of a computation *)

Section Steps.

Variable R : world -> world -> Prop.
Hypothesis R_refl : forall w, R w w.
Hypothesis R_trans : forall w1 w2 w3, R w1 w2 -> R w2 w3 -> R w1 w3.

Lemma steps_ret {A} (a : A) : steps R (ret a).
Proof. intros w. apply R_refl. Qed.

Lemma steps_bind {A B} (m : M A) (k : A -> M B) :
  steps R m -> (forall a, steps R (k a)) -> steps R (bind m k).
Proof.
  intros Hm Hk w. unfold bind. specialize (Hm w).
  destruct (m w) as [a w'| w' | w']; simpl in Hm; [|exact Hm|exact Hm].
  exact (R_trans _ _ _ Hm (Hk a w')).
Qed.

End Steps.

(** ** The registry of sequences: lookup, capacity, names *)

Lemma find_list_in_NotFound nodes name : forall idx, (idx < 10)%nat ->
  find_list_in nodes idx name = NotFound ->
  ~ In name (List.map n_name nodes) /\ (idx + length nodes < 10)%nat.
Proof.
  induction nodes as [|n nodes IH]; intros idx Hidx H.
  { split; [intros []|cbn [length]; lia]. }
  cbn [find_list_in] in H.
  destruct (STREQ (n_name n) name) eqn:E; [discriminate|].
  destruct (S idx =? 10)%nat eqn:E10; [discriminate|]. apply Nat.eqb_neq in E10.
  destruct (IH (S idx) ltac:(lia) H) as (Hnot & Hlen). split.
  - intros [Hn | Hin]; [|exact (Hnot Hin)].
    unfold STREQ in E. apply String.eqb_neq in E. exact (E Hn).
  - cbn [length]. lia.
Qed.

Lemma find_list_in_absent nodes name : forall idx, (idx < 10)%nat ->
  ~ In name (List.map n_name nodes) ->
  find_list_in nodes idx name =
    if (idx + length nodes <? 10)%nat then NotFound else ScanBug.
Proof.
  induction nodes as [|n nodes IH]; intros idx Hidx Hnot.
  { cbn [find_list_in length].
    assert (E : (idx + 0 <? 10)%nat = true) by (apply Nat.ltb_lt; lia).
    rewrite E. reflexivity. }
  cbn [find_list_in length].
  assert (Hn : STREQ (n_name n) name = false).
  { unfold STREQ. apply String.eqb_neq. intros Hn. apply Hnot. left. exact Hn. }
  rewrite Hn.
  assert (Hrest : ~ In name (List.map n_name nodes)) by (intros Hin; apply Hnot; right; exact Hin).
  destruct (S idx =? 10)%nat eqn:E10.
  - apply Nat.eqb_eq in E10.
    assert (E : (idx + S (length nodes) <? 10)%nat = false) by (apply Nat.ltb_ge; lia).
    rewrite E. reflexivity.
  - apply Nat.eqb_neq in E10. rewrite (IH (S idx) ltac:(lia) Hrest).
    replace (idx + S (length nodes))%nat with (S idx + length nodes)%nat by lia.
    reflexivity.
Qed.

Lemma find_list_in_present nodes name : forall idx,
  (idx + length nodes <= 10)%nat ->
  In name (List.map n_name nodes) ->
  exists li node, find_list_in nodes idx name = Found (idx + li)%nat /\
    nodes !! li = Some node /\ n_name node = name /\
    ~ In name (List.map n_name (take li nodes)).
Proof.
  induction nodes as [|n nodes IH]; intros idx Hlen Hin; [destruct Hin|].
  cbn [find_list_in]. cbn [length] in Hlen.
  destruct (STREQ (n_name n) name) eqn:E.
  - exists 0%nat, n. unfold STREQ in E. apply String.eqb_eq in E.
    rewrite Nat.add_0_r. repeat split; auto.
  - assert (Hn : n_name n <> name) by (unfold STREQ in E; apply String.eqb_neq in E; exact E).
    destruct Hin as [Hin | Hin]; [contradiction|].
    assert (E10 : (S idx =? 10)%nat = false).
    { apply Nat.eqb_neq. destruct nodes; [destruct Hin|cbn [length] in Hlen; lia]. }
    rewrite E10.
    destruct (IH (S idx) ltac:(lia) Hin) as (li & node & Hf & Hat & Hname & Hfirst).
    exists (S li), node. rewrite Hf.
    replace (idx + S li)%nat with (S idx + li)%nat by lia. repeat split; auto.
    cbn [take List.map]. intros [H1 | H1]; [contradiction|exact (Hfirst H1)].
Qed.


Lemma names_append_to li added nodes :
  List.map n_name (append_to li added nodes) = List.map n_name nodes.
Proof.
  unfold append_to. revert li. induction nodes as [|n nodes IH]; intros [|li]; simpl; auto.
  f_equal. apply IH.
Qed.

Lemma length_append_to li added nodes :
  length (append_to li added nodes) = length nodes.
Proof. unfold append_to. apply length_alter. Qed.

(** X1. A name that is not registered takes the next free slot of
    [dt_nodes], with an empty list, while fewer than ten names are
    registered; once ten names are registered, looking up one more name ends
    in [BUG_ON] and registers nothing. *)
Theorem find_list_unregistered (name : string) (w : world) :
  ~ In name (names w) ->
  find_list name w =
    if (length (dt_nodes w) <? 10)%nat
    then Done (length (dt_nodes w))
              (mk_world (dt_nodes w ++ [mk_node name []]) (timers w) (trace w))
    else Bug w.
Proof.
  intros Hnot. unfold find_list.
  rewrite (find_list_in_absent (dt_nodes w) name 0 ltac:(lia) Hnot).
  cbn [Nat.add]. destruct (length (dt_nodes w) <? 10)%nat; reflexivity.
Qed.

Lemma find_list_unregistered_witness :
  find_list "subnode_1" boot = Done 0%nat (mk_world [mk_node "subnode_1" []] [] []) /\
  find_list "subnode_1" (mk_world (filled 10 "b") [] [])
    = Bug (mk_world (filled 10 "b") [] []).
Proof.
  split.
  - apply (find_list_unregistered "subnode_1" boot). simpl. tauto.
  - apply (find_list_unregistered "subnode_1" (mk_world (filled 10 "b") [] [])).
    vm_compute. intros H. repeat (destruct H as [H|H]; [discriminate H|]). exact H.
Defined.

(** X2. While the registry fits its array, looking up a registered name
    returns the first slot that holds the name and changes nothing: no
    slot is taken and no list is touched. *)
Theorem find_list_registered (name : string) (w : world) :
  (length (dt_nodes w) <= 10)%nat ->
  In name (names w) ->
  exists li node,
    find_list name w = Done li w /\
    dt_nodes w !! li = Some node /\ n_name node = name /\
    ~ In name (List.map n_name (take li (dt_nodes w))).
Proof.
  intros Hlen Hin.
  destruct (find_list_in_present (dt_nodes w) name 0 Hlen Hin)
    as (li & node & Hf & Hat & Hname & Hfirst).
  exists li, node. unfold find_list. rewrite Hf. auto.
Qed.

Lemma find_list_registered_witness :
  exists li node,
    find_list "aaaaaaaaab" (mk_world (filled 10 "b") [] [])
      = Done li (mk_world (filled 10 "b") [] []) /\
    filled 10 "b" !! li = Some node /\ n_name node = "aaaaaaaaab" /\
    ~ In "aaaaaaaaab" (List.map n_name (take li (filled 10 "b"))).
Proof.
  apply (find_list_registered "aaaaaaaaab" (mk_world (filled 10 "b") [] [])).
  - simpl. lia.
  - vm_compute. tauto.
Defined.

Lemma find_list_in_snoc_other nodes name other : other <> name -> forall idx k,
  find_list_in (nodes ++ [mk_node name []]) idx other = Found k <->
  find_list_in nodes idx other = Found k.
Proof.
  intros Hne. induction nodes as [|n nodes IH]; intros idx k; cbn [find_list_in app].
  - cbn [n_name]. assert (E : STREQ name other = false).
    { unfold STREQ. apply String.eqb_neq. congruence. }
    rewrite E. destruct (S idx =? 10)%nat; split; discriminate.
  - destruct (STREQ (n_name n) other); [tauto|].
    destruct (S idx =? 10)%nat; [tauto|]. apply IH.
Qed.

(** X3. Registering and looking up agree: once [find_list] has returned a
    slot for a name, looking the name up again returns the same slot and
    changes nothing, the slot holds that name, and every other name is
    found exactly where it was found before. *)
Theorem find_list_round_trip (name : string) (w w' : world) (li : nat) :
  find_list name w = Done li w' ->
  find_list name w' = Done li w' /\
  (exists node, dt_nodes w' !! li = Some node /\ n_name node = name) /\
  forall other k, other <> name ->
    (find_list_in (dt_nodes w') 0 other = Found k <->
     find_list_in (dt_nodes w) 0 other = Found k).
Proof.
  intros H. destruct (find_list_Done _ _ _ _ H) as (_ & _ & Hf & Hcase).
  split; [unfold find_list; rewrite Hf; reflexivity|]. split.
  - destruct (find_list_in_Found _ _ _ _ Hf) as (_ & n & Hn & Hname).
    rewrite Nat.sub_0_r in Hn. eauto.
  - intros other k Hne.
    destruct Hcase as [[_ ->] | (_ & -> & _)]; [tauto|].
    apply find_list_in_snoc_other. exact Hne.
Qed.

Lemma find_list_round_trip_witness :
  let w := mk_world [mk_node "subnode_1" [zero_action]] [] [] in
  let w' := mk_world [mk_node "subnode_1" [zero_action]; mk_node "subnode_2" []] [] [] in
  find_list "subnode_2" w' = Done 1%nat w' /\
  (exists node, dt_nodes w' !! 1%nat = Some node /\ n_name node = "subnode_2") /\
  forall other k, other <> "subnode_2" ->
    (find_list_in (dt_nodes w') 0 other = Found k <->
     find_list_in (dt_nodes w) 0 other = Found k).
Proof.
  intros w w'. apply (find_list_round_trip "subnode_2" w w' 1). reflexivity.
Defined.

(** *** What [run_list] does to the registry *)

Section Registry.

Variable R : world -> world -> Prop.
Hypothesis R_refl : forall w, R w w.
Hypothesis R_trans : forall w1 w2 w3, R w1 w2 -> R w2 w3 -> R w1 w3.
Hypothesis R_append : forall w w' li added,
  dt_nodes w' = append_to li added (dt_nodes w) -> R w w'.
Hypothesis R_register : forall w name,
  ~ In name (names w) -> (length (dt_nodes w) < 10)%nat ->
  R w (mk_world (dt_nodes w ++ [mk_node name []]) (timers w) (trace w)).

Lemma steps_find_list name : steps R (find_list name).
Proof.
  intros w. unfold find_list.
  destruct (find_list_in (dt_nodes w) 0 name) eqn:E; simpl; auto.
  destruct (find_list_in_NotFound _ _ 0 ltac:(lia) E) as (Hnot & Hlen).
  apply R_register; [exact Hnot|simpl in Hlen; exact Hlen].
Qed.

Lemma steps_appends_at Q li {A} (m : M A) : appends_at Q li m -> steps R m.
Proof. intros H w. destruct (H w) as (added & E & _). exact (R_append _ _ _ _ E). Qed.

Lemma steps_keeps_nodes {A} (m : M A) : keeps_nodes m -> steps R m.
Proof.
  intros H. apply (steps_appends_at (fun _ => true) 0). apply appends_keeps. exact H.
Qed.

Lemma steps_run_list P name : steps R (run_list P name).
Proof.
  unfold run_list.
  apply (steps_bind R R_trans); [apply steps_find_list|intros lh].
  apply (steps_bind R R_trans); [intros w0; apply R_refl|intros w0].
  apply (steps_bind R R_trans).
  - destruct (list_empty _); [|apply (steps_ret R R_refl)].
    apply (steps_bind R R_trans); [|intros _; apply (steps_ret R R_refl)].
    exact (steps_appends_at _ _ _ (make_list_appends P lh name)).
  - intros _. apply (steps_bind R R_trans); [|intros _; apply (steps_ret R R_refl)].
    exact (steps_keeps_nodes _ (do_list_keeps_nodes P lh)).
Qed.

Lemma steps_run_lists P ns : steps R (run_lists P ns).
Proof.
  induction ns as [|name ns IH]; simpl; [apply (steps_ret R R_refl)|].
  apply (steps_bind R R_trans); [apply steps_run_list|intros _; exact IH].
Qed.

End Registry.

Lemma registry_grows_refl w : registry_grows w w.
Proof.
  intros li [name l] H. exists []. simpl. rewrite app_nil_r. exact H.
Qed.

Lemma registry_grows_trans w1 w2 w3 :
  registry_grows w1 w2 -> registry_grows w2 w3 -> registry_grows w1 w3.
Proof.
  intros H12 H23 li n H. destruct (H12 li n H) as (a1 & H1).
  destruct (H23 li _ H1) as (a2 & H2). simpl in H2.
  exists (a1 ++ a2). rewrite app_assoc. exact H2.
Qed.

Lemma registry_grows_append w w' li added :
  dt_nodes w' = append_to li added (dt_nodes w) -> registry_grows w w'.
Proof.
  intros E k n H. rewrite E. unfold append_to.
  destruct (Nat.eq_dec li k) as [->|Hne].
  - exists added. rewrite list_lookup_alter_eq, H. reflexivity.
  - exists []. rewrite list_lookup_alter_ne by exact Hne.
    rewrite H, app_nil_r. destruct n; reflexivity.
Qed.

Lemma registry_grows_register w name :
  registry_grows w (mk_world (dt_nodes w ++ [mk_node name []]) (timers w) (trace w)).
Proof.
  intros k n H. exists []. cbn [dt_nodes].
  rewrite (lookup_app_l_Some _ _ _ _ H), app_nil_r. destruct n; reflexivity.
Qed.

(** X4. Whatever sequences are run, on whatever board and however the
    runs end, a registered sequence is never dropped, moved or renamed,
    and no action is ever removed from its list or reordered: the list
    only gains actions at its tail. *)
Theorem run_lists_registry_grows (P : platform) (ns : list string) (w : world) :
  registry_grows w (world_of (run_lists P ns w)).
Proof.
  apply (steps_run_lists registry_grows).
  - apply registry_grows_refl.
  - apply registry_grows_trans.
  - apply registry_grows_append.
  - intros w0 name _ _. apply registry_grows_register.
Qed.

(** X5. The registry stays within its array of ten slots and never holds
    a name twice, whatever sequences are run and however the runs end. *)
Theorem run_lists_registry_ok (P : platform) (ns : list string) (w : world) :
  registry_ok w -> registry_ok (world_of (run_lists P ns w)).
Proof.
  apply (steps_run_lists (fun w w' => registry_ok w -> registry_ok w')); auto.
  - intros w0 w1 li added E [Hlen Hnd]. unfold registry_ok, names.
    rewrite E, length_append_to, names_append_to. auto.
  - intros w0 name Hnot Hlen [_ Hnd]. unfold registry_ok, names. cbn [dt_nodes].
    rewrite List.length_app, List.map_app. simpl. split; [lia|].
    apply List.NoDup_app; [exact Hnd|repeat constructor; intros []|].
    intros x Hx [<-|[]]. exact (Hnot Hx).
Qed.

Lemma run_lists_registry_ok_witness :
  registry_ok
    (world_of (run_lists (Board.board 1 (Board.ticking 0))
                 ["subnode_1"; "odd"; "subnode_1"] boot)).
Proof.
  apply (run_lists_registry_ok (Board.board 1 (Board.ticking 0))
           ["subnode_1"; "odd"; "subnode_1"] boot).
  split; [simpl; lia|constructor].
Defined.

(** ** The type of an action *)

Lemma prefix_app s : forall ty,
  String.prefix s ty = true -> exists rest, ty = (s ++ rest)%string.
Proof.
  induction s as [|a s IH]; intros ty H; [exists ty; reflexivity|].
  destruct (prefix_head _ _ _ H) as [rest ->]. simpl in H.
  destruct (ascii_dec a a) as [_|Hne]; [|discriminate].
  destruct (IH _ H) as [rest' ->]. exists rest'. reflexivity.
Qed.

(** X6. [decide_type] matches the type string by prefix. A type that
    begins with an entry of [action_list] resolves to the kind of that
    entry, whatever follows the entry in the string, and [decide_type]
    returns 0; a non-empty type that begins with no entry leaves the
    action an [ACTION_DUMMY] and returns [-EINVAL]. *)
Theorem decide_type_by_prefix (action : action_info) (ty : string) :
  a_type action = Some ty -> ty <> EmptyString ->
  (forall k s, In (k, s) action_list -> STRNEQ s ty = true ->
     decide_type action = (0, set_idx action (idx_of k))) /\
  ((forall k s, In (k, s) action_list -> STRNEQ s ty = false) ->
     decide_type action = (- EINVAL, set_idx action (idx_of ACTION_DUMMY))).
Proof.
  intros Hty Hne. split.
  - intros k s Hin Hp. unfold STRNEQ in Hp. apply prefix_app in Hp as [rest ->].
    unfold decide_type. rewrite Hty. simpl in Hin.
    repeat (destruct Hin as [Hin|Hin];
            [injection Hin as <- <-; destruct rest; reflexivity|]).
    destruct Hin.
  - intros Hno. unfold decide_type. rewrite Hty.
    destruct ty as [|c ty']; [congruence|].
    assert (Hpin : STRNEQ "pinctrl" (String c ty') = false).
    { apply (Hno ACTION_PINCTRL). simpl. tauto. }
    rewrite Hpin.
    destruct (match_action_list_cases action_list (String c ty'))
      as [E | (k & s & Hin & Hp & _)]; [rewrite E; reflexivity|].
    rewrite (Hno k s Hin) in Hp. discriminate Hp.
Qed.

Lemma decide_type_by_prefix_witness :
  let action := new_action (Some "regulator,enable (ldo1)") (Some "ldo1") in
  (forall k s, In (k, s) action_list -> STRNEQ s "regulator,enable (ldo1)" = true ->
     decide_type action = (0, set_idx action (idx_of k))) /\
  ((forall k s, In (k, s) action_list -> STRNEQ s "regulator,enable (ldo1)" = false) ->
     decide_type action = (- EINVAL, set_idx action (idx_of ACTION_DUMMY))).
Proof.
  intros action.
  apply (decide_type_by_prefix action "regulator,enable (ldo1)");
    [reflexivity|discriminate].
Defined.

(** ** The timers *)

Lemma timers_grow_refl w : timers_grow w w.
Proof. intros p t H. eauto. Qed.

Lemma timers_grow_trans w1 w2 w3 :
  timers_grow w1 w2 -> timers_grow w2 w3 -> timers_grow w1 w3.
Proof.
  intros H12 H23 p t H. destruct (H12 p t H) as (t2 & H2 & N2).
  destruct (H23 p t2 H2) as (t3 & H3 & N3). exists t3. split; [exact H3|congruence].
Qed.

Lemma timers_grow_same w w' : timers w' = timers w -> timers_grow w w'.
Proof. intros E p t H. unfold timers_grow. rewrite E. eauto. Qed.

Lemma timers_kept_length tm tm' : timers_kept tm tm' -> (length tm <= length tm')%nat.
Proof.
  intros H. destruct (Nat.le_gt_cases (length tm) (length tm')) as [|Hgt]; [assumption|].
  destruct (lookup_lt_is_Some_2 tm (length tm') Hgt) as [t Ht].
  destruct (H _ _ Ht) as (t' & Ht' & _). apply lookup_lt_Some in Ht'. lia.
Qed.

Lemma grows_bind {A B} (m : M A) (k : A -> M B) :
  grows m -> (forall a, grows (k a)) -> grows (bind m k).
Proof. apply steps_bind. exact timers_grow_trans. Qed.

(** A bind whose continuation may use what the first part returned. *)
Lemma grows_bind_at {A B} (m : M A) (k : A -> M B) w :
  timers_grow w (world_of (m w)) ->
  (forall a w', m w = Done a w' -> timers_grow w' (world_of (k a w'))) ->
  timers_grow w (world_of (bind m k w)).
Proof.
  intros Hm Hk. unfold bind. destruct (m w) as [a w'| w' | w'] eqn:E; simpl in Hm; auto.
  exact (timers_grow_trans _ _ _ Hm (Hk a w' eq_refl)).
Qed.

Lemma grows_ret {A} (a : A) : grows (ret a).
Proof. intros w. apply timers_grow_refl. Qed.

Lemma grows_BUG {A} : grows (@BUG A).
Proof. intros w. apply timers_grow_refl. Qed.

Lemma grows_oops {A} : grows (@oops A).
Proof. intros w. apply timers_grow_refl. Qed.

Lemma grows_emit e : grows (emit e).
Proof. intros w. apply timers_grow_same. reflexivity. Qed.

Lemma grows_get_world : grows get_world.
Proof. intros w. apply timers_grow_refl. Qed.

Lemma grows_list_add_tail li a : grows (list_add_tail li a).
Proof. intros w. apply timers_grow_same. reflexivity. Qed.

Lemma grows_clock P : grows (clock P).
Proof. intros w. apply timers_grow_same. reflexivity. Qed.

Lemma grows_timer_load p : grows (timer_load p).
Proof.
  intros w. unfold timer_load. destruct p as [i|]; [|apply timers_grow_refl].
  destruct (timers w !! i); apply timers_grow_refl.
Qed.

Lemma grows_find_timer name : grows (find_timer name).
Proof.
  intros w. unfold find_timer.
  destruct (find_timer_in_nodes _ _ _ _); try apply timers_grow_refl.
  intros p t H. simpl. exists t. split; [|reflexivity].
  apply lookup_app_l_Some. exact H.
Qed.

Lemma grows_find_list name : grows (find_list name).
Proof.
  intros w. unfold find_list.
  destruct (find_list_in _ _ _); try apply timers_grow_refl.
  apply timers_grow_same. reflexivity.
Qed.

(** Storing through a pointer keeps the timers when the name stays. *)
Lemma timer_store_grows i t t' w :
  timers w !! i = Some t -> t_name t' = t_name t ->
  timers_grow w (world_of (timer_store (Some i) t' w)).
Proof.
  intros Hi Hn. unfold timer_store.
  destruct (i <? length (timers w))%nat; [|apply timers_grow_refl].
  intros p t0 Hp. simpl. destruct (Nat.eq_dec i p) as [->|Hne].
  - exists t'. rewrite list_lookup_insert_eq by (eapply lookup_lt_Some; eassumption).
    split; [reflexivity|congruence].
  - exists t0. rewrite list_lookup_insert_ne by exact Hne. auto.
Qed.

Lemma clock_timers P w x w' : clock P w = Done x w' -> timers w' = timers w.
Proof. intros H. injection H as _ <-. reflexivity. Qed.

Lemma grows_timer_clear action : grows (timer_clear action).
Proof.
  intros w. unfold timer_clear.
  apply grows_bind_at; [apply grows_timer_load|intros t w1 Hl].
  destruct (timer_load_Done _ _ _ _ Hl) as (-> & i & -> & Hi).
  apply (timer_store_grows i t); [exact Hi|reflexivity].
Qed.

#[local] Hint Resolve grows_ret grows_BUG grows_oops grows_emit grows_get_world
  grows_list_add_tail grows_clock grows_timer_load grows_find_timer grows_find_list
  grows_timer_clear : driver.

Ltac walk_grows :=
  repeat first
    [ solve [auto with driver]
    | apply grows_bind; [|intros ?]
    | match goal with
      | |- context [match ?x with _ => _ end] => destruct x
      end ].

(** States a goal about one start world as a goal about the computation. *)
Ltac as_grows :=
  match goal with
  | |- timers_grow ?w (world_of (?m ?w)) => generalize w; change (grows m)
  end.

Lemma grows_timer_delay P action : grows (timer_delay P action).
Proof.
  intros w. unfold timer_delay.
  apply grows_bind_at; [apply grows_clock|intros now w1 Hc].
  apply grows_bind_at; [apply grows_timer_load|intros t w2 Hl].
  destruct (timer_load_Done _ _ _ _ Hl) as (-> & i & Hp & Hi). rewrite Hp.
  cbv zeta. apply grows_bind_at.
  - apply (timer_store_grows i t); [exact Hi|reflexivity].
  - intros _ w3 _. as_grows. unfold msleep, usleep_range. cbn [t_end t_now t_delay].
    walk_grows.
Qed.

Lemma grows_do_action P r action : grows (do_action P r action).
Proof.
  unfold do_action, msleep, mdelay, usleep_range.
  destruct (kind_of (a_idx action)) as [[]|]; try solve [walk_grows].
  - intros w.
    apply grows_bind_at; [apply grows_clock|intros start w1 Hc].
    apply grows_bind_at; [apply grows_timer_load|intros t w2 Hl].
    destruct (timer_load_Done _ _ _ _ Hl) as (-> & i & Hp & Hi). rewrite Hp.
    apply grows_bind_at; [|intros _ w3 _; apply grows_ret].
    apply (timer_store_grows i t); [exact Hi|reflexivity].
  - apply grows_bind; [apply grows_timer_delay|intros [|]; walk_grows].
Qed.

Lemma grows_do_list_loop P l : forall r, grows (do_list_loop P l r).
Proof.
  induction l as [|a l IH]; intros r; simpl; [auto with driver|].
  apply grows_bind; [apply grows_do_action|intros r'; apply IH].
Qed.

Lemma grows_do_list P li : grows (do_list P li).
Proof.
  unfold do_list.
  apply grows_bind; [auto with driver|intros _].
  apply grows_bind; [auto with driver|intros w'].
  apply grows_bind; [apply grows_do_list_loop|intros r].
  destruct (r <? 0); auto with driver.
Qed.

Lemma grows_decide_subinfo P action : grows (decide_subinfo P action).
Proof.
  unfold decide_subinfo.
  destruct (a_subinfo action) as [[|c sub]|]; [auto with driver| |auto with driver].
  destruct (kind_of (a_idx action)) as [[]|]; try solve [walk_grows].
  destruct (sscanf_s_8d _) as [[r name] d]. cbv zeta.
  apply grows_bind; [|intros [r' a']; walk_grows].
  destruct (negb (r =? 2)); [auto with driver|].
  apply grows_bind; [auto with driver|intros p]. cbn [a_timer set_timer].
  intros w.
  apply grows_bind_at; [apply grows_timer_load|intros t w1 Hl].
  destruct (timer_load_Done _ _ _ _ Hl) as (-> & i & Hp & Hi). rewrite Hp.
  apply grows_bind_at; [|intros _ w3 _; apply grows_ret].
  apply (timer_store_grows i t); [exact Hi|reflexivity].
Qed.

Lemma grows_attach_desc np count i action : grows (attach_desc np count i action).
Proof. unfold attach_desc. walk_grows. Qed.

Lemma grows_skip_pair P type : grows (skip_pair P type).
Proof. unfold skip_pair. walk_grows. Qed.

Lemma grows_make_list_turn P np li count i type subinfo r :
  grows (make_list_turn P np li count i type subinfo r).
Proof.
  unfold make_list_turn.
  apply grows_bind; [auto with driver|intros _].
  apply grows_bind; [auto with driver|intros _].
  apply grows_bind; [apply grows_skip_pair|intros [|]]; [auto with driver|].
  apply grows_bind; [auto with driver|intros _].
  destruct (decide_type _) as [r0 a0].
  destruct (r0 <? 0); [auto with driver|].
  apply grows_bind; [apply grows_decide_subinfo|intros [r1 a1]].
  destruct (r1 <? 0); walk_grows.
Qed.

Lemma grows_make_list_loop P np li count fuel : forall i type subinfo r,
  grows (make_list_loop P np li count fuel i type subinfo r).
Proof.
  induction fuel as [|fuel IH]; intros i type subinfo r; simpl; [auto with driver|].
  apply grows_bind; [apply grows_make_list_turn|].
  intros [ty su r'|r']; [apply IH|auto with driver].
Qed.

Lemma grows_make_list P li name : grows (make_list P li name).
Proof.
  unfold make_list, add_dummy.
  apply grows_bind; [auto with driver|intros _].
  destruct (decon_board_np P); [|walk_grows].
  apply grows_bind; [auto with driver|intros _].
  destruct (of_find_node_by_name P name) as [np|]; [|walk_grows].
  apply grows_bind; [auto with driver|intros _].
  destruct (_ || _); [walk_grows|].
  apply grows_bind; [apply grows_make_list_loop|intros r].
  destruct (r <? 0); walk_grows.
Qed.

Lemma grows_run_list P name : grows (run_list P name).
Proof.
  unfold run_list.
  apply grows_bind; [auto with driver|intros lh].
  apply grows_bind; [auto with driver|intros w0].
  apply grows_bind.
  - destruct (list_empty _); [|auto with driver].
    apply grows_bind; [apply grows_make_list|auto with driver].
  - intros _. apply grows_bind; [apply grows_do_list|auto with driver].
Qed.

(** X7. A timer, once allocated, is never freed, moved or renamed: after
    any runs, on whatever board and however they end, every timer that
    existed before is still at its place under its name. *)
Theorem run_lists_keep_timers (P : platform) (ns : list string) (w : world)
  (p : nat) (t : timer_info) :
  timers w !! p = Some t ->
  exists t', timers (world_of (run_lists P ns w)) !! p = Some t' /\
             t_name t' = t_name t.
Proof.
  revert p t. change (timers_grow w (world_of (run_lists P ns w))). revert w.
  change (grows (run_lists P ns)).
  induction ns as [|name ns IH]; simpl; [apply grows_ret|].
  apply grows_bind; [apply grows_run_list|intros _; exact IH].
Qed.

Lemma run_lists_keep_timers_witness :
  exists t',
    timers (world_of (run_lists (Board.board 1 (Board.ticking 1000))
                        ["subnode_3"; "subnode_2"; "subnode_3"]
                        (Board.armed 300000000 300))) !! 0%nat = Some t' /\
    t_name t' = "loading".
Proof.
  apply (run_lists_keep_timers (Board.board 1 (Board.ticking 1000))
           ["subnode_3"; "subnode_2"; "subnode_3"] (Board.armed 300000000 300)
           0%nat (mk_timer "loading" 0 300000000 0 300)).
  reflexivity.
Defined.

(** *** find_timer *)

Lemma bind_inv {A B} (m : M A) (k : A -> M B) w b w' :
  bind m k w = Done b w' -> exists a w1, m w = Done a w1 /\ k a w1 = Done b w'.
Proof.
  unfold bind. destruct (m w) as [a w1| |]; try discriminate. eauto.
Qed.

Lemma find_timer_in_list_Found tm l name p :
  find_timer_in_list tm l name = Found p ->
  exists a ty t, In a l /\ a_type a = Some ty /\ STRNEQ "timer" ty = true /\
    a_timer a = Some p /\ tm !! p = Some t /\ t_name t = name.
Proof.
  induction l as [|a l IH]; cbn [find_timer_in_list]; [discriminate|].
  destruct (a_type a) as [ty|] eqn:Ety; [|discriminate].
  assert (Hrest : find_timer_in_list tm l name = Found p ->
            exists a0 ty0 t, In a0 (a :: l) /\ a_type a0 = Some ty0 /\
              STRNEQ "timer" ty0 = true /\ a_timer a0 = Some p /\
              tm !! p = Some t /\ t_name t = name).
  { intros H. destruct (IH H) as (a' & ty' & t & Hin & H'). exists a', ty', t.
    split; [right; exact Hin|exact H']. }
  destruct (STRNEQ "timer" ty) eqn:Epre; [|exact Hrest].
  destruct (a_timer a) as [q|] eqn:Etm; [|exact Hrest].
  destruct (tm !! q) as [t|] eqn:Eq; [|discriminate].
  destruct (STREQ (t_name t) name) eqn:En; [|exact Hrest].
  intros H. injection H as <-. exists a, ty, t.
  unfold STREQ in En. apply String.eqb_eq in En. repeat split; auto. left. reflexivity.
Qed.

Lemma find_timer_in_nodes_Found tm nodes name p : forall idx,
  find_timer_in_nodes tm nodes idx name = Found p ->
  exists n a ty t, In n nodes /\ In a (n_node n) /\ a_type a = Some ty /\
    STRNEQ "timer" ty = true /\ a_timer a = Some p /\ tm !! p = Some t /\ t_name t = name.
Proof.
  induction nodes as [|n nodes IH]; intros idx; cbn [find_timer_in_nodes]; [discriminate|].
  destruct (find_timer_in_list tm (n_node n) name) as [q| | |] eqn:E; try discriminate.
  - intros H. injection H as ->.
    destruct (find_timer_in_list_Found _ _ _ _ E) as (a & ty & t & Hin & H').
    exists n, a, ty, t. split; [left; reflexivity|]. split; [exact Hin|exact H'].
  - destruct (S idx =? 10)%nat; [discriminate|]. intros H.
    destruct (IH _ H) as (n' & a & ty & t & Hin & H').
    exists n', a, ty, t. split; [right; exact Hin|exact H'].
Qed.

Lemma find_timer_spec (name : string) (w w' : world) (p : nat) :
  find_timer name w = Done p w' ->
  (exists t, timers w' !! p = Some t /\ t_name t = name) /\
  ((w' = w /\
    exists n a ty, In n (dt_nodes w) /\ In a (n_node n) /\ a_type a = Some ty /\
      STRNEQ "timer" ty = true /\ a_timer a = Some p) \/
   (w' = mk_world (dt_nodes w) (timers w ++ [mk_timer name 0 0 0 0]) (trace w) /\
    p = length (timers w))).
Proof.
  unfold find_timer.
  destruct (find_timer_in_nodes (timers w) (dt_nodes w) 0 name) as [q| | |] eqn:E;
    try discriminate; intros H; injection H as <- <-.
  - destruct (find_timer_in_nodes_Found _ _ _ _ _ E)
      as (n & a & ty & t & Hn & Ha & Hty & Hpre & Htm & Hq & Hname).
    split; [eauto|]. left. split; [reflexivity|]. exists n, a, ty. auto.
  - split; [|right; auto]. exists (mk_timer name 0 0 0 0). cbn [timers].
    rewrite lookup_app_r by lia. rewrite Nat.sub_diag. auto.
Qed.

(** X8. [find_timer] returns a timer that carries the requested name.
    It is either the timer of an action already linked to a registered
    list, whose type begins with ["timer"], and then nothing changes; or a
    timer allocated at the end of the heap with every field zero, and then
    no other timer and no list changes. *)
Theorem find_timer_returns_named (name : string) (w w' : world) (p : nat) :
  find_timer name w = Done p w' ->
  (exists t, timers w' !! p = Some t /\ t_name t = name) /\
  ((w' = w /\
    exists n a ty, In n (dt_nodes w) /\ In a (n_node n) /\ a_type a = Some ty /\
      STRNEQ "timer" ty = true /\ a_timer a = Some p) \/
   (w' = mk_world (dt_nodes w) (timers w ++ [mk_timer name 0 0 0 0]) (trace w) /\
    p = length (timers w))).
Proof. apply find_timer_spec. Qed.

Lemma find_timer_returns_named_witness :
  let w := mk_world [mk_node "subnode_3" [Board.await]] [mk_timer "loading" 7 8 9 300] [] in
  (exists t, timers w !! 0%nat = Some t /\ t_name t = "loading") /\
  ((w = w /\
    exists n a ty, In n (dt_nodes w) /\ In a (n_node n) /\ a_type a = Some ty /\
      STRNEQ "timer" ty = true /\ a_timer a = Some 0%nat) \/
   (w = mk_world (dt_nodes w) (timers w ++ [mk_timer "loading" 0 0 0 0]) (trace w) /\
    0%nat = length (timers w))).
Proof.
  intros w. apply (find_timer_returns_named "loading" w w 0). reflexivity.
Defined.

Lemma find_timer_Done name w p w' :
  find_timer name w = Done p w' ->
  (p < length (timers w'))%nat /\ dt_nodes w' = dt_nodes w.
Proof.
  intros H. destruct (find_timer_spec _ _ _ _ H) as ((t & Ht & _) & Hcase).
  split; [eapply lookup_lt_Some; eassumption|].
  destruct Hcase as [[-> _] | [-> _]]; reflexivity.
Qed.

Lemma timer_store_Done p t w w' :
  timer_store p t w = Done tt w' ->
  length (timers w') = length (timers w) /\ dt_nodes w' = dt_nodes w.
Proof.
  unfold timer_store. destruct p as [i|]; [|discriminate].
  destruct (i <? length (timers w))%nat; [|discriminate].
  intros H. injection H as <-. cbn [timers dt_nodes]. rewrite length_insert. auto.
Qed.

(** *** What decide_subinfo accepts *)

Lemma delay_usleep_fields action subinfo :
  0 <= fst (delay_usleep action subinfo) ->
  let a := snd (delay_usleep action subinfo) in
  negb (a_delay0 a =? 0) && negb (a_delay1 a =? 0) &&
  (a_delay0 a <=? a_delay1 a) && (a_delay0 a <? MSEC_TO_USEC SMALL_MSECS) = true /\
  a_subinfo a = a_subinfo action.
Proof.
  unfold delay_usleep.
  destruct (first_char subinfo) as [c|]; [|simpl; unfold EINVAL; lia].
  destruct (isdigit c); [|simpl; unfold EINVAL; lia].
  destruct (sscanf_8d_8d subinfo) as [[r v0] v1].
  set (a1 := set_delay1 (set_delay0 action _) _).
  assert (Hfin : forall r' a',
            a_subinfo a' = a_subinfo action ->
            0 <= fst ((if (a_delay0 a' =? 0) || (a_delay1 a' =? 0) then - EINVAL
                       else if a_delay1 a' <? a_delay0 a' then - EINVAL
                       else if MSEC_TO_USEC SMALL_MSECS <=? a_delay0 a' then - EINVAL
                       else r'), a') ->
            negb (a_delay0 a' =? 0) && negb (a_delay1 a' =? 0) &&
            (a_delay0 a' <=? a_delay1 a') && (a_delay0 a' <? MSEC_TO_USEC SMALL_MSECS) = true /\
            a_subinfo a' = a_subinfo action).
  { intros r' a' Hsu H. split; [|exact Hsu]. cbn [fst] in H.
    destruct (a_delay0 a' =? 0); [simpl in H; unfold EINVAL in H; lia|].
    destruct (a_delay1 a' =? 0); [simpl in H; unfold EINVAL in H; lia|].
    destruct (a_delay1 a' <? a_delay0 a') eqn:E1; [simpl in H; unfold EINVAL in H; lia|].
    destruct (MSEC_TO_USEC SMALL_MSECS <=? a_delay0 a') eqn:E2;
      [simpl in H; unfold EINVAL in H; lia|].
    apply Z.ltb_ge in E1. apply Z.leb_gt in E2. simpl.
    apply andb_true_intro. split; [apply Z.leb_le; lia|apply Z.ltb_lt; lia]. }
  destruct (r <? 0); [apply Hfin; reflexivity|].
  destruct (r <? 2); [apply Hfin; reflexivity|].
  destruct (2 <? r); apply Hfin; reflexivity.
Qed.

(** What [decide_subinfo] accepts is resolved: when it returns a result
    that is not negative, the fields the executor will read are all there. *)
Lemma decide_subinfo_resolves P a0 w r a1 w' :
  decide_subinfo P a0 w = Done (r, a1) w' -> 0 <= r ->
  fields_resolved P (length (timers w')) a1 = true.
Proof.
  unfold decide_subinfo. intros H Hr.
  destruct (a_subinfo a0) as [[|c sub]|] eqn:Esu;
    [injection H as <- _ _; unfold EINVAL in Hr; lia| |
     injection H as <- _ _; unfold EINVAL in Hr; lia].
  destruct (kind_of (a_idx a0)) as [[]|] eqn:Ek;
    try (injection H as <- _ _; unfold EINVAL in Hr; lia).
  - (* gpio,high *)
    unfold bind, emit, ret in H. injection H as <- <- <-.
    unfold fields_resolved. cbn [a_subinfo a_idx a_gpio set_gpio]. rewrite Esu, Ek.
    destruct (gpio_is_valid _ _); [reflexivity|unfold EINVAL in Hr; lia].
  - (* gpio,low *)
    unfold bind, emit, ret in H. injection H as <- <- <-.
    unfold fields_resolved. cbn [a_subinfo a_idx a_gpio set_gpio]. rewrite Esu, Ek.
    destruct (gpio_is_valid _ _); [reflexivity|unfold EINVAL in Hr; lia].
  - (* regulator,enable *)
    unfold bind, emit in H. destruct (regulator_bulk_get P _) as [r0 c0].
    injection H as <- <- <-.
    unfold fields_resolved. cbn [a_subinfo a_idx a_supply set_supply supply].
    rewrite Esu, Ek, String.eqb_refl. reflexivity.
  - (* regulator,disable *)
    unfold bind, emit in H. destruct (regulator_bulk_get P _) as [r0 c0].
    injection H as <- <- <-.
    unfold fields_resolved. cbn [a_subinfo a_idx a_supply set_supply supply].
    rewrite Esu, Ek, String.eqb_refl. reflexivity.
  - (* delay,mdelay *)
    destruct (first_char _) as [c'|];
      [|injection H as <- _ _; unfold EINVAL in Hr; lia].
    destruct (isdigit c'); [|injection H as <- _ _; unfold EINVAL in Hr; lia].
    destruct (kstrtouint _) as [r0 v]. injection H as <- <- <-.
    unfold fields_resolved. cbn [a_subinfo a_idx set_delay0]. rewrite Esu, Ek. reflexivity.
  - (* delay,msleep *)
    destruct (first_char _) as [c'|];
      [|injection H as <- _ _; unfold EINVAL in Hr; lia].
    destruct (isdigit c'); [|injection H as <- _ _; unfold EINVAL in Hr; lia].
    destruct (kstrtouint _) as [r0 v]. injection H as <- <- <-.
    unfold fields_resolved. cbn [a_subinfo a_idx set_delay0]. rewrite Esu, Ek. reflexivity.
  - (* delay,usleep *)
    unfold ret in H. injection H as Hd <-.
    pose proof (delay_usleep_fields a0 (String c sub)) as Hf.
    pose proof (delay_usleep_keeps a0 (String c sub)) as [Hidx _].
    rewrite Hd in Hf, Hidx. cbn [fst snd] in Hf, Hidx.
    destruct (Hf Hr) as [Hchk Hsu].
    unfold fields_resolved. rewrite Hsu, Esu, Hidx, Ek, Hchk. reflexivity.
  - (* pinctrl *)
    unfold bind at 1, emit at 1 in H.
    destruct (of_find_device_by_node P);
      [|injection H as <- _ _; unfold EINVAL in Hr; lia].
    unfold bind, emit, ret in H. injection H as <- <- <-.
    unfold fields_resolved. cbn [a_subinfo a_idx a_pins a_state set_pins set_state].
    rewrite Esu, Ek.
    destruct (IS_ERR (pinctrl_lookup_state P _ _)); [unfold EINVAL in Hr; lia|].
    destruct (IS_ERR (devm_pinctrl_get P)); [unfold EINVAL in Hr; lia|reflexivity].
  - (* timer,start *)
    destruct (sscanf_s_8d _) as [[r0 name] d]. cbv zeta in H.
    apply bind_inv in H as ([r1 a2] & w1 & H1 & H2).
    apply bind_inv in H2 as (t & w2 & Hl & H2).
    injection H2 as <- <- <-.
    destruct (negb (r0 =? 2)).
    { injection H1 as <- _ _. destruct (t_delay t <? SMALL_MSECS); unfold EINVAL in Hr; lia. }
    apply bind_inv in H1 as (p & w3 & Hf & H1).
    apply bind_inv in H1 as (t0 & w4 & Hl0 & H1).
    apply bind_inv in H1 as ([] & w5 & Hs & H1).
    injection H1 as <- <- <-.
    destruct (find_timer_Done _ _ _ _ Hf) as [Hp _].
    destruct (timer_load_Done _ _ _ _ Hl0) as (-> & _).
    destruct (timer_store_Done _ _ _ _ Hs) as [Hlen _].
    destruct (timer_load_Done _ _ _ _ Hl) as (-> & _).
    unfold fields_resolved. cbn [a_subinfo a_idx a_timer set_timer]. rewrite Esu, Ek.
    simpl. apply Nat.ltb_lt. lia.
  - (* timer,delay *)
    apply bind_inv in H as (p & w1 & Hf & H). injection H as <- <- <-.
    destruct (find_timer_Done _ _ _ _ Hf) as [Hp _].
    unfold fields_resolved. cbn [a_subinfo a_idx a_timer set_timer]. rewrite Esu, Ek.
    simpl. apply Nat.ltb_lt. exact Hp.
  - (* timer,clear *)
    apply bind_inv in H as (p & w1 & Hf & H). injection H as <- <- <-.
    destruct (find_timer_Done _ _ _ _ Hf) as [Hp _].
    unfold fields_resolved. cbn [a_subinfo a_idx a_timer set_timer]. rewrite Esu, Ek.
    simpl. apply Nat.ltb_lt. exact Hp.
Qed.

(** *** What the builder links *)

Lemma decide_type_matches action :
  a_idx action = idx_of ACTION_DUMMY ->
  a_idx (snd (decide_type action)) = idx_of ACTION_DUMMY \/
  type_matches (snd (decide_type action)) = true.
Proof.
  intros Hidx. unfold decide_type.
  destruct (a_type action) as [[|c ty]|] eqn:Ety; [left; exact Hidx| |left; exact Hidx].
  cbv zeta.
  destruct (STRNEQ "pinctrl" (String c ty)) eqn:Epin.
  - right. unfold type_matches. cbn [snd fst orb Z.eqb Pos.eqb idx_of a_type set_idx a_idx].
    rewrite Ety. apply existsb_exists. exists (ACTION_PINCTRL, "pinctrl").
    split; [simpl; tauto|]. cbn [fst snd idx_of]. rewrite Epin. reflexivity.
  - destruct (match_action_list_cases action_list (String c ty))
      as [E | (k & s & Hin & Hp & E)]; rewrite E; [left; reflexivity|].
    destruct ((idx_of k =? idx_of ACTION_DUMMY) || (idx_of k =? idx_of ACTION_MAX));
      [left; reflexivity|].
    right. unfold type_matches. cbn [snd a_type set_idx a_idx]. rewrite Ety.
    apply existsb_exists. exists (k, s). split; [exact Hin|].
    cbn [fst snd]. rewrite Z.eqb_refl, Hp. reflexivity.
Qed.

Lemma fields_resolved_mono P n n' a :
  (n <= n')%nat -> fields_resolved P n a = true -> fields_resolved P n' a = true.
Proof.
  intros Hle. unfold fields_resolved.
  destruct (a_subinfo a) as [su|]; [|auto].
  destruct (kind_of (a_idx a)) as [[]|]; auto;
    destruct (a_timer a) as [p|]; auto;
    rewrite !andb_true_iff, !Nat.ltb_lt; intros [? ?]; split; auto; lia.
Qed.

Lemma resolved_mono P n n' a :
  (n <= n')%nat -> resolved P n a = true -> resolved P n' a = true.
Proof.
  intros Hle. unfold resolved. rewrite !andb_true_iff. intros [? ?].
  split; [assumption|]. eapply fields_resolved_mono; eassumption.
Qed.

Lemma fields_resolved_kind P n a :
  fields_resolved P n a = true -> a_idx a <> idx_of ACTION_DUMMY.
Proof.
  unfold fields_resolved. intros H E. rewrite E in H. simpl in H.
  destruct (a_subinfo a); [rewrite andb_false_r in H|]; discriminate.
Qed.

Section Links.

Variable Q : nat -> action_info -> bool.
Hypothesis Q_mono : forall n n' a, (n <= n')%nat -> Q n a = true -> Q n' a = true.
Variable li : nat.

Lemma links_at_base {A} (m : M A) w :
  dt_nodes (world_of (m w)) = dt_nodes w -> timers_grow w (world_of (m w)) ->
  links_at Q li m w.
Proof.
  intros Hn Hg. split; [exact Hg|]. exists []. rewrite append_to_nil. auto.
Qed.

Lemma links_base {A} (m : M A) : keeps_nodes m -> grows m -> links Q li m.
Proof. intros Hn Hg w. apply links_at_base; [apply Hn|apply Hg]. Qed.

Lemma links_at_bind {A B} (m : M A) (k : A -> M B) w :
  links_at Q li m w ->
  (forall a w1, m w = Done a w1 -> links_at Q li (k a) w1) ->
  links_at Q li (bind m k) w.
Proof.
  intros (Hg & l1 & E1 & F1) Hk. unfold links_at, bind.
  destruct (m w) as [a w1| w1 | w1] eqn:E; simpl in Hg, E1, F1; [|eauto|eauto].
  destruct (Hk a w1 eq_refl) as (Hg2 & l2 & E2 & F2).
  split; [exact (timers_grow_trans _ _ _ Hg Hg2)|].
  exists (l1 ++ l2). rewrite E2, E1, append_to_app. split; [reflexivity|].
  rewrite forallb_app, F2, andb_true_r.
  apply forallb_forall. intros a' Ha'. rewrite forallb_forall in F1.
  apply (Q_mono (length (timers w1))); [|exact (F1 a' Ha')].
  apply timers_kept_length. exact Hg2.
Qed.

Lemma links_bind {A B} (m : M A) (k : A -> M B) :
  links Q li m -> (forall a, links Q li (k a)) -> links Q li (bind m k).
Proof. intros Hm Hk w. apply links_at_bind; [apply Hm|intros a w1 _; apply Hk]. Qed.

End Links.

#[local] Hint Resolve grows_decide_subinfo grows_skip_pair
  decide_subinfo_keeps_nodes skip_pair_keeps_nodes : driver.

Lemma make_list_turn_links P np li count i type subinfo r :
  links (resolved P) li (make_list_turn P np li count i type subinfo r).
Proof.
  pose proof (resolved_mono P) as Hmono.
  unfold make_list_turn.
  apply links_bind; [exact Hmono|apply links_base; auto with driver|intros _].
  apply links_bind; [exact Hmono|apply links_base; auto with driver|intros _].
  apply links_bind; [exact Hmono|apply links_base; auto with driver|intros [|]];
    [apply links_base; auto with driver|].
  apply links_bind; [exact Hmono|apply links_base; auto with driver|intros _].
  set (fresh := new_action _ _).
  pose proof (decide_type_matches fresh eq_refl) as Hty.
  destruct (decide_type fresh) as [r0 a0]. cbn [snd] in Hty.
  destruct (r0 <? 0); [apply links_base; auto with driver|].
  intros w. apply links_at_bind; [exact Hmono|apply links_base; auto with driver|].
  intros [r1 a1] w1 Hds.
  destruct (r1 <? 0) eqn:Er1; [apply links_base; auto with driver|].
  apply Z.ltb_ge in Er1.
  pose proof (decide_subinfo_resolves _ _ _ _ _ _ Hds Er1) as Hf.
  destruct (decide_subinfo_same_kind P a0 w _ _ Hds) as [Hidx Htype]. cbn [snd] in Hidx, Htype.
  assert (Hres : forall d, resolved P (length (timers w1)) (set_desc a1 d) = true).
  { intros d. unfold resolved. apply andb_true_intro. split; [|exact Hf].
    destruct Hty as [Hty|Hty].
    - exfalso. apply (fields_resolved_kind _ _ _ Hf). congruence.
    - unfold type_matches in *. cbn [a_type a_idx set_desc]. rewrite Hidx, Htype. exact Hty. }
  apply links_at_bind;
    [exact Hmono
    |apply links_base; [apply attach_desc_keeps_nodes|apply grows_attach_desc]|].
  intros a2 w2 Hat.
  pose proof (attach_desc_returns np count i a1 w1 a2 w2 Hat) as Ha2.
  pose proof (timers_kept_length _ _ (grows_attach_desc np count i a1 w1)) as Hle.
  rewrite Hat in Hle. cbn [world_of] in Hle.
  split; [apply timers_grow_same; reflexivity|].
  exists [a2]. split; [reflexivity|].
  cbn [forallb world_of bind emit list_add_tail ret timers].
  rewrite Ha2, (Hmono _ _ _ Hle (Hres _)). reflexivity.
Qed.

Lemma make_list_loop_links P np li count fuel : forall i type subinfo r,
  links (resolved P) li (make_list_loop P np li count fuel i type subinfo r).
Proof.
  induction fuel as [|fuel IH]; intros i type subinfo r; simpl.
  - apply links_base; auto with driver.
  - apply links_bind; [apply resolved_mono|apply make_list_turn_links|].
    intros [ty su r'|r']; [apply IH|apply links_base; auto with driver].
Qed.

Lemma make_list_links P li name :
  build_starts P name = true -> links (resolved P) li (make_list P li name).
Proof.
  pose proof (resolved_mono P) as Hmono.
  unfold build_starts, make_list. intros Hb.
  destruct (decon_board_np P); [|discriminate Hb].
  destruct (of_find_node_by_name P name) as [np|]; [|discriminate Hb].
  cbn [andb] in Hb. apply negb_true_iff in Hb. cbv zeta in Hb. rewrite Hb.
  apply links_bind; [exact Hmono|apply links_base; auto with driver|intros _].
  apply links_bind; [exact Hmono|apply links_base; auto with driver|intros _].
  apply links_bind; [exact Hmono|apply links_base; auto with driver|intros _].
  apply links_bind; [exact Hmono|apply make_list_loop_links|intros r].
  destruct (r <? 0); [|apply links_base; auto with driver].
  apply links_bind; [exact Hmono|apply links_base; auto with driver|intros _].
  apply links_base; [intros w; reflexivity|auto with driver].
Qed.

Lemma make_list_dummy P li name w :
  build_starts P name = false ->
  exists tr,
    make_list P li name w
      = Done (- EINVAL)
          (mk_world (append_to li [zero_action] (dt_nodes w)) (timers w) (tr ++ trace w)).
Proof.
  unfold build_starts, make_list. intros Hb.
  destruct (decon_board_np P).
  2:{ exists [EvKzallocAction; EvMakeList name]. reflexivity. }
  destruct (of_find_node_by_name P name) as [np|].
  2:{ exists [EvKzallocAction; EvFindNodeByName name; EvMakeList name]. reflexivity. }
  cbn [andb] in Hb. apply negb_false_iff in Hb. cbv zeta in Hb.
  exists [EvKzallocAction; EvCountStrings "type"; EvFindNodeByName name; EvMakeList name].
  unfold bind at 1, emit at 1. unfold bind at 1, emit at 1. unfold bind at 1, emit at 1.
  rewrite Hb. reflexivity.
Qed.


(** ** dump_list *)

Lemma to_u32_congr a b k : a = b + k * 2 ^ 32 -> to_u32 a = to_u32 b.
Proof. intros ->. unfold to_u32. apply Z_mod_plus_full. Qed.

Lemma to_u32_inc x : exists k, to_u32 (x + 1) = x + 1 + k * 2 ^ 32.
Proof.
  exists (- ((x + 1) / 2 ^ 32)). unfold to_u32.
  pose proof (Z.div_mod (x + 1) (2 ^ 32) ltac:(lia)). lia.
Qed.

Lemma dump_count_total c a n :
  to_u32 (dump_total (dump_count c a) + n)
    = to_u32 (dump_total c + (if counted a then 1 else 0) + n).
Proof.
  unfold dump_count, counted, dump_total.
  destruct (kind_of (a_idx a)) as [[]|]; cbn [c_gpio c_regulator c_delay c_pinctrl c_timer];
    try (f_equal; lia);
    match goal with
    | |- context [to_u32 (?x + 1)] =>
        destruct (to_u32_inc x) as [k ->]; apply (to_u32_congr _ _ k); lia
    end.
Qed.

Lemma dump_list_total l : forall c,
  to_u32 (dump_total (fold_left dump_count l c))
    = to_u32 (dump_total c + Z.of_nat (length (List.filter counted l))).
Proof.
  induction l as [|a l IH]; intros c; cbn [fold_left List.filter length].
  - f_equal. simpl. lia.
  - rewrite IH, dump_count_total. f_equal.
    destruct (counted a); cbn [length]; lia.
Qed.

Lemma resolved_counted P n a : resolved P n a = true -> counted a = true.
Proof.
  unfold resolved, fields_resolved, counted. rewrite andb_true_iff. intros [_ H].
  destruct (a_subinfo a); [|discriminate].
  destruct (kind_of (a_idx a)) as [[]|]; try reflexivity;
    try rewrite andb_false_r in H; discriminate.
Qed.

Lemma filter_all {A} (f : A -> bool) l : forallb f l = true -> List.filter f l = l.
Proof.
  induction l as [|a l IH]; simpl; [reflexivity|].
  destruct (f a); [intros H; rewrite (IH H); reflexivity|discriminate].
Qed.

(** X10. The summary [dump_list] logs after a build accounts for every
    action. For the list [run_list] hands to [dump_list] (a list that was
    empty, after a [make_list] that returned), the five counters add up,
    as [unsigned int], to the number of actions of the list when the
    declaration let the build start; otherwise the list is the placeholder
    alone, which no counter counts. *)
Theorem dump_list_after_build (P : platform) (li : nat) (name : string)
  (w w' : world) (r : Z) :
  (li < length (dt_nodes w))%nat ->
  list_at li w = [] ->
  make_list P li name w = Done r w' ->
  let l := list_at li w' in
  if build_starts P name
  then to_u32 (dump_total (dump_list l)) = to_u32 (Z.of_nat (length l))
  else l = [zero_action] /\ dump_list l = mk_counts 0 0 0 0 0.
Proof.
  intros Hli Hempty Hm l.
  destruct (lookup_lt_is_Some_2 _ _ Hli) as [n Hn].
  assert (Hnil : n_node n = []) by (unfold list_at in Hempty; rewrite Hn in Hempty; exact Hempty).
  assert (Hadd : exists added,
            dt_nodes (world_of (make_list P li name w)) = append_to li added (dt_nodes w) /\
            if build_starts P name
            then forallb (resolved P (length (timers (world_of (make_list P li name w)))))
                   added = true
            else added = [zero_action]).
  { destruct (build_starts P name) eqn:Hb.
    - destruct (make_list_links P li name Hb w) as (_ & added & E & F). eauto.
    - destruct (make_list_dummy P li name w Hb) as (tr & ->). exists [zero_action]. auto. }
  destruct Hadd as (added & E & F).
  rewrite Hm in E, F. cbn [world_of] in E, F.
  assert (Hl : l = added).
  { unfold l. destruct w' as [nodes tm tr]. cbn [dt_nodes] in E. rewrite E.
    rewrite (list_at_append_to li added w tm tr n Hn), Hnil. reflexivity. }
  rewrite Hl. destruct (build_starts P name).
  - unfold dump_list. rewrite dump_list_total. cbn [dump_total c_gpio c_regulator c_delay c_pinctrl c_timer].
    rewrite filter_all; [f_equal|].
    apply forallb_forall. intros a Ha. rewrite forallb_forall in F.
    exact (resolved_counted _ _ _ (F a Ha)).
  - subst added. split; reflexivity.
Qed.

Lemma dump_list_after_build_witness :
  let P := Board.board 1 (Board.ticking 0) in
  let w := mk_world [mk_node "subnode_1" []] [] [] in
  exists w',
    make_list P 0 "subnode_1" w = Done 0 w' /\
    dump_list (list_at 0 w') = mk_counts 1 1 3 1 0 /\
    to_u32 (dump_total (dump_list (list_at 0 w')))
      = to_u32 (Z.of_nat (length (list_at 0 w'))).
Proof.
  intros P w. eexists. split; [vm_compute; reflexivity|]. split; [vm_compute; reflexivity|].
  refine (dump_list_after_build P 0 "subnode_1" w _ 0 _ _ _).
  - simpl. lia.
  - reflexivity.
  - vm_compute. reflexivity.
Defined.

(** ** Lists that hold resolved actions *)

Lemma links_weaken (Q Q' : nat -> action_info -> bool) li {A} (m : M A) w :
  (forall n a, Q n a = true -> Q' n a = true) -> links_at Q li m w -> links_at Q' li m w.
Proof.
  intros HQ (Hg & added & E & F). split; [exact Hg|]. exists added. split; [exact E|].
  apply forallb_forall. intros a Ha. rewrite forallb_forall in F. auto.
Qed.

Lemma linked_ok_mono P n n' a :
  (n <= n')%nat -> linked_ok P n a = true -> linked_ok P n' a = true.
Proof.
  intros Hle. unfold linked_ok. rewrite !orb_true_iff. intros [H|H]; [auto|].
  right. eapply resolved_mono; eassumption.
Qed.

Lemma make_list_links_ok P li name : links (linked_ok P) li (make_list P li name).
Proof.
  intros w. destruct (build_starts P name) eqn:Hb.
  - apply (links_weaken (resolved P)); [|apply make_list_links; exact Hb].
    intros n a H. unfold linked_ok. rewrite H. apply orb_true_r.
  - split; [apply grows_make_list|].
    destruct (make_list_dummy P li name w Hb) as (tr & ->).
    exists [zero_action]. auto.
Qed.

(** What a linking computation does to a registry of actions that
    satisfy [Q]. *)
Lemma links_all_actions (Q : nat -> action_info -> bool) li {A} (m : M A) w :
  (forall n n' a, (n <= n')%nat -> Q n a = true -> Q n' a = true) ->
  links_at Q li m w -> all_actions Q w -> all_actions Q (world_of (m w)).
Proof.
  intros Hmono (Hg & added & E & F) Hall k n a Hk Ha.
  apply timers_kept_length in Hg. rewrite forallb_forall in F.
  rewrite E in Hk. unfold append_to in Hk.
  destruct (Nat.eq_dec li k) as [->|Hne].
  - rewrite list_lookup_alter_eq in Hk.
    destruct (dt_nodes w !! k) as [n0|] eqn:E0; [|discriminate].
    injection Hk as <-. cbn [n_node] in Ha. apply in_app_or in Ha as [Ha|Ha].
    + apply (Hmono (length (timers w))); [exact Hg|]. exact (Hall k n0 a E0 Ha).
    + exact (F a Ha).
  - rewrite list_lookup_alter_ne in Hk by exact Hne.
    apply (Hmono (length (timers w))); [exact Hg|]. exact (Hall k n a Hk Ha).
Qed.

Lemma find_list_all_actions Q name w :
  all_actions Q w -> all_actions Q (world_of (find_list name w)).
Proof.
  intros Hall. unfold find_list.
  destruct (find_list_in (dt_nodes w) 0 name); try exact Hall.
  intros k n a Hk Ha. cbn [world_of dt_nodes timers] in *.
  destruct (lookup_app_Some (dt_nodes w) [mk_node name []] k n) as [Hcases _].
  destruct (Hcases Hk) as [Hl | [_ Hr]]; [exact (Hall k n a Hl Ha)|].
  destruct (k - length (dt_nodes w))%nat; [|discriminate Hr].
  injection Hr as <-. destruct Ha.
Qed.

(** X11. Lists only ever hold the placeholder or resolved actions.
    When every action of every registered list is the placeholder or is
    resolved (with its timer, if any, allocated), the same holds after any
    runs, on whatever board and however they end. *)
Theorem run_lists_keep_lists_resolved (P : platform) (ns : list string) (w : world) :
  all_actions (linked_ok P) w ->
  all_actions (linked_ok P) (world_of (run_lists P ns w)).
Proof.
  set (R := fun w w' => all_actions (linked_ok P) w -> all_actions (linked_ok P) w').
  assert (R_trans : forall w1 w2 w3, R w1 w2 -> R w2 w3 -> R w1 w3) by (unfold R; auto).
  assert (R_refl : forall w, R w w) by (unfold R; auto).
  assert (Hlinks : forall li A (m : M A), links (linked_ok P) li m -> steps R m).
  { intros li A m H w0 Hall.
    exact (links_all_actions _ li m w0 (linked_ok_mono P) (H w0) Hall). }
  assert (Hrun : forall name, steps R (run_list P name)).
  { intros name. unfold run_list.
    apply (steps_bind R R_trans);
      [intros w0 H0; exact (find_list_all_actions _ name w0 H0)|intros lh].
    apply (steps_bind R R_trans); [intros w0; apply R_refl|intros w0].
    apply (steps_bind R R_trans).
    - destruct (list_empty _); [|apply (steps_ret R R_refl)].
      apply (steps_bind R R_trans); [|intros _; apply (steps_ret R R_refl)].
      exact (Hlinks lh _ _ (make_list_links_ok P lh name)).
    - intros _. apply (steps_bind R R_trans); [|intros _; apply (steps_ret R R_refl)].
      apply (Hlinks lh). apply links_base; [apply do_list_keeps_nodes|apply grows_do_list]. }
  revert w. change (steps R (run_lists P ns)).
  induction ns as [|name ns IH]; simpl; [apply (steps_ret R R_refl)|].
  apply (steps_bind R R_trans); [apply Hrun|intros _; exact IH].
Qed.

Lemma run_lists_keep_lists_resolved_witness :
  all_actions (linked_ok (Board.board 1 (Board.ticking 1000)))
    (world_of (run_lists (Board.board 1 (Board.ticking 1000))
                 ["subnode_1"; "odd"; "subnode_2"; "subnode_3"] boot)).
Proof.
  apply (run_lists_keep_lists_resolved (Board.board 1 (Board.ticking 1000))
           ["subnode_1"; "odd"; "subnode_2"; "subnode_3"] boot).
  intros li n a H. destruct li; discriminate H.
Defined.

(** ** The executor on resolved lists *)

Lemma timer_load_ok p w :
  (p < length (timers w))%nat ->
  exists t, timers w !! p = Some t /\ timer_load (Some p) w = Done t w.
Proof.
  intros Hp. destruct (lookup_lt_is_Some_2 _ _ Hp) as [t Ht].
  exists t. split; [exact Ht|]. unfold timer_load. rewrite Ht. reflexivity.
Qed.

Lemma timer_store_ok p t w :
  (p < length (timers w))%nat ->
  timer_store (Some p) t w
    = Done tt (mk_world (dt_nodes w) (<[p := t]> (timers w)) (trace w)).
Proof.
  intros Hp. unfold timer_store. apply Nat.ltb_lt in Hp. rewrite Hp. reflexivity.
Qed.

Lemma timer_clear_ok action p w :
  a_timer action = Some p -> (p < length (timers w))%nat ->
  exists w', timer_clear action w = Done tt w' /\
    length (timers w') = length (timers w).
Proof.
  intros Ha Hp. unfold timer_clear. rewrite Ha.
  destruct (timer_load_ok p w Hp) as (t & _ & Hl).
  unfold bind. rewrite Hl, timer_store_ok by exact Hp.
  eexists. split; [reflexivity|]. cbn [timers]. apply length_insert.
Qed.

Lemma timer_delay_ok P action p w :
  a_timer action = Some p -> (p < length (timers w))%nat ->
  exists b w', timer_delay P action w = Done b w' /\
    length (timers w') = length (timers w).
Proof.
  intros Ha Hp. unfold timer_delay. rewrite Ha.
  unfold bind at 1, clock at 1.
  set (wc := mk_world (dt_nodes w) (timers w) (EvLocalClock :: trace w)).
  destruct (timer_load_ok p wc Hp) as (t & _ & Hl).
  unfold bind at 1. rewrite Hl. cbv zeta.
  unfold bind at 1. rewrite timer_store_ok by exact Hp.
  cbn [t_end t_now t_delay]. unfold msleep, usleep_range, bind, emit, ret.
  repeat match goal with
         | |- context [if ?b then _ else _] => destruct b
         end;
    (eexists _, _; split; [reflexivity|cbn [timers]; apply length_insert]).
Qed.

(** One action of a resolved list: the executor gets through it. *)
Lemma do_action_ok P r action w :
  linked_ok P (length (timers w)) action = true ->
  exists r' w', do_action P r action w = Done r' w' /\
    length (timers w') = length (timers w).
Proof.
  unfold linked_ok, placeholder, resolved, fields_resolved. intros H.
  apply orb_true_iff in H as [H|H].
  { destruct (a_type action); [discriminate|]. apply Z.eqb_eq in H.
    unfold do_action. rewrite H. simpl. eauto. }
  apply andb_true_iff in H as [_ H].
  destruct (a_subinfo action) as [su|]; [|discriminate].
  unfold do_action, mdelay, msleep, usleep_range.
  destruct (kind_of (a_idx action)) as [[]|]; try discriminate;
    apply andb_true_iff in H as [_ H]; try discriminate;
    try solve [unfold bind, emit, get_world, ret; eauto].
  - destruct (a_supply action); [|discriminate].
    unfold bind, emit, get_world, ret; eauto.
  - destruct (a_supply action); [|discriminate].
    unfold bind, emit, get_world, ret; eauto.
  - destruct (a_timer action) as [p|] eqn:Ha; [|discriminate]. apply Nat.ltb_lt in H.
    unfold bind at 1, clock at 1.
    set (wc := mk_world (dt_nodes w) (timers w) (EvLocalClock :: trace w)).
    destruct (timer_load_ok p wc H) as (t & _ & Hl).
    unfold bind at 1. rewrite Hl.
    unfold bind at 1. rewrite timer_store_ok by exact H.
    eexists _, _. split; [reflexivity|]. cbn [timers]. apply length_insert.
  - destruct (a_timer action) as [p|] eqn:Ha; [|discriminate]. apply Nat.ltb_lt in H.
    destruct (timer_delay_ok P action p w Ha H) as (b & w1 & Hd & Hlen).
    unfold bind at 1. rewrite Hd. destruct b; [|unfold ret; eauto].
    destruct (timer_clear_ok action p w1 Ha ltac:(lia)) as (w2 & Hc & Hlen2).
    unfold bind. rewrite Hc. eexists _, _. split; [reflexivity|]. lia.
  - destruct (a_timer action) as [p|] eqn:Ha; [|discriminate]. apply Nat.ltb_lt in H.
    destruct (timer_clear_ok action p w Ha H) as (w2 & Hc & Hlen2).
    unfold bind. rewrite Hc. eexists _, _. split; [reflexivity|]. lia.
Qed.

Lemma do_list_loop_ok P l : forall r w,
  forallb (linked_ok P (length (timers w))) l = true ->
  exists r' w', do_list_loop P l r w = Done r' w' /\
    length (timers w') = length (timers w).
Proof.
  induction l as [|a l IH]; intros r w H; cbn [do_list_loop forallb] in *.
  - unfold ret. eauto.
  - apply andb_true_iff in H as [Ha Hl].
    destruct (do_action_ok P r a w Ha) as (r1 & w1 & E1 & Hlen1).
    rewrite <- Hlen1 in Hl. destruct (IH r1 w1 Hl) as (r2 & w2 & E2 & Hlen2).
    unfold bind. rewrite E1, E2. eexists _, _. split; [reflexivity|]. lia.
Qed.

(** X12. Executing a list of resolved actions never dereferences a
    missing supply or timer: when every action of every registered list is
    the placeholder or is resolved, [do_list] runs the whole list and ends
    by returning, or by [BUG] on a negative [ret], whatever the board and
    the clock; and it allocates and frees no timer. *)
Theorem do_list_never_faults (P : platform) (li : nat) (w : world) :
  all_actions (linked_ok P) w ->
  faults (do_list P li w) = false /\
  length (timers (world_of (do_list P li w))) = length (timers w).
Proof.
  intros Hall.
  set (w1 := mk_world (dt_nodes w) (timers w) (EvDoList :: trace w)).
  assert (Hl : forallb (linked_ok P (length (timers w1))) (list_at li w1) = true).
  { apply forallb_forall. intros a Ha. unfold list_at, w1 in Ha. cbn [dt_nodes] in Ha.
    destruct (dt_nodes w !! li) as [n|] eqn:En; [|destruct Ha].
    exact (Hall li n a En Ha). }
  destruct (do_list_loop_ok P (list_at li w1) 0 w1 Hl) as (r & w2 & E & Hlen).
  assert (Hd : do_list P li w = if r <? 0 then Bug w2 else Done r w2).
  { unfold do_list, bind at 1, emit at 1, bind at 1, get_world at 1.
    fold w1. unfold bind. rewrite E. destruct (r <? 0); reflexivity. }
  rewrite Hd. destruct (r <? 0); (split; [reflexivity|exact Hlen]).
Qed.

Lemma do_list_never_faults_witness :
  let P := Board.board 1 (Board.ticking 1000) in
  let w := world_of (run_lists P ["subnode_2"; "odd"] boot) in
  faults (do_list P 0 w) = false /\
  length (timers (world_of (do_list P 0 w))) = length (timers w).
Proof.
  intros P w. apply (do_list_never_faults P 0 w).
  intros li n a Hn Ha. vm_compute in Hn.
  destruct li as [|[|li]]; [| |discriminate Hn]; injection Hn as <-;
    (destruct Ha as [<-|[]]; reflexivity).
Defined.

(** ** What decides the result of the executor *)

Lemma do_action_passes P r action :
  passes action = true -> returns (fun r' => r' = r) (do_action P r action).
Proof.
  unfold passes, do_action, mdelay, msleep, usleep_range. intros H.
  destruct (kind_of (a_idx action)) as [[]|]; try discriminate H;
    try solve [repeat (apply returns_bind; intros ?); apply returns_ret; reflexivity].
  apply returns_bind. intros [|];
    [apply returns_bind; intros _|]; apply returns_ret; reflexivity.
Qed.

Lemma do_list_loop_passes P l : forall r,
  forallb passes l = true -> returns (fun r' => r' = r) (do_list_loop P l r).
Proof.
  induction l as [|a l IH]; intros r H; cbn [do_list_loop forallb] in *.
  - apply returns_ret. reflexivity.
  - apply andb_true_iff in H as [Ha Hl].
    apply returns_bind_strong with (R1 := fun r' => r' = r);
      [apply do_action_passes; exact Ha|].
    intros r' ->. apply IH. exact Hl.
Qed.

Lemma never_bugs_bind {A B} (m : M A) (k : A -> M B) :
  never_bugs m -> (forall a, never_bugs (k a)) -> never_bugs (bind m k).
Proof.
  intros Hm Hk w. unfold bind. specialize (Hm w).
  destruct (m w) as [a w1| |]; [apply Hk|exact Hm|exact I].
Qed.

Lemma never_bugs_ret {A} (a : A) : never_bugs (ret a).
Proof. intros w. exact I. Qed.

Lemma never_bugs_oops {A} : never_bugs (@oops A).
Proof. intros w. exact I. Qed.

Lemma never_bugs_emit e : never_bugs (emit e).
Proof. intros w. exact I. Qed.

Lemma never_bugs_get_world : never_bugs get_world.
Proof. intros w. exact I. Qed.

Lemma never_bugs_clock P : never_bugs (clock P).
Proof. intros w. exact I. Qed.

Lemma never_bugs_timer_load p : never_bugs (timer_load p).
Proof.
  intros w. unfold timer_load. destruct p as [i|]; [|exact I].
  destruct (timers w !! i); exact I.
Qed.

Lemma never_bugs_timer_store p t : never_bugs (timer_store p t).
Proof.
  intros w. unfold timer_store. destruct p as [i|]; [|exact I].
  destruct (i <? length (timers w))%nat; exact I.
Qed.

Lemma never_bugs_do_action P r action : never_bugs (do_action P r action).
Proof.
  unfold do_action, timer_delay, timer_clear, mdelay, msleep, usleep_range.
  repeat first
    [ apply never_bugs_ret | apply never_bugs_oops | apply never_bugs_emit
    | apply never_bugs_get_world | apply never_bugs_clock
    | apply never_bugs_timer_load | apply never_bugs_timer_store
    | apply never_bugs_bind; [|intros ?]
    | match goal with
      | |- context [match ?x with _ => _ end] => destruct x
      end ].
Qed.

Lemma never_bugs_do_list_loop P l : forall r, never_bugs (do_list_loop P l r).
Proof.
  induction l as [|a l IH]; intros r; cbn [do_list_loop]; [apply never_bugs_ret|].
  apply never_bugs_bind; [apply never_bugs_do_action|exact IH].
Qed.

(** X13. Only a GPIO or regulator request (or an unknown kind) can make
    the executor abort: on a list of delays, pin-control selections, timer
    actions and placeholders, [do_list] never ends in [BUG], and when it
    returns it returns 0. *)
Theorem do_list_bug_needs_request (P : platform) (li : nat) (w : world) :
  forallb passes (list_at li w) = true ->
  match do_list P li w with
  | Done r _ => r = 0
  | Bug _ => False
  | Oops _ => True
  end.
Proof.
  intros H. unfold do_list, bind at 1, emit at 1, bind at 1, get_world at 1.
  set (w1 := mk_world (dt_nodes w) (timers w) (EvDoList :: trace w)).
  change (list_at li w1) with (list_at li w).
  pose proof (do_list_loop_passes P (list_at li w) 0 H w1) as Hr.
  pose proof (never_bugs_do_list_loop P (list_at li w) 0 w1) as Hb.
  unfold bind. destruct (do_list_loop P (list_at li w) 0 w1) as [r w2| |];
    [|exact Hb|exact I].
  rewrite (Hr r w2 eq_refl). reflexivity.
Qed.

Lemma do_list_bug_needs_request_witness :
  match do_list (Board.board 1 (Board.ticking 1000)) 0
          (mk_world [mk_node "subnode_3" [Board.await]]
                    [mk_timer "loading" 0 300000000 0 300] []) with
  | Done r _ => r = 0
  | Bug _ => False
  | Oops _ => True
  end.
Proof.
  apply (do_list_bug_needs_request (Board.board 1 (Board.ticking 1000)) 0
           (mk_world [mk_node "subnode_3" [Board.await]]
                     [mk_timer "loading" 0 300000000 0 300] [])).
  reflexivity.
Defined.

Lemma do_list_loop_app P l1 l2 : forall r w,
  do_list_loop P (l1 ++ l2) r w
    = bind (do_list_loop P l1 r) (fun r1 => do_list_loop P l2 r1) w.
Proof.
  induction l1 as [|a l1 IH]; intros r w; cbn [app do_list_loop].
  - reflexivity.
  - unfold bind. destruct (do_action P r a w) as [r1 w1| |]; [|reflexivity..].
    rewrite IH. reflexivity.
Qed.

Lemma do_action_request P r r0 action w :
  is_request action = true -> do_action P r action w = do_action P r0 action w.
Proof.
  unfold is_request, do_action. intros H.
  destruct (kind_of (a_idx action)) as [[]|]; try discriminate H; reflexivity.
Qed.

(** X14. The last request decides. When a list is executed to its end,
    the [ret] that [do_list] tests is the result of the last GPIO or
    regulator request of the list, whatever the requests before it
    returned: a failure that is followed by a later request is forgotten. *)
Theorem do_list_loop_last_request (P : platform) (l1 l2 : list action_info)
  (a : action_info) (r r3 : Z) (w w3 : world) :
  is_request a = true ->
  forallb passes l2 = true ->
  do_list_loop P (l1 ++ a :: l2) r w = Done r3 w3 ->
  exists r1 w1 w2,
    do_list_loop P l1 r w = Done r1 w1 /\
    do_action P 0 a w1 = Done r3 w2 /\
    do_list_loop P l2 r3 w2 = Done r3 w3.
Proof.
  intros Ha Hl2 H. rewrite do_list_loop_app in H.
  apply bind_inv in H as (r1 & w1 & H1 & H). cbn [do_list_loop] in H.
  apply bind_inv in H as (r2 & w2 & H2 & H).
  pose proof (do_list_loop_passes P l2 r2 Hl2 w2 r3 w3 H) as ->.
  rewrite (do_action_request P r1 0 a w1 Ha) in H2.
  exists r1, w1, w2. auto.
Qed.

Lemma do_list_loop_last_request_witness :
  exists r1 w1 w2,
    do_list_loop flaky_board [gpio_high_action 7] 0 boot = Done r1 w1 /\
    r1 = -16 /\
    do_action flaky_board 0 (gpio_high_action 5) w1 = Done 0 w2 /\
    do_list_loop flaky_board [msleep_action 30] 0 w2
      = Done 0 (mk_world [] []
                  [EvMsleep 30; EvGpioFree 5; EvGpioRequestOne 5 true;
                   EvGpioFree 7; EvGpioRequestOne 7 true]).
Proof.
  destruct (do_list_loop_last_request flaky_board
              [gpio_high_action 7] [msleep_action 30] (gpio_high_action 5) 0 0 boot
              (mk_world [] []
                 [EvMsleep 30; EvGpioFree 5; EvGpioRequestOne 5 true;
                  EvGpioFree 7; EvGpioRequestOne 7 true])
              eq_refl eq_refl eq_refl) as (r1 & w1 & w2 & H1 & H2 & H3).
  exists r1, w1, w2. split; [exact H1|]. split; [|split; [exact H2|exact H3]].
  vm_compute in H1. injection H1 as <- _. reflexivity.
Defined.

(** ** Timers are shared by name *)

Lemma resolved_scannable P n a : resolved P n a = true -> scannable n a.
Proof.
  unfold resolved, type_matches, fields_resolved. rewrite andb_true_iff. intros [Hty Hf].
  destruct (a_type a) as [ty|] eqn:Ety; [|discriminate]. exists ty. split; [exact Ety|].
  clear Ety. intros Hpre. apply prefix_head in Hpre as [rest ->].
  apply existsb_exists in Hty as ([k s] & Hin & Hks). cbn [fst snd] in Hks.
  apply andb_true_iff in Hks as [Hk Hs]. apply Z.eqb_eq in Hk.
  destruct (a_subinfo a); [|discriminate]. rewrite <- Hk, kind_of_idx_of in Hf.
  apply andb_true_iff in Hf as [_ Hf].
  simpl in Hin.
  repeat (destruct Hin as [Hin|Hin];
          [injection Hin as <- <-;
           first [ discriminate Hs
                 | destruct (a_timer a) as [p|]; [|discriminate Hf];
                   exists p; split; [reflexivity|apply Nat.ltb_lt; exact Hf] ]|]).
  destruct Hin.
Qed.

Lemma find_timer_in_list_total tm l name :
  (forall a, In a l -> scannable (length tm) a) ->
  (exists p, find_timer_in_list tm l name = Found p) \/
  (find_timer_in_list tm l name = NotFound /\
   forall a ty p t, In a l -> a_type a = Some ty -> STRNEQ "timer" ty = true ->
     a_timer a = Some p -> tm !! p = Some t -> t_name t <> name).
Proof.
  induction l as [|a l IH]; intros Hall; cbn [find_timer_in_list].
  { right. split; [reflexivity|]. intros a ty p t []. }
  destruct (Hall a (or_introl eq_refl)) as (ty & Ety & Hptr). rewrite Ety.
  assert (Hrest : forall a0, In a0 l -> scannable (length tm) a0)
    by (intros a0 H0; apply Hall; right; exact H0).
  specialize (IH Hrest).
  destruct (STRNEQ "timer" ty) eqn:Epre.
  - destruct (Hptr eq_refl) as (p & Ep & Hp). rewrite Ep.
    destruct (lookup_lt_is_Some_2 _ _ Hp) as [t Et]. rewrite Et.
    destruct (STREQ (t_name t) name) eqn:En; [left; eauto|].
    destruct IH as [IH | [IH Hno]]; [left; exact IH|].
    right. split; [exact IH|].
    intros a0 ty0 p0 t0 [<-|Hin] Hty0 Hpre0 Hp0 Ht0; [|eapply Hno; eassumption].
    assert (p0 = p) by congruence. subst p0.
    assert (t0 = t) by congruence. subst t0.
    unfold STREQ in En. apply String.eqb_neq in En. exact En.
  - destruct IH as [IH | [IH Hno]]; [left; exact IH|].
    right. split; [exact IH|].
    intros a0 ty0 p0 t0 [<-|Hin] Hty0 Hpre0 Hp0 Ht0; [|eapply Hno; eassumption].
    congruence.
Qed.

Lemma find_timer_in_nodes_total tm nodes name : forall idx,
  (idx + length nodes < 10)%nat ->
  (forall n a, In n nodes -> In a (n_node n) -> scannable (length tm) a) ->
  (exists p, find_timer_in_nodes tm nodes idx name = Found p) \/
  (find_timer_in_nodes tm nodes idx name = NotFound /\
   forall n a ty p t, In n nodes -> In a (n_node n) -> a_type a = Some ty ->
     STRNEQ "timer" ty = true -> a_timer a = Some p -> tm !! p = Some t ->
     t_name t <> name).
Proof.
  induction nodes as [|n nodes IH]; intros idx Hlen Hall; cbn [find_timer_in_nodes].
  { right. split; [reflexivity|]. intros n a ty p t []. }
  cbn [length] in Hlen.
  destruct (find_timer_in_list_total tm (n_node n) name
              (fun a Ha => Hall n a (or_introl eq_refl) Ha)) as [[p Hf] | [Hf Hno]];
    rewrite Hf; [left; eauto|].
  assert (E10 : (S idx =? 10)%nat = false) by (apply Nat.eqb_neq; lia).
  rewrite E10.
  destruct (IH (S idx) ltac:(lia) (fun n0 a H0 Ha => Hall n0 a (or_intror H0) Ha))
    as [IH' | [IH' Hno']]; [left; exact IH'|].
  right. split; [exact IH'|].
  intros n0 a ty p t [<-|Hin] Ha; [eapply Hno; eassumption|eapply Hno'; eassumption].
Qed.

Lemma find_timer_by_name (P : platform) (name : string) (w : world) :
  all_actions (resolved P) w ->
  (length (dt_nodes w) < 10)%nat ->
  (timer_linked name w ->
     exists p t, find_timer name w = Done p w /\
                 timers w !! p = Some t /\ t_name t = name) /\
  (~ timer_linked name w ->
     find_timer name w
       = Done (length (timers w))
              (mk_world (dt_nodes w) (timers w ++ [mk_timer name 0 0 0 0]) (trace w))).
Proof.
  intros Hall Hlen.
  assert (Hscan : forall n a, In n (dt_nodes w) -> In a (n_node n) ->
                    scannable (length (timers w)) a).
  { intros n a Hn Ha. apply list_elem_of_In, list_elem_of_lookup_1 in Hn as [li Hli].
    exact (resolved_scannable P _ _ (Hall li n a Hli Ha)). }
  destruct (find_timer_in_nodes_total (timers w) (dt_nodes w) name 0 Hlen Hscan)
    as [[p Hf] | [Hf Hno]].
  - assert (Hd : find_timer name w = Done p w) by (unfold find_timer; rewrite Hf; reflexivity).
    destruct (find_timer_in_nodes_Found _ _ _ _ _ Hf)
      as (n & a & ty & t & Hn & Ha & Hty & Hpre & Htm & Hp & Hname).
    split; [intros _; eauto|].
    intros Hnot. exfalso. apply Hnot. exists n, a, ty, p, t. auto 10.
  - split.
    + intros (n & a & ty & p & t & Hn & Ha & Hty & Hpre & Htm & Hp & Hname).
      exfalso. exact (Hno n a ty p t Hn Ha Hty Hpre Htm Hp Hname).
    + intros _. unfold find_timer. rewrite Hf. reflexivity.
Qed.

(** X15. Timers are shared by name. With fewer than ten sequences
    registered and every linked action resolved: when some linked timer
    action carries the name, [find_timer] returns a timer of that name and
    allocates nothing; when none does, it allocates one timer, zeroed, at
    the end of the heap. So two actions naming the same timer work on the
    same [timer_info]. *)
Theorem find_timer_shares (P : platform) (name : string) (w : world) :
  all_actions (resolved P) w ->
  (length (dt_nodes w) < 10)%nat ->
  (timer_linked name w ->
     exists p t, find_timer name w = Done p w /\
                 timers w !! p = Some t /\ t_name t = name) /\
  (~ timer_linked name w ->
     find_timer name w
       = Done (length (timers w))
              (mk_world (dt_nodes w) (timers w ++ [mk_timer name 0 0 0 0]) (trace w))).
Proof. apply find_timer_by_name. Qed.

Lemma find_timer_shares_witness :
  let P := Board.board 1 (Board.ticking 1000) in
  let w := world_of (run_lists P ["subnode_2"] boot) in
  (timer_linked "loading" w ->
     exists p t, find_timer "loading" w = Done p w /\
                 timers w !! p = Some t /\ t_name t = "loading") /\
  (~ timer_linked "loading" w ->
     find_timer "loading" w
       = Done (length (timers w))
              (mk_world (dt_nodes w) (timers w ++ [mk_timer "loading" 0 0 0 0]) (trace w))).
Proof.
  intros P w. apply (find_timer_shares P "loading" w).
  - intros li n a Hn Ha. vm_compute in Hn.
    destruct li as [|li]; [|discriminate Hn]. injection Hn as <-.
    destruct Ha as [<-|[]]. reflexivity.
  - vm_compute. lia.
Defined.

Lemma find_timer_in_list_NotFound tm l name :
  find_timer_in_list tm l name = NotFound ->
  forall a, In a l -> a_type a <> None.
Proof.
  induction l as [|a l IH]; cbn [find_timer_in_list]; intros H a0 Hin; [destruct Hin|].
  destruct (a_type a) as [ty|] eqn:Ety; [|discriminate].
  assert (Hrest : find_timer_in_list tm l name = NotFound).
  { destruct (STRNEQ "timer" ty); [|exact H].
    destruct (a_timer a) as [p|]; [|exact H].
    destruct (tm !! p) as [t|]; [|discriminate].
    destruct (STREQ (t_name t) name); [discriminate|exact H]. }
  destruct Hin as [<-|Hin]; [congruence|exact (IH Hrest a0 Hin)].
Qed.

Lemma find_timer_in_nodes_NotFound tm nodes name : forall idx,
  find_timer_in_nodes tm nodes idx name = NotFound ->
  forall n a, In n nodes -> In a (n_node n) -> a_type a <> None.
Proof.
  induction nodes as [|n nodes IH]; intros idx H n0 a Hn Ha; [destruct Hn|].
  cbn [find_timer_in_nodes] in H.
  destruct (find_timer_in_list tm (n_node n) name) eqn:E; try discriminate.
  destruct (S idx =? 10)%nat; [discriminate|].
  destruct Hn as [<-|Hn]; [exact (find_timer_in_list_NotFound _ _ _ E a Ha)|].
  exact (IH _ H n0 a Hn Ha).
Qed.

(** X16. A placeholder ends the creation of timers. Once any registered
    list holds an action without a type string, as the placeholder of a
    build that could not start is, [find_timer] never allocates again: if
    it returns at all, it returns a timer found before the placeholder and
    changes nothing. *)
Theorem placeholder_blocks_new_timers (name : string) (w w' : world)
  (n : dt_node_info) (a : action_info) (p : nat) :
  In n (dt_nodes w) -> In a (n_node n) -> a_type a = None ->
  find_timer name w = Done p w' ->
  w' = w /\ (p < length (timers w))%nat.
Proof.
  intros Hn Ha Hty. unfold find_timer.
  destruct (find_timer_in_nodes (timers w) (dt_nodes w) 0 name) as [q| | |] eqn:E;
    try discriminate; intros H; injection H as <- <-.
  - split; [reflexivity|].
    destruct (find_timer_in_nodes_Found _ _ _ _ _ E) as (_ & _ & _ & t & _ & _ & _ & _ & _ & Ht & _).
    eapply lookup_lt_Some. exact Ht.
  - exfalso. exact (find_timer_in_nodes_NotFound _ _ _ _ E n a Hn Ha Hty).
Qed.

Lemma placeholder_blocks_new_timers_witness :
  let w := mk_world [mk_node "subnode_3" [Board.await]; mk_node "odd" [zero_action]]
                    [mk_timer "loading" 0 0 0 300] [] in
  w = w /\ (0 < length (timers w))%nat.
Proof.
  intros w.
  apply (placeholder_blocks_new_timers "loading" w w (mk_node "odd" [zero_action])
           zero_action 0).
  - simpl. tauto.
  - simpl. tauto.
  - reflexivity.
  - reflexivity.
Defined.

(** ** The list mirrors the declaration *)

Lemma decide_type_keeps_desc action :
  a_desc (snd (decide_type action)) = a_desc action.
Proof.
  unfold decide_type. destruct (a_type action) as [[|c ty]|]; auto.
  cbv zeta.
  match goal with |- context [if ?b then _ else _] => destruct b end; auto.
Qed.

Lemma delay_usleep_keeps_text action subinfo :
  a_subinfo (snd (delay_usleep action subinfo)) = a_subinfo action /\
  a_desc (snd (delay_usleep action subinfo)) = a_desc action.
Proof.
  unfold delay_usleep.
  destruct (first_char subinfo) as [c|]; [|auto].
  destruct (isdigit c); [|auto].
  destruct (sscanf_8d_8d subinfo) as [[r v0] v1].
  repeat match goal with
         | |- context [if ?b then _ else _] => destruct b
         end; auto.
Qed.

Lemma decide_subinfo_keeps_text P action :
  returns (fun ra => a_subinfo (snd ra) = a_subinfo action /\
                     a_desc (snd ra) = a_desc action)
          (decide_subinfo P action).
Proof.
  unfold decide_subinfo.
  destruct (a_subinfo action) as [[|c sub]|] eqn:Esu;
    [apply returns_ret; auto| |apply returns_ret; auto].
  destruct (kind_of (a_idx action)) as [[]|]; try solve [apply returns_ret; auto].
  - apply returns_bind; intros _. apply returns_ret; auto.
  - apply returns_bind; intros _. apply returns_ret; auto.
  - apply returns_bind; intros _.
    destruct (regulator_bulk_get P _). apply returns_ret; auto.
  - apply returns_bind; intros _.
    destruct (regulator_bulk_get P _). apply returns_ret; auto.
  - destruct (first_char _) as [c'|]; [|apply returns_ret; auto].
    destruct (isdigit c'); [|apply returns_ret; auto].
    destruct (kstrtouint _). apply returns_ret; auto.
  - destruct (first_char _) as [c'|]; [|apply returns_ret; auto].
    destruct (isdigit c'); [|apply returns_ret; auto].
    destruct (kstrtouint _). apply returns_ret; auto.
  - apply returns_ret. rewrite <- Esu. apply delay_usleep_keeps_text.
  - apply returns_bind; intros _.
    destruct (of_find_device_by_node P); [|apply returns_ret; auto].
    apply returns_bind; intros _. apply returns_bind; intros _.
    apply returns_ret; auto.
  - destruct (sscanf_s_8d _) as [[r name] d]. cbv zeta.
    apply returns_bind_strong
      with (R1 := fun ra => a_subinfo (snd ra) = Some (String c sub) /\
                            a_desc (snd ra) = a_desc action).
    + destruct (negb (r =? 2)); [apply returns_ret; auto|].
      repeat (apply returns_bind; intros ?). apply returns_ret; auto.
    + intros [r' a'] Ha'. apply returns_bind; intros t. apply returns_ret. exact Ha'.
  - apply returns_bind; intros p. apply returns_ret; auto.
  - apply returns_bind; intros p. apply returns_ret; auto.
Qed.

Lemma skip_pair_kept P t : skip_pair P (Some t) = ret (negb (kept P t)).
Proof.
  unfold skip_pair, kept. destruct (lcdtype P =? 0); [|reflexivity].
  cbn [andb]. rewrite negb_involutive. reflexivity.
Qed.

(** One turn of the loop on a pair that is there. *)
Lemma make_list_turn_mirror P np strs li count i type subinfo r w tn w' t s :
  prop_type np = Some strs ->
  strs !! (i * 2)%nat = Some t -> strs !! (i * 2 + 1)%nat = Some s ->
  make_list_turn P np li count i type subinfo r w = Done tn w' ->
  match tn with
  | Continue ty su _ =>
      ty = Some t /\ su = Some s /\
      exists added,
        dt_nodes w' = append_to li added (dt_nodes w) /\
        List.map text_of added = declared_entry P np count i
  | Break r' => r' < 0
  end.
Proof.
  intros Hstrs Ht Hs H. unfold make_list_turn in H.
  unfold bind at 1, emit at 1 in H. unfold bind at 1, emit at 1 in H.
  assert (Hrt : forall o, of_property_read_string_index (prop_type np) (i * 2) o = Some t)
    by (intros o; unfold of_property_read_string_index; rewrite Hstrs, Ht; reflexivity).
  assert (Hrs : forall o, of_property_read_string_index (prop_type np) (i * 2 + 1) o = Some s)
    by (intros o; unfold of_property_read_string_index; rewrite Hstrs, Hs; reflexivity).
  rewrite !Hrt, !Hrs, skip_pair_kept in H.
  unfold bind at 1, ret at 1 in H.
  unfold declared_entry. rewrite Hstrs, Ht, Hs.
  destruct (kept P t); cbn [negb] in H.
  2:{ injection H as <- <-. split; [reflexivity|]. split; [reflexivity|].
      exists []. rewrite append_to_nil. auto. }
  unfold bind at 1, emit at 1 in H.
  set (fresh := new_action (Some t) (Some s)) in H.
  pose proof (decide_type_keeps fresh) as [Hty0 Hsu0].
  pose proof (decide_type_keeps_desc fresh) as Hde0.
  destruct (decide_type fresh) as [r0 a0]. cbn [snd] in Hty0, Hsu0, Hde0.
  destruct (r0 <? 0) eqn:Er0.
  { injection H as <- _. apply Z.ltb_lt. exact Er0. }
  apply bind_inv in H as ([r1 a1] & w1 & Hds & H).
  destruct (decide_subinfo_same_kind P a0 _ _ _ Hds) as [_ Hty1].
  destruct (decide_subinfo_keeps_text P a0 _ _ _ Hds) as [Hsu1 Hde1].
  cbn [snd] in Hty1, Hsu1, Hde1.
  pose proof (keeps_nodes_Done _ _ _ _ (decide_subinfo_keeps_nodes P a0) Hds) as Hn1.
  cbn [dt_nodes] in Hn1.
  destruct (r1 <? 0) eqn:Er1.
  { injection H as <- _. apply Z.ltb_lt. exact Er1. }
  unfold attach_desc in H.
  destruct (of_property_count_strings (prop_desc np) =? count);
    unfold bind, emit, list_add_tail, ret in H; injection H as <- <-;
    (split; [reflexivity|]; split; [reflexivity|];
     eexists [_]; cbn [dt_nodes]; rewrite Hn1; split; [reflexivity|];
     cbn [List.map]; unfold text_of; f_equal;
     cbn [a_type a_subinfo a_desc set_desc];
     rewrite ?Hty1, ?Hsu1, ?Hde1, ?Hty0, ?Hsu0, ?Hde0; reflexivity).
Qed.

Lemma make_list_loop_mirror P np strs li count fuel :
  prop_type np = Some strs ->
  forall i type subinfo r w r' w',
    ((i + fuel) * 2 <= length strs)%nat ->
    make_list_loop P np li count fuel i type subinfo r w = Done r' w' ->
    0 <= r' ->
    exists added,
      dt_nodes w' = append_to li added (dt_nodes w) /\
      List.map text_of added = declared_from P np count i fuel.
Proof.
  intros Hstrs. induction fuel as [|fuel IH]; intros i type subinfo r w r' w' Hlen H Hr';
    cbn [make_list_loop] in H.
  - injection H as _ <-. exists []. rewrite append_to_nil. auto.
  - apply bind_inv in H as (tn & w1 & Hturn & H).
    destruct (lookup_lt_is_Some_2 strs (i * 2) ltac:(lia)) as [t Ht].
    destruct (lookup_lt_is_Some_2 strs (i * 2 + 1) ltac:(lia)) as [s Hs].
    pose proof (make_list_turn_mirror _ _ _ _ _ _ _ _ _ _ _ _ _ _ Hstrs Ht Hs Hturn) as Hm.
    destruct tn as [ty su r1|r1].
    + destruct Hm as (_ & _ & added1 & E1 & T1).
      destruct (IH (S i) ty su r1 w1 r' w' ltac:(lia) H Hr') as (added2 & E2 & T2).
      exists (added1 ++ added2). rewrite E2, E1, append_to_app. split; [reflexivity|].
      rewrite List.map_app, T1, T2. reflexivity.
    + injection H as <- _. lia.
Qed.

(** X17. The list mirrors the declaration. When the declaration lets the
    build start and [make_list] returns, it returns a [ret] that is not
    negative, and the actions it appended are, in order, one for each
    pair of the ["type"] property that is kept (every pair when a panel is
    attached, only the pairs whose type begins with ["delay"] or ["timer"]
    when [lcdtype] is zero): the action carries the type and the subinfo
    of its pair, and the description at the index of its pair when ["desc"]
    holds exactly one string per pair, no description otherwise. *)
Theorem make_list_mirrors_declaration (P : platform) (li : nat) (name : string)
  (np : device_node) (w w' : world) (r : Z) :
  build_starts P name = true ->
  of_find_node_by_name P name = Some np ->
  make_list P li name w = Done r w' ->
  0 <= r /\
  exists added,
    dt_nodes w' = append_to li added (dt_nodes w) /\
    List.map text_of added = declared P np.
Proof.
  unfold build_starts, make_list. intros Hb Hnp H. rewrite Hnp in Hb, H.
  destruct (decon_board_np P); [|discriminate Hb].
  cbn [andb] in Hb. apply negb_true_iff in Hb. cbv zeta in Hb, H.
  unfold bind at 1, emit at 1 in H. unfold bind at 1, emit at 1 in H.
  unfold bind at 1, emit at 1 in H. rewrite Hb in H.
  apply bind_inv in H as (r' & w1 & Hloop & H).
  destruct (r' <? 0) eqn:Er'; [discriminate H|]. injection H as <- <-.
  apply Z.ltb_ge in Er'. split; [exact Er'|].
  destruct (prop_type np) as [strs|] eqn:Hstrs; [|discriminate Hb].
  cbn [of_property_count_strings] in Hloop.
  assert (Hlen : ((0 + Z.to_nat (Z.quot (Z.of_nat (length strs)) 2)) * 2
                  <= length strs)%nat).
  { rewrite Z.quot_div_nonneg by lia.
    pose proof (Z.mul_div_le (Z.of_nat (length strs)) 2 ltac:(lia)).
    pose proof (Z.div_pos (Z.of_nat (length strs)) 2 ltac:(lia) ltac:(lia)). lia. }
  destruct (make_list_loop_mirror P np strs li _ _ Hstrs _ _ _ _ _ _ _ Hlen Hloop Er')
    as (added & E & T).
  exists added. split; [exact E|]. unfold declared. rewrite Hstrs. exact T.
Qed.

Lemma make_list_mirrors_declaration_witness :
  let P := Board.board 0 (Board.ticking 0) in
  let w := mk_world [mk_node "mixed" []] [] [] in
  exists w',
    make_list P 0 "mixed" w = Done 0 w' /\
    exists added,
      dt_nodes w' = append_to 0 added (dt_nodes w) /\
      List.map text_of added
        = [(Some "delay,msleep", Some "30", None);
           (Some "timer,clear", Some "loading", None)].
Proof.
  intros P w. eexists. split; [vm_compute; reflexivity|].
  refine (proj2 (make_list_mirrors_declaration P 0 "mixed"
            (mk_np (Some ["gpio,high"; "gpio_lcd_en"; "delay,msleep"; "30";
                          "pinctrl"; "pin_on"; "timer,clear"; "loading"]) None)
            w _ 0 eq_refl eq_refl _)).
  vm_compute. reflexivity.
Defined.

(** ** The GPIO helpers *)

Ltac helper_cases P E gpioname :=
  unfold Helpers.of_gpio_get_active, Helpers.of_gpio_get_value,
    Helpers.of_gpio_set_value, Helpers.of_get_gpio_with_name, Helpers.line;
  destruct (Helpers.of_find_node_with_property E gpioname) as [np|] eqn:Enode;
    [destruct (Helpers.of_get_named_gpio_flags E np gpioname) as [gpio active_low];
     cbv zeta; destruct (gpio_is_valid P (to_s32 gpio)) eqn:Evalid|];
  cbn [negb fst snd].

(** X18. What the two readers return. When the name resolves to a line
    (its node exists and its number is valid), [of_gpio_get_value] returns
    the raw reading of the line, whatever its polarity, and
    [of_gpio_get_active] returns 1 when the reading equals the active
    level of the line (0 for an active-low line, 1 otherwise) and 0 for
    any other reading; when it does not, both return [-EINVAL]. *)
Theorem of_gpio_get_active_and_value (P : platform) (E : Helpers.env)
  (gpioname : string) :
  match Helpers.line P E gpioname with
  | Some (np, gpio, active_low) =>
      let level := to_s32 (Helpers.gpio_get_value E gpio) in
      fst (Helpers.of_gpio_get_value P E gpioname) = level /\
      fst (Helpers.of_gpio_get_active P E gpioname)
        = (if level =? (if active_low then 0 else 1) then 1 else 0)
  | None =>
      fst (Helpers.of_gpio_get_value P E gpioname) = - EINVAL /\
      fst (Helpers.of_gpio_get_active P E gpioname) = - EINVAL
  end.
Proof. helper_cases P E gpioname; auto. Qed.

(** X19. Which paths put the node back. [of_gpio_get_value] and
    [of_gpio_set_value] call [of_node_put] on the node they found on every
    path; [of_gpio_get_active] and [of_get_gpio_with_name] call it only
    when the number of the line is valid, and return without it when it
    is not. *)
Theorem helpers_node_put (P : platform) (E : Helpers.env) (gpioname : string)
  (value : Z) :
  let found := Helpers.nodes_taken E [Helpers.FindNodeWithProperty gpioname] in
  let resolved :=
    match Helpers.line P E gpioname with Some _ => found | None => [] end in
  Helpers.nodes_put (snd (Helpers.of_gpio_get_value P E gpioname)) = found /\
  Helpers.nodes_put (snd (Helpers.of_gpio_set_value P E gpioname value)) = found /\
  Helpers.nodes_put (snd (Helpers.of_gpio_get_active P E gpioname)) = resolved /\
  Helpers.nodes_put (snd (Helpers.of_get_gpio_with_name P E gpioname)) = resolved.
Proof.
  cbv zeta. unfold Helpers.nodes_taken, Helpers.nodes_put. cbn [flat_map app].
  helper_cases P E gpioname; cbn [flat_map app]; repeat split; reflexivity.
Qed.

(** X20. No helper hands gpiolib, or its caller, a number that is not
    valid. Every number read, requested or freed by a helper passes
    [gpio_is_valid]; [of_gpio_set_value] frees what it requested, in that
    order and whether or not the request succeeded, and requests nothing
    else; [of_get_gpio_with_name] returns [-EINVAL] or a valid number. *)
Theorem helpers_use_valid_gpios (P : platform) (E : Helpers.env) (gpioname : string)
  (value : Z) :
  let used h := Helpers.gpios_used (snd h) in
  forallb (gpio_is_valid P) (used (Helpers.of_gpio_get_active P E gpioname)) = true /\
  forallb (gpio_is_valid P) (used (Helpers.of_gpio_get_value P E gpioname)) = true /\
  forallb (gpio_is_valid P) (used (Helpers.of_gpio_set_value P E gpioname value)) = true /\
  List.filter (fun c => match c with
                        | Helpers.GpioRequestOne _ _ | Helpers.GpioFree _ => true
                        | _ => false
                        end)
    (snd (Helpers.of_gpio_set_value P E gpioname value))
    = match Helpers.line P E gpioname with
      | Some (_, gpio, _) =>
          [Helpers.GpioRequestOne gpio (negb (value =? 0)); Helpers.GpioFree gpio]
      | None => []
      end /\
  (fst (Helpers.of_get_gpio_with_name P E gpioname) = - EINVAL \/
   gpio_is_valid P (fst (Helpers.of_get_gpio_with_name P E gpioname)) = true).
Proof.
  cbv zeta.
  helper_cases P E gpioname;
    cbn [Helpers.gpios_used flat_map app forallb List.filter];
    rewrite ?Evalid;
    (split; [reflexivity|]; split; [reflexivity|]; split; [reflexivity|];
     split; [reflexivity|auto]).
Qed.

(** ** A timer started and awaited *)

Lemma half_bound us : 0 <= us < 20000 -> 0 <= us + us / 2 < 2 ^ 64.
Proof.
  intros H. pose proof (Z.div_pos us 2 ltac:(lia) ltac:(lia)).
  pose proof (Z.div_le_upper_bound us 2 us ltac:(lia) ltac:(lia)). lia.
Qed.

Lemma msecs_bound us : 0 <= us <= 2 ^ 32 - 1 -> 0 <= us / 1000 < 2 ^ 32.
Proof.
  intros H. split; [apply Z.div_pos; lia|]. apply Z.div_lt_upper_bound; lia.
Qed.

Lemma do_action_start (P : platform) (w : world) (action : action_info)
  (p : nat) (t : timer_info) (r : Z) :
  kind_of (a_idx action) = Some ACTION_TIMER_START ->
  a_timer action = Some p ->
  timers w !! p = Some t ->
  let start := to_u64 (local_clock P (trace w)) in
  do_action P r action w =
    Done r (mk_world (dt_nodes w)
              (<[p := mk_timer (t_name t) start
                        (to_u64 (start + t_delay t * NSEC_PER_MSEC))
                        (t_now t) (t_delay t)]> (timers w))
              (EvLocalClock :: trace w)).
Proof.
  intros Hk Hp Ht start.
  pose proof (lookup_lt_Some _ _ _ Ht) as Hlen. apply Nat.ltb_lt in Hlen.
  unfold do_action. rewrite Hk, Hp.
  unfold bind at 1, clock at 1. fold start.
  unfold bind at 1, timer_load at 1. cbn [timers]. rewrite Ht.
  unfold bind, timer_store, ret. cbn [timers dt_nodes trace]. rewrite Hlen. reflexivity.
Qed.

(** X21. A start and the await that follows it wait out the delay. When
    a timer of delay [d] ms is started at clock reading [s] and awaited at
    reading [n], with [s <= n] and stamps below 2^63 ns, the start arms the
    timer to end at [e = s + d * 10^6] and the await sleeps what is left,
    [us = (e - n) / 1000] microseconds: with [usleep_range(us, us + us / 2)]
    below 20 ms, with [msleep(us / 1000)] from 20 ms on, and then clears
    the end. It does not sleep when the delay has passed ([e <= n]), and
    it neither sleeps nor clears the end when [us] is zero or above
    UINT_MAX. *)
Theorem start_then_await (P : platform) (w : world) (start await : action_info)
  (p : nat) (t : timer_info) (r : Z) :
  kind_of (a_idx start) = Some ACTION_TIMER_START -> a_timer start = Some p ->
  kind_of (a_idx await) = Some ACTION_TIMER_DELAY -> a_timer await = Some p ->
  timers w !! p = Some t ->
  let s := to_u64 (local_clock P (trace w)) in
  let n := to_u64 (local_clock P (EvLocalClock :: trace w)) in
  let e := s + t_delay t * NSEC_PER_MSEC in
  let us := (e - n) / 1000 in
  0 < t_delay t -> e < 2 ^ 63 -> s <= n ->
  exists w',
    do_list_loop P [start; await] r w = Done r w' /\
    trace w' =
      (if n <? e then
         if (us =? 0) || (UINT_MAX <? us) then []
         else if us <? 20000 then [EvUsleepRange us (us + us / 2)]
         else [EvMsleep (us / 1000)]
       else []) ++ EvLocalClock :: EvLocalClock :: trace w /\
    timers w' !! p =
      Some (mk_timer (t_name t) s
              (if (n <? e) && ((us =? 0) || (UINT_MAX <? us)) then e else 0)
              n (t_delay t)).
Proof.
  intros Hks Hps Hka Hpa Ht s n e us Hd He Hsn.
  assert (Hs : 0 <= s) by (apply Z.mod_pos_bound; lia).
  pose proof (lookup_lt_Some _ _ _ Ht) as Hlen.
  cbn [do_list_loop]. unfold bind at 1.
  rewrite (do_action_start P w start p t r Hks Hps Ht). fold s.
  unfold NSEC_PER_MSEC in *. rewrite (to_u64_small (s + t_delay t * 1000000)) by (fold e; lia).
  fold e.
  change (to_u64 (local_clock P (EvLocalClock :: trace w))) with n.
  set (t1 := mk_timer (t_name t) s e (t_now t) (t_delay t)).
  set (w1 := mk_world (dt_nodes w) (<[p := t1]> (timers w)) (EvLocalClock :: trace w)).
  assert (Ht1 : timers w1 !! p = Some t1)
    by (unfold w1; cbn [timers]; apply list_lookup_insert_eq; exact Hlen).
  unfold bind. rewrite (do_action_await P w1 await p t1 r Hka Hpa Ht1).
  change (to_u64 (local_clock P (trace w1))) with n.
  cbn [t_end t1 t_delay t_name t_start]. unfold t1 at 1 2 3 4. cbn [t_end].
  assert (Hn : 0 <= n) by (apply Z.mod_pos_bound; lia).
  assert (Hse : s < e) by (unfold e; clearbody s; lia).
  clearbody s n e.
  assert (E0 : (e =? 0) = false) by (apply Z.eqb_neq; clear - Hs Hse; lia).
  rewrite E0.
  assert (Hins : forall x,
            <[p := x]> (timers w1) !! p = Some x).
  { intros x. apply list_lookup_insert_eq. unfold w1. cbn [timers].
    rewrite length_insert. exact Hlen. }
  destruct (n <? e) eqn:E1.
  - apply Z.ltb_lt in E1.
    rewrite (us_delta_plain e n) by lia. fold us.
    assert (Hus : 0 <= us) by (apply Z.div_pos; clear - E1; lia).
    clearbody us.
    destruct ((us =? 0) || (UINT_MAX <? us)) eqn:E2.
    { eexists. split; [reflexivity|]. split; [reflexivity|].
      unfold after_await. cbn [timers andb]. apply Hins. }
    apply orb_false_elim in E2 as [_ E2]. apply Z.ltb_ge in E2. unfold UINT_MAX in E2.
    unfold MSEC_TO_USEC, SMALL_MSECS, USEC_PER_MSEC, USEC_TO_MSEC.
    change (20 * 1000) with 20000.
    destruct (us <? 20000) eqn:E3.
    + apply Z.ltb_lt in E3. eexists. split; [reflexivity|]. split.
      * unfold after_await. cbn [trace app]. rewrite Z.shiftr_div_pow2 by (clear; lia).
        change (2 ^ 1) with 2.
        rewrite to_u64_small; [reflexivity|]. apply half_bound. clear - Hus E3. lia.
      * unfold after_await. cbn [timers andb]. apply Hins.
    + eexists. split; [reflexivity|]. split.
      * unfold after_await. cbn [trace app]. rewrite to_u32_small; [reflexivity|].
        apply msecs_bound. clear - Hus E2. lia.
      * unfold after_await. cbn [timers andb]. apply Hins.
  - eexists. split; [reflexivity|]. split; [reflexivity|].
    unfold after_await. cbn [timers andb]. apply Hins.
Qed.

Lemma start_then_await_witness :
  let P := Board.board 1 (Board.ticking 290000000) in
  let start := set_timer (timer_start_action "loading 300") (Some 0%nat) in
  exists w',
    do_list_loop P [start; Board.await] 0 (Board.armed 0 300) = Done 0 w' /\
    trace w' = [EvUsleepRange 10000 15000; EvLocalClock; EvLocalClock] /\
    timers w' !! 0%nat = Some (mk_timer "loading" 0 0 290000000 300).
Proof.
  intros P start.
  apply (start_then_await P (Board.armed 0 300) start Board.await 0
           (mk_timer "loading" 0 0 0 300) 0);
    try reflexivity; vm_compute; congruence.
Defined.

(** X22. A timer start adopts the timer of its name and overwrites its
    delay. With fewer than ten sequences registered and every linked
    action resolved: when a timer of the name is already linked,
    [decide_subinfo] gives the new ["timer,start"] action that timer,
    allocates none, and stores the delay of the new action in it, leaving
    its start, end and now as they were; it does so also when it then
    rejects the delay as shorter than 20 ms. *)
Theorem timer_start_adopts_linked_timer (P : platform) (action : action_info)
  (w : world) (subinfo name : string) (d : Z) :
  all_actions (resolved P) w ->
  (length (dt_nodes w) < 10)%nat ->
  kind_of (a_idx action) = Some ACTION_TIMER_START ->
  a_subinfo action = Some subinfo ->
  sscanf_s_8d subinfo = (2, Some name, Some d) ->
  timer_linked name w ->
  exists p t,
    timers w !! p = Some t /\ t_name t = name /\
    decide_subinfo P action w
      = Done (if to_u32 d <? SMALL_MSECS then - EINVAL else 2, set_timer action (Some p))
             (mk_world (dt_nodes w)
                (<[p := mk_timer name (t_start t) (t_end t) (t_now t) (to_u32 d)]> (timers w))
                (trace w)).
Proof.
  intros Hall Hlen Hk Hsub Hparse Hlinked.
  destruct (proj1 (find_timer_by_name P name w Hall Hlen) Hlinked) as (p & t & Hf & Ht & Hname).
  exists p, t. split; [exact Ht|]. split; [exact Hname|].
  pose proof (lookup_lt_Some _ _ _ Ht) as Hp. apply Nat.ltb_lt in Hp.
  unfold decide_subinfo. rewrite Hsub.
  destruct subinfo as [|c sub]; [discriminate Hparse|].
  rewrite Hk, Hparse. cbv zeta. cbn [default store_opt Z.eqb Pos.eqb negb].
  change (id name) with name.
  assert (Hl : timer_load (Some p) w = Done t w)
    by (unfold timer_load; rewrite Ht; reflexivity).
  unfold bind, ret. rewrite Hf. cbn [a_timer set_timer].
  rewrite Hl, timer_store_ok by (apply Nat.ltb_lt; exact Hp).
  cbn [a_timer set_timer]. unfold timer_load. cbn [timers].
  rewrite list_lookup_insert_eq by (apply Nat.ltb_lt; exact Hp).
  cbn [t_delay t_name]. rewrite Hname. reflexivity.
Qed.

Lemma timer_start_adopts_linked_timer_witness :
  let P := Board.board 1 (Board.ticking 1000) in
  let w := world_of (run_lists P ["subnode_2"] boot) in
  exists p t,
    timers w !! p = Some t /\ t_name t = "loading" /\
    decide_subinfo P (timer_start_action "loading 10") w
      = Done (- EINVAL, set_timer (timer_start_action "loading 10") (Some p))
             (mk_world (dt_nodes w)
                (<[p := mk_timer "loading" (t_start t) (t_end t) (t_now t) 10]> (timers w))
                (trace w)).
Proof.
  intros P w.
  apply (timer_start_adopts_linked_timer P (timer_start_action "loading 10") w
           "loading 10" "loading" 10).
  - intros li n a Hn Ha. vm_compute in Hn.
    destruct li as [|li]; [|discriminate Hn]. injection Hn as <-.
    destruct Ha as [<-|[]]. reflexivity.
  - vm_compute. lia.
  - reflexivity.
  - reflexivity.
  - reflexivity.
  - exists (mk_node "subnode_2" (list_at 0 w)), (hd zero_action (list_at 0 w)),
      "timer,start", 0%nat.
    eexists. vm_compute. repeat split; auto.
Defined.

Lemma find_timer_in_nodes_full tm nodes name : forall idx,
  (idx + length nodes = 10)%nat -> nodes <> [] ->
  (forall n a, In n nodes -> In a (n_node n) -> scannable (length tm) a) ->
  (exists p, find_timer_in_nodes tm nodes idx name = Found p) \/
  find_timer_in_nodes tm nodes idx name = ScanBug.
Proof.
  induction nodes as [|n nodes IH]; intros idx Hlen Hne Hall; [congruence|].
  cbn [find_timer_in_nodes]. cbn [length] in Hlen.
  destruct (find_timer_in_list_total tm (n_node n) name
              (fun a Ha => Hall n a (or_introl eq_refl) Ha)) as [[p Hf] | [Hf _]];
    rewrite Hf; [left; eauto|].
  destruct (S idx =? 10)%nat eqn:E10; [right; reflexivity|].
  apply Nat.eqb_neq in E10.
  apply (IH (S idx)); [lia|destruct nodes; [cbn [length] in Hlen; lia|discriminate]|].
  intros n0 a H0 Ha. exact (Hall n0 a (or_intror H0) Ha).
Qed.

(** X23. No new timer once ten sequences are registered. With all ten
    slots of the registry taken and every linked action resolved,
    [find_timer] for a name that no linked timer action carries ends in
    [BUG_ON] instead of allocating the timer: its scan counts the lists it
    has been through and trips when it has been through ten. *)
Theorem find_timer_bug_at_capacity (P : platform) (name : string) (w : world) :
  all_actions (resolved P) w ->
  length (dt_nodes w) = 10%nat ->
  ~ timer_linked name w ->
  find_timer name w = Bug w.
Proof.
  intros Hall Hlen Hnot.
  assert (Hscan : forall n a, In n (dt_nodes w) -> In a (n_node n) ->
                    scannable (length (timers w)) a).
  { intros n a Hn Ha. apply list_elem_of_In, list_elem_of_lookup_1 in Hn as [li Hli].
    exact (resolved_scannable P _ _ (Hall li n a Hli Ha)). }
  assert (Hne : dt_nodes w <> []) by (destruct (dt_nodes w); [discriminate Hlen|discriminate]).
  unfold find_timer.
  destruct (find_timer_in_nodes_full (timers w) (dt_nodes w) name 0 Hlen Hne Hscan)
    as [[p Hf] | Hf]; rewrite Hf; [|reflexivity].
  exfalso. apply Hnot.
  destruct (find_timer_in_nodes_Found _ _ _ _ _ Hf)
    as (n & a & ty & t & Hn & Ha & Hty & Hpre & Htm & Hp & Hname).
  exists n, a, ty, p, t. auto 10.
Qed.

Lemma find_timer_bug_at_capacity_witness :
  let w := mk_world (List.map (fun n => mk_node (n_name n) [msleep_action 30])
                       (filled 10 "b")) [] [] in
  find_timer "loading" w = Bug w.
Proof.
  intros w. apply (find_timer_bug_at_capacity (Board.board 1 (Board.ticking 0)) "loading" w).
  - intros li n a Hn Ha. vm_compute in Hn.
    do 10 (destruct li as [|li];
           [injection Hn as <-; destruct Ha as [<-|[]]; reflexivity|]).
    discriminate Hn.
  - reflexivity.
  - intros (n & a & ty & p & t & _ & _ & _ & _ & _ & Ht & _). destruct p; discriminate Ht.
Defined.

(** ** The GPIOs the executor requests *)

Lemma paired_app l1 l2 : forall s,
  paired s l1 = true -> paired s (l1 ++ l2) = paired None l2.
Proof.
  induction l1 as [|e l1 IH]; intros s H; cbn [app paired] in *.
  - destruct s; [discriminate|reflexivity].
  - destruct s as [g|]; destruct e; try discriminate; try (apply IH; exact H).
    apply andb_true_iff in H as [Hg H]. rewrite Hg. cbn [andb]. apply IH. exact H.
Qed.

Lemma paired_no_gpio l : forallb (fun e => negb (is_gpio e)) l = true -> paired None l = true.
Proof.
  induction l as [|e l IH]; cbn [forallb paired]; [reflexivity|].
  intros H. apply andb_true_iff in H as [He Hl].
  destruct e; try discriminate He; apply IH; exact Hl.
Qed.

Lemma frees_at_once_bind {A B} (m : M A) (k : A -> M B) :
  frees_at_once m -> (forall a, frees_at_once (k a)) -> frees_at_once (bind m k).
Proof.
  intros Hm Hk w. unfold bind.
  destruct (Hm w) as (n1 & E1 & F1).
  destruct (m w) as [a w'| w' | w']; simpl in E1; [|eauto|eauto].
  destruct (Hk a w') as (n2 & E2 & F2).
  exists (n2 ++ n1). rewrite E2, E1, app_assoc. split; [reflexivity|].
  rewrite (paired_app n2 n1 None F2). exact F1.
Qed.

Lemma frees_at_once_emits {A} (m : M A) :
  emits (fun e => negb (is_gpio e)) m -> frees_at_once m.
Proof.
  intros H w. destruct (H w) as (new & E & F). exists new.
  split; [exact E|]. apply paired_no_gpio. exact F.
Qed.

Lemma frees_at_once_do_action P r action : frees_at_once (do_action P r action).
Proof.
  unfold do_action.
  destruct (kind_of (a_idx action)) as [[]|];
    try solve [apply frees_at_once_emits;
               unfold timer_delay, timer_clear, msleep, mdelay, usleep_range; walk].
  - intros w. exists [EvGpioFree (a_gpio action); EvGpioRequestOne (a_gpio action) true].
    split; [reflexivity|]. cbn [paired]. rewrite Z.eqb_refl. reflexivity.
  - intros w. exists [EvGpioFree (a_gpio action); EvGpioRequestOne (a_gpio action) false].
    split; [reflexivity|]. cbn [paired]. rewrite Z.eqb_refl. reflexivity.
Qed.

Lemma frees_at_once_do_list_loop P l : forall r, frees_at_once (do_list_loop P l r).
Proof.
  induction l as [|a l IH]; intros r; cbn [do_list_loop].
  - intros w. exists []. auto.
  - apply frees_at_once_bind; [apply frees_at_once_do_action|exact IH].
Qed.

(** X24. The executor never keeps a GPIO. In what [do_list] adds to the
    log, on whatever list and however it ends, every [gpio_request_one]
    is followed at once by the [gpio_free] of the same number, whether or
    not the request succeeded, and nothing is freed that was not just
    requested. *)
Theorem do_list_frees_at_once (P : platform) (li : nat) (w : world) :
  exists new,
    trace (world_of (do_list P li w)) = new ++ trace w /\
    paired None new = true.
Proof.
  revert w. change (frees_at_once (do_list P li)). unfold do_list.
  apply frees_at_once_bind; [apply frees_at_once_emits; auto with driver|intros _].
  apply frees_at_once_bind; [apply frees_at_once_emits; auto with driver|intros w'].
  apply frees_at_once_bind; [apply frees_at_once_do_list_loop|intros r].
  destruct (r <? 0); apply frees_at_once_emits; auto with driver.
Qed.
